(** * uWebSockets [HttpResponse]: a shallow embedding of src/HttpResponse.h

    The response object of uWebSockets frames a reply onto a non-blocking
    socket.  This development embeds the member functions of
    [uWS::HttpResponse] as state-passing functions over the fields they read
    and write ([HttpResponseData::state], [HttpResponseData::offset], the two
    callbacks, the loop's [noMark]) and over a log of every call made into
    the base class [AsyncSocket] ([Super::write], [Super::timeout]).

    Layout: definitions first (utilities, flags, the socket, the member
    functions, the upgrade negotiation), then the lemmas. *)

From Stdlib Require Import ZArith List String Ascii Bool Lia.
Import ListNotations.

#[local] Open Scope string_scope.
#[local] Open Scope Z_scope.

(* ===================================================================== *)
(** ** Machine integers and string views *)

(** [size_t] and [uint64_t]: 64-bit unsigned arithmetic wraps. *)
Definition as_size_t (x : Z) : Z := x mod 2 ^ 64.

(** The cast [(unsigned int) x]. *)
Definition as_unsigned (x : Z) : Z := x mod 2 ^ 32.

Definition INT_MAX : Z := 2 ^ 31 - 1.

(** The cast [(int) x] of a [size_t]: two's complement, 32 bits. *)
Definition as_int (x : Z) : Z := (x + 2 ^ 31) mod 2 ^ 32 - 2 ^ 31.

(** [std::string_view::length]. *)
Definition strlen (s : string) : Z := Z.of_nat (String.length s).

(** Pointer arithmetic [data.data() + n] on a view: the view without its
    first [n] characters. *)
Fixpoint skipn_string (n : nat) (s : string) : string :=
  match n, s with
  | O, _ => s
  | S n', String _ s' => skipn_string n' s'
  | S _, EmptyString => EmptyString
  end.

Definition advance (s : string) (n : Z) : string := skipn_string (Z.to_nat n) s.

Definition CRLF : string := String "013" (String "010" EmptyString).

(** The bytes a [write(buf, length)] call hands over: the first [length]
    characters at [buf]. *)
Definition handed (buf : string) (length : Z) : string :=
  substring 0 (Z.to_nat length) buf.

Module utils.

Definition digitChar (d : Z) : ascii :=
  ascii_of_nat (Z.to_nat (if d <? 10 then 48 + d else 87 + d)).

(** Most significant digit first, no leading zeros, a single digit for
    zero.  [width] bounds the number of digits. *)
Fixpoint digits (base : Z) (width : nat) (n : Z) : string :=
  match width with
  | O => EmptyString
  | S width' =>
      if n <? base then String (digitChar n) EmptyString
      else digits base width' (n / base)
           ++ String (digitChar (n mod base)) EmptyString
  end.

(** Modelled from the spec: [utils::u32toaHex] (Utilities.h is not part of
    the sources at hand).  Section 4.3: the chunk length is encoded as
    lowercase unsigned hexadecimal, ASCII, no leading zeros beyond a single
    zero digit.  Eight digits cover 32 bits. *)
Definition u32toaHex (value : Z) : string := digits 16 8 value.

(** Modelled from the spec: [utils::u64toa] (Utilities.h is not part of the
    sources at hand).  Section 6: [Content-Length: <decimal>].  Twenty
    digits cover 64 bits. *)
Definition u64toa (value : Z) : string := digits 10 20 value.

End utils.

#[global] Arguments utils.u32toaHex : simpl never.
#[global] Arguments utils.u64toa : simpl never.
#[global] Arguments as_size_t : simpl never.
#[global] Arguments as_unsigned : simpl never.
#[global] Arguments as_int : simpl never.
#[global] Arguments strlen : simpl never.

(* ===================================================================== *)
(** ** HttpResponseData *)

(** The bits of [HttpResponseData::state].  HttpResponseData.h is not part of
    the sources at hand, so the four constants this file uses are taken as
    parameters; what the development needs of them is [independent]. *)
Class HttpResponseDataFlags : Type := {
  HTTP_STATUS_CALLED : Z;
  HTTP_WRITE_CALLED : Z;
  HTTP_END_CALLED : Z;
  HTTP_RESPONSE_PENDING : Z
}.

(** [state & flag], as a C++ condition. *)
Definition flagSet (state flag : Z) : bool := negb (Z.land state flag =? 0).

(** The four flags are non-zero and share no bit. *)
Definition independentb (F : HttpResponseDataFlags) : bool :=
  negb (HTTP_STATUS_CALLED =? 0) && negb (HTTP_WRITE_CALLED =? 0)
  && negb (HTTP_END_CALLED =? 0) && negb (HTTP_RESPONSE_PENDING =? 0)
  && (Z.land HTTP_STATUS_CALLED HTTP_WRITE_CALLED =? 0)
  && (Z.land HTTP_STATUS_CALLED HTTP_END_CALLED =? 0)
  && (Z.land HTTP_STATUS_CALLED HTTP_RESPONSE_PENDING =? 0)
  && (Z.land HTTP_WRITE_CALLED HTTP_END_CALLED =? 0)
  && (Z.land HTTP_WRITE_CALLED HTTP_RESPONSE_PENDING =? 0)
  && (Z.land HTTP_END_CALLED HTTP_RESPONSE_PENDING =? 0).

Definition independent (F : HttpResponseDataFlags) : Prop :=
  independentb F = true.

(** One assignment of independent bits, used to run the model. *)
Definition bits1248 : HttpResponseDataFlags := {|
  HTTP_STATUS_CALLED := 1;
  HTTP_WRITE_CALLED := 2;
  HTTP_END_CALLED := 4;
  HTTP_RESPONSE_PENDING := 8
|}.

(** A registered callback; only its presence matters here. *)
Definition Handler : Type := nat.

(* ===================================================================== *)
(** ** AsyncSocket: the base class, seen from HttpResponse *)

(** Which statement of HttpResponse.h issued a [Super::write].  The site is
    not an argument of the C++ call; it records where in the source the call
    stands, so that the log can tell a status line from a header line from
    the caller's data when their bytes are the same. *)
Inductive Site : Type :=
| StatusLine     (* writeStatus *)
| Interim        (* writeContinue *)
| HeaderLine     (* writeHeader, Content-Length, the blank line *)
| ChunkFraming   (* chunk size lines and the terminating chunk *)
| Payload.       (* the caller's data *)

(** What [Super::write] returns: [(written, failed)]. *)
Definition Answer : Type := (Z * bool)%type.

(** Every call into the base class, in program order. *)
Inductive Event : Type :=
| Sent (site : Site) (buf : string) (length : Z) (optional : bool) (answer : Answer)
| Armed (seconds : Z).

(** The answer of a socket that accepts nothing. *)
Definition saturated : Answer := (0, true).

(** The answer to the next call. *)
Definition nextAnswer (script : list Answer) : Answer :=
  match script with
  | [] => saturated
  | a :: _ => a
  end.

(** The response as HttpResponse.h sees it: the fields of HttpResponseData it
    reads and writes, the loop's [noMark], and the socket.  AsyncSocket.h is
    not part of the sources at hand, so what [Super::write] returns is taken
    as a parameter: [answers] lists the pairs [(written, failed)] the socket
    will return, one per call, with no condition on them.  A run that makes
    [n] calls into the socket is the run of the model on the [n] answers it
    got; a socket whose list is used up is [saturated].  [trace] logs the
    calls made. *)
Record World : Type := mkWorld {
  state : Z;
  offset : Z;
  onAborted : option Handler;
  onWritable : option Handler;
  inStream : option Handler;
  noMark : bool;
  answers : list Answer;
  trace : list Event
}.

Definition Resp (A : Type) : Type := World -> A * World.

Definition ret {A : Type} (a : A) : Resp A := fun w => (a, w).

Definition bind {A B : Type} (m : Resp A) (k : A -> Resp B) : Resp B :=
  fun w => let (a, w') := m w in k a w'.

Declare Scope resp_scope.
Delimit Scope resp_scope with resp.
Notation "x <- m ;; k" := (bind m (fun x => k))
  (at level 61, m at next level, right associativity) : resp_scope.
Notation "m ;; k" := (bind m (fun _ => k))
  (at level 61, right associativity) : resp_scope.
#[local] Open Scope resp_scope.

Definition when (b : bool) (m : Resp unit) : Resp unit :=
  if b then m else ret tt.

Definition getOffset : Resp Z := fun w => (offset w, w).
Definition getNoMark : Resp bool := fun w => (noMark w, w).

(** [state & flag], read as a condition. *)
Definition testState (flag : Z) : Resp bool := fun w =>
  (flagSet (state w) flag, w).

(** [state |= flag]. *)
Definition orState (flag : Z) : Resp unit := fun w =>
  (tt, mkWorld (Z.lor (state w) flag) (offset w) (onAborted w) (onWritable w)
               (inStream w) (noMark w) (answers w) (trace w)).

(** [state &= ~flag]. *)
Definition andNotState (flag : Z) : Resp unit := fun w =>
  (tt, mkWorld (Z.land (state w) (Z.lnot flag)) (offset w) (onAborted w)
               (onWritable w) (inStream w) (noMark w) (answers w) (trace w)).

(** [offset += written]. *)
Definition addOffset (written : Z) : Resp unit := fun w =>
  (tt, mkWorld (state w) (as_size_t (offset w + written)) (onAborted w)
               (onWritable w) (inStream w) (noMark w) (answers w) (trace w)).

Definition setOnAborted (h : option Handler) : Resp unit := fun w =>
  (tt, mkWorld (state w) (offset w) h (onWritable w) (inStream w)
               (noMark w) (answers w) (trace w)).

Definition setOnWritable (h : option Handler) : Resp unit := fun w =>
  (tt, mkWorld (state w) (offset w) (onAborted w) h (inStream w)
               (noMark w) (answers w) (trace w)).

Definition setInStream (h : option Handler) : Resp unit := fun w =>
  (tt, mkWorld (state w) (offset w) (onAborted w) (onWritable w) h
               (noMark w) (answers w) (trace w)).

Module Super.

(** [Super::write(buf, length, optional)]: logs the call and returns the
    socket's next answer. *)
Definition write (site : Site) (buf : string) (length : Z) (optional : bool)
  : Resp Answer := fun w =>
  let a := nextAnswer (answers w) in
  (a, mkWorld (state w) (offset w) (onAborted w) (onWritable w) (inStream w)
              (noMark w) (tl (answers w))
              (trace w ++ [Sent site buf length optional a])).

(** [Super::timeout(seconds)]. *)
Definition timeout (seconds : Z) : Resp unit := fun w =>
  (tt, mkWorld (state w) (offset w) (onAborted w) (onWritable w) (inStream w)
               (noMark w) (answers w) (trace w ++ [Armed seconds])).

End Super.

(* ===================================================================== *)
(** ** HttpResponse *)

Definition HTTP_200_OK : string := "200 OK".

Definition HTTP_TIMEOUT_S : Z := 10.

Section HttpResponse.

Context {F : HttpResponseDataFlags}.

Definition writeUnsignedHex (value : Z) : Resp unit :=
  let buf := utils.u32toaHex value in
  Super.write ChunkFraming buf (strlen buf) false ;; ret tt.

Definition writeUnsigned64 (value : Z) : Resp unit :=
  let buf := utils.u64toa value in
  Super.write HeaderLine buf (strlen buf) false ;; ret tt.

Definition markDone : Resp unit :=
  setOnAborted None ;;
  setOnWritable None ;;
  andNotState HTTP_RESPONSE_PENDING.

Definition writeStatus (status : string) : Resp unit :=
  called <- testState HTTP_STATUS_CALLED ;;
  if called then ret tt
  else
    orState HTTP_STATUS_CALLED ;;
    Super.write StatusLine "HTTP/1.1 " 9 false ;;
    Super.write StatusLine status (as_int (strlen status)) false ;;
    Super.write StatusLine CRLF 2 false ;;
    ret tt.

(** [writeHeader(std::string_view, std::string_view)]. *)
Definition writeHeader (key value : string) : Resp unit :=
  writeStatus HTTP_200_OK ;;
  Super.write HeaderLine key (as_int (strlen key)) false ;;
  Super.write HeaderLine ": " 2 false ;;
  Super.write HeaderLine value (as_int (strlen value)) false ;;
  Super.write HeaderLine CRLF 2 false ;;
  ret tt.

(** [writeHeader(std::string_view, uint64_t)]. *)
Definition writeHeaderU64 (key : string) (value : Z) : Resp unit :=
  Super.write HeaderLine key (as_int (strlen key)) false ;;
  Super.write HeaderLine ": " 2 false ;;
  writeUnsigned64 value ;;
  Super.write HeaderLine CRLF 2 false ;;
  ret tt.

(** [writeMark].  A build with UWS_HTTPRESPONSE_NO_WRITEMARK behaves as
    [noMark = true]. *)
Definition writeMark : Resp unit :=
  nm <- getNoMark ;;
  when (negb nm) (writeHeader "uWebSockets" "18").

Definition writeContinue : Resp unit :=
  Super.write Interim ("HTTP/1.1 100 Continue" ++ CRLF ++ CRLF) 25 false ;;
  ret tt.

(** The loop of [internalEnd], lines 152-160.  Each round takes one answer
    from the socket, and a socket without answers reports failure, so
    [S (length answers)] rounds are never used up (lemma
    [writeAll_exit]). *)
Fixpoint writeRounds (rounds : nat) (data : string) (optional : bool)
         (written : Z) (failed : bool) : Resp (Z * bool) :=
  if (written <? strlen data) && negb failed then
    match rounds with
    | O => ret (written, failed)
    | S rounds' =>
        writtenFailed <-
          Super.write Payload (advance data written)
            (as_int (Z.min (as_size_t (strlen data - written)) INT_MAX))
            optional ;;
        writeRounds rounds' data optional
          (as_size_t (written + fst writtenFailed)) (snd writtenFailed)
    end
  else ret (written, failed).

Definition writeAll (data : string) (optional : bool) : Resp (Z * bool) :=
  fun w => writeRounds (S (List.length (answers w))) data optional 0 false w.

(** [internalEnd], lines 106-127: the response is in chunked mode. *)
Definition endChunked (data : string) : Resp bool :=
  when (negb (strlen data =? 0))
    (Super.write ChunkFraming CRLF 2 false ;;
     writeUnsignedHex (as_unsigned (strlen data)) ;;
     Super.write ChunkFraming CRLF 2 false ;;
     Super.write Payload data (as_int (strlen data)) false ;;
     ret tt) ;;
  Super.write ChunkFraming (CRLF ++ "0" ++ CRLF ++ CRLF) 7 false ;;
  markDone ;;
  Super.timeout HTTP_TIMEOUT_S ;;
  ret true.

(** [internalEnd], lines 129-146: the header block is closed on the first
    call. *)
Definition endHeaders (totalSize : Z) (allowContentLength : bool) : Resp unit :=
  called <- testState HTTP_END_CALLED ;;
  when (negb called)
    (writeMark ;;
     (if allowContentLength then
        Super.write HeaderLine "Content-Length: " 16 false ;;
        writeUnsigned64 totalSize ;;
        Super.write HeaderLine (CRLF ++ CRLF) 4 false ;;
        ret tt
      else
        Super.write HeaderLine CRLF 2 false ;; ret tt) ;;
     orState HTTP_END_CALLED).

(** [internalEnd], lines 162-177: what follows the loop. *)
Definition endAccount (data : string) (totalSize : Z)
           (written : Z) (failed : bool) : Resp bool :=
  addOffset written ;;
  let success := (written =? strlen data) && negb failed in
  o <- getOffset ;;
  when (negb success || (o =? totalSize)) (Super.timeout HTTP_TIMEOUT_S) ;;
  o' <- getOffset ;;
  when (o' =? totalSize) markDone ;;
  ret success.

Definition endFixed (data : string) (totalSize : Z) (optional : bool)
           (allowContentLength : bool) : Resp bool :=
  endHeaders totalSize allowContentLength ;;
  writtenFailed <- writeAll data optional ;;
  endAccount data totalSize (fst writtenFailed) (snd writtenFailed).

(** The declared total [internalEnd] works with: the argument, or the
    length of this chunk when the argument is zero. *)
Definition declaredTotal (data : string) (totalSize : Z) : Z :=
  if totalSize =? 0 then strlen data else totalSize.

Definition internalEnd (data : string) (totalSize : Z) (optional : bool)
           (allowContentLength : bool) : Resp bool :=
  writeStatus HTTP_200_OK ;;
  let totalSize := declaredTotal data totalSize in
  chunked <- testState HTTP_WRITE_CALLED ;;
  if chunked then endChunked data
  else endFixed data totalSize optional allowContentLength.

(** [end(data)]; [end()] is [end_ ""]. *)
Definition end_ (data : string) : Resp unit :=
  internalEnd data (strlen data) false true ;; ret tt.

Definition hasResponded : Resp bool :=
  pending <- testState HTTP_RESPONSE_PENDING ;; ret (negb pending).

Definition tryEnd (data : string) (totalSize : Z) : Resp (bool * bool) :=
  ok <- internalEnd data totalSize true true ;;
  responded <- hasResponded ;;
  ret (ok, responded).

Definition write (data : string) : Resp bool :=
  writeStatus HTTP_200_OK ;;
  if strlen data =? 0 then ret true
  else
    called <- testState HTTP_WRITE_CALLED ;;
    when (negb called)
      (writeMark ;;
       writeHeader "Transfer-Encoding" "chunked" ;;
       orState HTTP_WRITE_CALLED) ;;
    Super.write ChunkFraming CRLF 2 false ;;
    writeUnsignedHex (as_unsigned (strlen data)) ;;
    Super.write ChunkFraming CRLF 2 false ;;
    writtenFailed <- Super.write Payload data (as_int (strlen data)) false ;;
    when (snd writtenFailed) (Super.timeout HTTP_TIMEOUT_S) ;;
    ret (negb (snd writtenFailed)).

Definition getWriteOffset : Resp Z := getOffset.

(** The public member functions a handler can call on a response.
    [cork] runs a caller-supplied closure and [upgrade] ends the life of
    the response; both are left out of call sequences. *)
Inductive Call : Type :=
| CallWriteContinue
| CallWriteStatus (status : string)
| CallWriteHeader (key value : string)
| CallWriteHeaderU64 (key : string) (value : Z)
| CallEnd (data : string)
| CallTryEnd (data : string) (totalSize : Z)
| CallWrite (data : string)
| CallGetWriteOffset
| CallHasResponded
| CallOnWritable (handler : Handler)
| CallOnAborted (handler : Handler)
| CallOnData (handler : Handler).

Definition call (c : Call) : Resp unit :=
  match c with
  | CallWriteContinue => writeContinue
  | CallWriteStatus status => writeStatus status
  | CallWriteHeader key value => writeHeader key value
  | CallWriteHeaderU64 key value => writeHeaderU64 key value
  | CallEnd data => end_ data
  | CallTryEnd data totalSize => tryEnd data totalSize ;; ret tt
  | CallWrite data => write data ;; ret tt
  | CallGetWriteOffset => getWriteOffset ;; ret tt
  | CallHasResponded => hasResponded ;; ret tt
  | CallOnWritable handler => setOnWritable (Some handler)
  | CallOnAborted handler => setOnAborted (Some handler)
  | CallOnData handler => setInStream (Some handler)
  end.

Fixpoint calls (cs : list Call) : Resp unit :=
  match cs with
  | [] => ret tt
  | c :: cs' => call c ;; calls cs'
  end.

(** The world after a computation. *)
Definition after {A : Type} (m : Resp A) (w : World) : World := snd (m w).

(** A response no member function has touched yet. *)
Definition fresh (w : World) : Prop :=
  flagSet (state w) HTTP_STATUS_CALLED = false
  /\ flagSet (state w) HTTP_WRITE_CALLED = false
  /\ flagSet (state w) HTTP_END_CALLED = false
  /\ offset w = 0
  /\ trace w = [].

(** A world some sequence of calls leads to. *)
Definition reachable (w : World) : Prop :=
  exists w0 cs, fresh w0 /\ w = after (calls cs) w0.

End HttpResponse.


(* ===================================================================== *)
(** ** upgrade: the handshake headers and the compression negotiation *)

(** [enum Options] of WebSocketExtensions.h, which is not part of the sources
    at hand: the three constants are parameters. *)
Class Options : Type := {
  PERMESSAGE_DEFLATE : Z;
  SERVER_NO_CONTEXT_TAKEOVER : Z;
  CLIENT_NO_CONTEXT_TAKEOVER : Z
}.

(** [enum CompressOptions], likewise: the constants HttpResponse.h names.
    The 3KB and 4KB tiers are not named in this file; they reach the default
    of the switch. *)
Class CompressOptions : Type := {
  DISABLED : Z;
  SHARED_COMPRESSOR : Z;
  DEDICATED_COMPRESSOR : Z;
  DEDICATED_COMPRESSOR_8KB : Z;
  DEDICATED_COMPRESSOR_16KB : Z;
  DEDICATED_COMPRESSOR_32KB : Z;
  DEDICATED_COMPRESSOR_64KB : Z;
  DEDICATED_COMPRESSOR_128KB : Z;
  DEDICATED_COMPRESSOR_256KB : Z
}.

(** [ExtensionsNegotiator<true>], a black box: constructed from the wanted
    options, it reads the client's offer, generates the counter-offer and
    reports the negotiated options. *)
Class ExtensionsNegotiator : Type := {
  negotiator : Type;
  construct : Z -> negotiator;
  readOffer : negotiator -> string -> negotiator;
  generateOffer : negotiator -> string * negotiator;
  getNegotiatedOptions : negotiator -> Z
}.

(** [WebSocketHandshake::generate], a black box from the key to the accept
    token. *)
Class WebSocketHandshake : Type := {
  generate : string -> string
}.

(** [std::to_string] of a non-negative [int]. *)
Definition to_string (n : Z) : string := utils.digits 10 10 n.

(** [s.substr(0, s.find(','))]: [s] up to its first comma, all of [s] when it
    has none. *)
Fixpoint upToComma (s : string) : string :=
  match s with
  | EmptyString => EmptyString
  | String c s' => if Ascii.eqb c "," then EmptyString else String c (upToComma s')
  end.

Section Upgrade.

Context {F : HttpResponseDataFlags} {O : Options} {C : CompressOptions}
        {N : ExtensionsNegotiator} {H : WebSocketHandshake}.

(** Lines 224-230. *)
Definition wantedOptions (compression : Z) : Z :=
  let wanted := Z.lor PERMESSAGE_DEFLATE CLIENT_NO_CONTEXT_TAKEOVER in
  if compression =? SHARED_COMPRESSOR
  then Z.lor wanted SERVER_NO_CONTEXT_TAKEOVER
  else wanted.

(** The switch of lines 244-261.  C++ requires the case labels to differ, so
    the order of the tests does not matter. *)
Definition maxServerWindowBits (compression : Z) : Z :=
  if compression =? DEDICATED_COMPRESSOR_8KB then 10
  else if compression =? DEDICATED_COMPRESSOR_16KB then 11
  else if compression =? DEDICATED_COMPRESSOR_32KB then 12
  else if compression =? DEDICATED_COMPRESSOR_64KB then 13
  else if compression =? DEDICATED_COMPRESSOR_128KB then 14
  else 9.

(** Lines 241-264: the value sent as Sec-WebSocket-Extensions. *)
Definition extensionsValue (compression : Z) (offer : string) : string :=
  if flagSet compression DEDICATED_COMPRESSOR
     && negb (compression =? DEDICATED_COMPRESSOR_256KB)
  then offer ++ "; server_max_window_bits="
             ++ to_string (maxServerWindowBits compression)
  else offer.

(** Lines 218-279; the result is [(perMessageDeflate, compressOptions)]. *)
Definition negotiateCompression (compression : Z)
           (secWebSocketExtensions : string) : Resp (bool * Z) :=
  let compressOptions := Z.land compression SHARED_COMPRESSOR in
  if negb (compression =? DISABLED) then
    if negb (strlen secWebSocketExtensions =? 0) then
      let extensionsNegotiator :=
        readOffer (construct (wantedOptions compression)) secWebSocketExtensions in
      let (offer, extensionsNegotiator) := generateOffer extensionsNegotiator in
      when (negb (strlen offer =? 0))
        (writeHeader "Sec-WebSocket-Extensions"
           (extensionsValue compression offer)) ;;
      let negotiated := getNegotiatedOptions extensionsNegotiator in
      ret (flagSet negotiated PERMESSAGE_DEFLATE,
           if negb (flagSet negotiated SERVER_NO_CONTEXT_TAKEOVER)
           then compression else compressOptions)
    else ret (false, compressOptions)
  else ret (false, compressOptions).

(** [upgrade] up to the call [webSocket->init(perMessageDeflate,
    compressOptions, backpressure)]: the result is the pair of its first two
    arguments.  [compression] is [webSocketContextData->compression].  The
    adoption of the socket by the WebSocket context, the idle timeout and the
    open handler act on the new socket, not on this response. *)
Definition upgrade (secWebSocketKey secWebSocketProtocol
                    secWebSocketExtensions : string) (compression : Z)
  : Resp (bool * Z) :=
  writeStatus "101 Switching Protocols" ;;
  writeHeader "Upgrade" "websocket" ;;
  writeHeader "Connection" "Upgrade" ;;
  writeHeader "Sec-WebSocket-Accept" (generate secWebSocketKey) ;;
  when (negb (strlen secWebSocketProtocol =? 0))
    (writeHeader "Sec-WebSocket-Protocol" (upToComma secWebSocketProtocol)) ;;
  init <- negotiateCompression compression secWebSocketExtensions ;;
  internalEnd "" 0 false false ;;
  ret init.

End Upgrade.

(* ===================================================================== *)
(** ** Reading the log *)

Definition isArmed (e : Event) : bool :=
  match e with Armed _ => true | Sent _ _ _ _ _ => false end.

(** How many times [Super::timeout] was called. *)
Definition timeouts (tr : list Event) : nat := List.length (filter isArmed tr).

Definition siteOf (e : Event) : option Site :=
  match e with Sent site _ _ _ _ => Some site | Armed _ => None end.

Definition isSite (s : Site) (e : Event) : bool :=
  match e, s with
  | Sent StatusLine _ _ _ _, StatusLine => true
  | Sent Interim _ _ _ _, Interim => true
  | Sent HeaderLine _ _ _ _, HeaderLine => true
  | Sent ChunkFraming _ _ _ _, ChunkFraming => true
  | Sent Payload _ _ _ _, Payload => true
  | _, _ => false
  end.

Definition isSent (e : Event) : bool := negb (isArmed e).

(** The bytes handed to the socket by one event. *)
Definition bytesOf (e : Event) : string :=
  match e with
  | Sent _ buf length _ _ => handed buf length
  | Armed _ => EmptyString
  end.

(** Everything handed to the socket, in order. *)
Fixpoint wire (tr : list Event) : string :=
  match tr with
  | [] => EmptyString
  | e :: tr' => bytesOf e ++ wire tr'
  end.

(** The [(buf, length)] arguments of the writes issued by [writeStatus]. *)
Fixpoint statusWrites (tr : list Event) : list (string * Z) :=
  match tr with
  | [] => []
  | Sent StatusLine buf length _ _ :: tr' => (buf, length) :: statusWrites tr'
  | _ :: tr' => statusWrites tr'
  end.

(** The three writes that make one status line. *)
Definition statusLine (status : string) : list (string * Z) :=
  [("HTTP/1.1 ", 9); (status, as_int (strlen status)); (CRLF, 2)].

(** A header, chunk framing or payload write: anything that belongs after
    the status line of the response. *)
Definition afterStatus (e : Event) : bool :=
  isSite HeaderLine e || isSite ChunkFraming e || isSite Payload e.

(** The byte count the socket reported for the caller's data. *)
Fixpoint bodyAccepted (tr : list Event) : Z :=
  match tr with
  | [] => 0
  | Sent Payload _ _ _ (written, _) :: tr' => written + bodyAccepted tr'
  | _ :: tr' => bodyAccepted tr'
  end.

(** The socket reported a count between zero and what it was handed. *)
Definition honest (e : Event) : Prop :=
  match e with
  | Sent _ _ length _ (written, _) => 0 <= written <= length
  | Armed _ => True
  end.

(** A response at the start of a request, for running the model: only
    RESPONSE_PENDING set, nothing written, the writemark enabled. *)
Definition start {F : HttpResponseDataFlags} (script : list Answer) : World :=
  mkWorld HTTP_RESPONSE_PENDING 0 (Some 1%nat) (Some 2%nat) None false script [].

(** [n] answers of a socket that takes everything it is handed in full
    ([len] bytes each time). *)
Definition accepting (len : Z) (n : nat) : list Answer := repeat (len, false) n.


(* ===================================================================== *)
(** ** Relating the world before and after a computation *)

(** [m] takes every world to one related to it by [R]. *)
Definition rel {A : Type} (R : World -> World -> Prop) (m : Resp A) : Prop :=
  forall w, R w (after m w).

(** The observation [f] is the same before and after. *)
Definition keeps {T : Type} (f : World -> T) : World -> World -> Prop :=
  fun w w' => f w' = f w.

(** The property [I] survives. *)
Definition holds (I : World -> Prop) : World -> World -> Prop :=
  fun w w' => I w -> I w'.

(** The log only grows, and by events that satisfy [P]. *)
Definition logs (P : Event -> bool) : World -> World -> Prop :=
  fun w w' => exists delta, trace w' = (trace w ++ delta)%list /\ forallb P delta = true.

(** The terminating chunk, as [internalEnd] writes it. *)
Definition terminatingChunk : string := CRLF ++ "0" ++ CRLF ++ CRLF.

(** The arguments [(site, buf, length)] of the writes in a log. *)
Fixpoint issued (tr : list Event) : list (Site * string * Z) :=
  match tr with
  | [] => []
  | Sent site buf length _ _ :: tr' => (site, buf, length) :: issued tr'
  | Armed _ :: tr' => issued tr'
  end.

(** What a computation adds to the log. *)
Definition added {A : Type} (m : Resp A) (w : World) : list Event :=
  skipn (List.length (trace w)) (trace (after m w)).

(** The callbacks are gone and RESPONSE_PENDING is clear: what [markDone]
    leaves behind. *)
Definition done {F : HttpResponseDataFlags} (w : World) : Prop :=
  onAborted w = None /\ onWritable w = None
  /\ flagSet (state w) HTTP_RESPONSE_PENDING = false.

(** A status or header write: what belongs to the head of the response. *)
Definition isHead (e : Event) : bool :=
  isSite StatusLine e || isSite HeaderLine e.

Definition anyEvent (e : Event) : bool := true.

(** The observations that only [write], the loop and the tail of
    [internalEnd] touch: a flag [g] apart from STATUS_CALLED and END_CALLED,
    the offset, the accepted body bytes, the timeouts. *)
Definition bodyView (g : Z) (w : World) : bool * Z * Z * nat :=
  (flagSet (state w) g, offset w, bodyAccepted (trace w), timeouts (trace w)).

(** What [writeStatus] looks at and what it writes. *)
Definition statusView {F : HttpResponseDataFlags} (w : World)
  : bool * list (string * Z) :=
  (flagSet (state w) HTTP_STATUS_CALLED, statusWrites (trace w)).

(** HTTP_STATUS_CALLED is set exactly when the status line is in the log,
    and the log holds at most one. *)
Definition statusInv {F : HttpResponseDataFlags} (w : World) : Prop :=
  (flagSet (state w) HTTP_STATUS_CALLED = false /\ statusWrites (trace w) = [])
  \/ (flagSet (state w) HTTP_STATUS_CALLED = true
      /\ exists status, statusWrites (trace w) = statusLine status).

Definition statusCalled {F : HttpResponseDataFlags} (w : World) : Prop :=
  flagSet (state w) HTTP_STATUS_CALLED = true.

(** Chunked mode is entered after the status line only. *)
Definition chunkedInv {F : HttpResponseDataFlags} (w : World) : Prop :=
  flagSet (state w) HTTP_WRITE_CALLED = true -> statusCalled w.

(** The status line in the log is [line], and HTTP_STATUS_CALLED is set. *)
Definition statusIs {F : HttpResponseDataFlags} (line : list (string * Z))
           (w : World) : Prop :=
  statusCalled w /\ statusWrites (trace w) = line.

(** The calls that begin with [writeStatus(HTTP_200_OK)]. *)
Definition defaultsStatus {F : HttpResponseDataFlags} (c : Call) : bool :=
  match c with
  | CallWriteHeader _ _ | CallEnd _ | CallTryEnd _ _ | CallWrite _ => true
  | _ => false
  end.

(** [end] and [tryEnd]. *)
Definition isEnding {F : HttpResponseDataFlags} (c : Call) : bool :=
  match c with
  | CallEnd _ | CallTryEnd _ _ => true
  | _ => false
  end.

(** The response is not in chunked mode and its offset is the count of body
    bytes the socket reported, modulo the width of [size_t]. *)
Definition offsetInv {F : HttpResponseDataFlags} (w : World) : Prop :=
  flagSet (state w) HTTP_WRITE_CALLED = false
  /\ offset w = as_size_t (bodyAccepted (trace w)).

(* ===================================================================== *)
(** ** Runs of the model *)

(** A socket that accepts each write in full: one answer per length. *)
Definition acceptsAll (lengths : list Z) : list Answer :=
  map (fun n => (n, false)) lengths.

(** [end("abc")] twice on a response at the start of a request.  The first
    call makes eleven writes (status line, writemark, Content-Length, body),
    the second one. *)
Definition endedTwice : World :=
  after (calls (F := bits1248) [CallEnd "abc"; CallEnd "abc"])
        (start (F := bits1248)
               (acceptsAll [9; 6; 2; 11; 2; 2; 2; 16; 1; 4; 3; 3])).

(** [write("x")] then [end()] on a response at the start of a request:
    sixteen writes. *)
Definition chunkedEnded : World :=
  after (calls (F := bits1248) [CallWrite "x"; CallEnd ""])
        (start (F := bits1248)
               (acceptsAll [9; 6; 2; 11; 2; 2; 2; 17; 2; 7; 2; 2; 1; 2; 1; 7; 7])).

(** [writeHeader("Content-Length", 5)], the [uint64_t] overload, as the
    first call on a response. *)
Definition headerFirst : World :=
  after (call (F := bits1248) (CallWriteHeaderU64 "Content-Length" 5))
        (start (F := bits1248) (acceptsAll [14; 2; 1; 2])).

(* ===================================================================== *)
(** ** What the development needs of the absent enumerations *)

Fixpoint distinctb (l : list Z) : bool :=
  match l with
  | [] => true
  | x :: l' => negb (existsb (Z.eqb x) l') && distinctb l'
  end.

(** The case labels of the switch and DEDICATED_COMPRESSOR_256KB differ from
    each other (C++ rejects equal case labels), every tier below 256KB has a
    bit of DEDICATED_COMPRESSOR, and SHARED_COMPRESSOR has none. *)
Definition tiersWellFormedb (C : CompressOptions) : bool :=
  distinctb [DEDICATED_COMPRESSOR_8KB; DEDICATED_COMPRESSOR_16KB;
             DEDICATED_COMPRESSOR_32KB; DEDICATED_COMPRESSOR_64KB;
             DEDICATED_COMPRESSOR_128KB; DEDICATED_COMPRESSOR_256KB]
  && forallb (fun tier => flagSet tier DEDICATED_COMPRESSOR)
             [DEDICATED_COMPRESSOR_8KB; DEDICATED_COMPRESSOR_16KB;
              DEDICATED_COMPRESSOR_32KB; DEDICATED_COMPRESSOR_64KB;
              DEDICATED_COMPRESSOR_128KB]
  && negb (flagSet SHARED_COMPRESSOR DEDICATED_COMPRESSOR).

Definition tiersWellFormed (C : CompressOptions) : Prop :=
  tiersWellFormedb C = true.

(** The tiers HttpResponse.h names in its switch. *)
Definition namedTier {C : CompressOptions} (compression : Z) : bool :=
  existsb (Z.eqb compression)
          [DEDICATED_COMPRESSOR_8KB; DEDICATED_COMPRESSOR_16KB;
           DEDICATED_COMPRESSOR_32KB; DEDICATED_COMPRESSOR_64KB;
           DEDICATED_COMPRESSOR_128KB].

(** An encoding to run the model with: a tier carries its window bits, its
    memory level and the dedicated bit. *)
Definition tierOf (windowBits memLevel : Z) : Z :=
  Z.lor (Z.lor (Z.shiftl windowBits 8) (Z.shiftl memLevel 4)) 2.

Definition sampleCompressOptions : CompressOptions := {|
  DISABLED := 0;
  SHARED_COMPRESSOR := 1;
  DEDICATED_COMPRESSOR := tierOf 15 8;
  DEDICATED_COMPRESSOR_8KB := tierOf 10 3;
  DEDICATED_COMPRESSOR_16KB := tierOf 11 4;
  DEDICATED_COMPRESSOR_32KB := tierOf 12 5;
  DEDICATED_COMPRESSOR_64KB := tierOf 13 6;
  DEDICATED_COMPRESSOR_128KB := tierOf 14 7;
  DEDICATED_COMPRESSOR_256KB := tierOf 15 8
|}.

Definition sampleOptions : Options := {|
  PERMESSAGE_DEFLATE := 1;
  SERVER_NO_CONTEXT_TAKEOVER := 2;
  CLIENT_NO_CONTEXT_TAKEOVER := 4
|}.

(** A negotiator to run the model with: it grants what is wanted and answers
    every offer with the bare extension name. *)
Definition grantingNegotiator : ExtensionsNegotiator := {|
  negotiator := Z;
  construct := fun wanted => wanted;
  readOffer := fun n _ => n;
  generateOffer := fun n => ("permessage-deflate", n);
  getNegotiatedOptions := fun n => n
|}.

(** A handshake to run the model with: the accept token of the fixture key,
    whatever the key. *)
Definition fixtureHandshake : WebSocketHandshake := {|
  generate := fun _ => "s3pPLMBiTxaQ9kYGzzhZRbK+xOo="
|}.

(** [write("x")] on a response at the start of a request: the response is
    now in chunked mode. *)
Definition chunkedOpen : World :=
  after (calls (F := bits1248) [CallWrite "x"])
        (start (F := bits1248)
               (acceptsAll [9; 6; 2; 11; 2; 2; 2; 17; 2; 7; 2; 2; 1; 2; 1])).

(** A response at the start of a request whose socket takes eleven writes in
    full: enough for the head of a response and three body bytes. *)
Definition opened : World :=
  start (F := bits1248) (acceptsAll [9; 6; 2; 11; 2; 2; 2; 16; 1; 4; 3]).

(** [honest], decided. *)
Definition honestb (e : Event) : bool :=
  match e with
  | Sent _ _ length _ (written, _) => (0 <=? written) && (written <=? length)
  | Armed _ => true
  end.

(** The first write of the response proper (interim responses aside) is a
    status write. *)
Fixpoint statusFirst (tr : list Event) : bool :=
  match tr with
  | [] => true
  | e :: tr' =>
      if isSite StatusLine e then true
      else if afterStatus e then false
      else statusFirst tr'
  end.

(** Neither a status write nor a header, framing or payload write. *)
Definition headless (e : Event) : bool :=
  negb (isSite StatusLine e) && negb (afterStatus e).

(** The status line has been written, and it came first. *)
Definition statusLed {F : HttpResponseDataFlags} (w : World) : Prop :=
  statusCalled w
  /\ statusFirst (trace w) = true
  /\ existsb (isSite StatusLine) (trace w) = true.

Definition statusFirstInv {F : HttpResponseDataFlags} (w : World) : Prop :=
  (flagSet (state w) HTTP_STATUS_CALLED = false
   /\ forallb headless (trace w) = true)
  \/ statusLed w.

Definition isHeaderU64 {F : HttpResponseDataFlags} (c : Call) : bool :=
  match c with
  | CallWriteHeaderU64 _ _ => true
  | _ => false
  end.

(* ===================================================================== *)
(** ** Observing a response from outside *)

(** No call takes a flag of progress back: STATUS_CALLED, WRITE_CALLED and
    END_CALLED stay set, RESPONSE_PENDING stays clear. *)
Definition progress {F : HttpResponseDataFlags} (w w' : World) : Prop :=
  (flagSet (state w) HTTP_STATUS_CALLED = true ->
   flagSet (state w') HTTP_STATUS_CALLED = true)
  /\ (flagSet (state w) HTTP_WRITE_CALLED = true ->
      flagSet (state w') HTTP_WRITE_CALLED = true)
  /\ (flagSet (state w) HTTP_END_CALLED = true ->
      flagSet (state w') HTTP_END_CALLED = true)
  /\ (flagSet (state w) HTTP_RESPONSE_PENDING = false ->
      flagSet (state w') HTTP_RESPONSE_PENDING = false).

(** Between [w] and [w'] the bytes [bytes] were handed to the socket, no
    timeout was armed, and the offset, the callbacks and [noMark] are as
    they were. *)
Definition emits (bytes : string) (w w' : World) : Prop :=
  wire (trace w') = (wire (trace w) ++ bytes)%string
  /\ timeouts (trace w') = timeouts (trace w)
  /\ offset w' = offset w
  /\ onAborted w' = onAborted w
  /\ onWritable w' = onWritable w
  /\ noMark w' = noMark w.

(** The status line [writeStatus(HTTP_200_OK)] writes on a response that has
    none yet. *)
Definition defaultStatus {F : HttpResponseDataFlags} (w : World) : string :=
  if flagSet (state w) HTTP_STATUS_CALLED then ""
  else "HTTP/1.1 200 OK" ++ CRLF.

(** The header [writeMark] writes. *)
Definition markLine (w : World) : string :=
  if noMark w then "" else "uWebSockets: 18" ++ CRLF.

(** One header line. *)
Definition headerLine (key value : string) : string :=
  key ++ ": " ++ value ++ CRLF.

(** [state] after [writeStatus]. *)
Definition statusSet {F : HttpResponseDataFlags} (s : Z) : Z :=
  if flagSet s HTTP_STATUS_CALLED then s else Z.lor s HTTP_STATUS_CALLED.

(** The bytes [writeStatus(status)] writes: the status line on a response
    that has none yet, nothing otherwise. *)
Definition statusBytes {F : HttpResponseDataFlags} (status : string)
           (w : World) : string :=
  if flagSet (state w) HTTP_STATUS_CALLED then ""
  else "HTTP/1.1 " ++ status ++ CRLF.

Fixpoint headerLines (headers : list (string * string)) : string :=
  match headers with
  | [] => ""
  | (key, value) :: headers' => headerLine key value ++ headerLines headers'
  end.

(** One [writeHeader] call per header, in order. *)
Definition headerCalls {F : HttpResponseDataFlags}
           (headers : list (string * string)) : list Call :=
  map (fun kv => CallWriteHeader (fst kv) (snd kv)) headers.

(** Both strings of a header fit the [int] length of [Super::write]. *)
Definition headerFits (kv : string * string) : Prop :=
  strlen (fst kv) <= INT_MAX /\ strlen (snd kv) <= INT_MAX.

Section WriteParts.

Context {F : HttpResponseDataFlags}.

(** [write], lines 402-410: the switch to chunked mode on the first call. *)
Definition enterChunked : Resp unit :=
  called <- testState HTTP_WRITE_CALLED ;;
  when (negb called)
    (writeMark ;;
     writeHeader "Transfer-Encoding" "chunked" ;;
     orState HTTP_WRITE_CALLED).

(** [write], lines 412-422: one chunk. *)
Definition writeChunk (data : string) : Resp bool :=
  Super.write ChunkFraming CRLF 2 false ;;
  writeUnsignedHex (as_unsigned (strlen data)) ;;
  Super.write ChunkFraming CRLF 2 false ;;
  writtenFailed <- Super.write Payload data (as_int (strlen data)) false ;;
  when (snd writtenFailed) (Super.timeout HTTP_TIMEOUT_S) ;;
  ret (negb (snd writtenFailed)).

End WriteParts.

(** The head [write] puts before its first chunk. *)
Definition chunkedHead {F : HttpResponseDataFlags} (w : World) : string :=
  if flagSet (state w) HTTP_WRITE_CALLED then ""
  else markLine w ++ headerLine "Transfer-Encoding" "chunked".

(** One chunk as [write] and [internalEnd] frame it: the line end that
    closes what came before, the size line, the data. *)
Definition chunkBytes (data : string) : string :=
  CRLF ++ utils.u32toaHex (strlen data) ++ CRLF ++ data.

(** A payload write of the loop of [internalEnd] that stays inside [data]:
    it starts [k] characters in, and its length is between 1 and INT_MAX and
    no more than what is left. *)
Definition chunkOf (data : string) (optional : bool) (e : Event) : Prop :=
  match e with
  | Sent Payload buf len opt _ =>
      opt = optional
      /\ exists k, 0 <= k /\ buf = advance data k
                   /\ 1 <= len <= INT_MAX /\ k + len <= strlen data
  | _ => False
  end.

(** The caller's data the socket took in one write: the first [written]
    characters of what it was handed. *)
Definition acceptedOf (e : Event) : string :=
  match e with
  | Sent Payload buf _ _ (written, _) => substring 0 (Z.to_nat written) buf
  | _ => ""
  end.

(** All of the caller's data the socket took, in order. *)
Fixpoint bodySent (tr : list Event) : string :=
  match tr with
  | [] => ""
  | e :: tr' => acceptedOf e ++ bodySent tr'
  end.

(** The caller's side of [tryEnd]: each round resumes the body at
    [getWriteOffset()] and declares the length of the whole body. *)
Fixpoint stream {F : HttpResponseDataFlags} (rounds : nat) (body : string)
  : Resp unit :=
  match rounds with
  | O => ret tt
  | S rounds' =>
      o <- getWriteOffset ;;
      tryEnd (advance body o) (strlen body) ;;
      stream rounds' body
  end.

(** The response is on the fixed-length path and the socket has taken the
    first [offset] characters of [body], no more and no less. *)
Definition streamed {F : HttpResponseDataFlags} (body : string) (w : World)
  : Prop :=
  flagSet (state w) HTTP_WRITE_CALLED = false
  /\ 0 <= offset w <= strlen body
  /\ bodySent (trace w) = substring 0 (Z.to_nat (offset w)) body.

(** What closes the header block: the Content-Length header and the blank
    line, or the blank line alone. *)
Definition contentLengthPart (allowContentLength : bool) (totalSize : Z)
  : string :=
  if allowContentLength
  then "Content-Length: " ++ utils.u64toa totalSize ++ CRLF ++ CRLF
  else CRLF.

(** The bytes [internalEnd] writes before the body on the fixed-length path:
    on the first call the writemark and the end of the header block, nothing
    on later calls. *)
Definition endHead {F : HttpResponseDataFlags} (allowContentLength : bool)
           (totalSize : Z) (w : World) : string :=
  if flagSet (state w) HTTP_END_CALLED then ""
  else markLine w ++ contentLengthPart allowContentLength totalSize.

(** The Sec-WebSocket-Protocol line of [upgrade]. *)
Definition protocolLine (secWebSocketProtocol : string) : string :=
  if strlen secWebSocketProtocol =? 0 then ""
  else headerLine "Sec-WebSocket-Protocol" (upToComma secWebSocketProtocol).

(** The counter-offer [upgrade] would send, if the negotiation takes place. *)
Definition counterOffer {O : Options} {C : CompressOptions}
           {N : ExtensionsNegotiator} (compression : Z)
           (secWebSocketExtensions : string) : string :=
  extensionsValue compression
    (fst (generateOffer (readOffer (construct (wantedOptions compression))
                                   secWebSocketExtensions))).

(** The Sec-WebSocket-Extensions line of [upgrade]. *)
Definition extensionsLine {O : Options} {C : CompressOptions}
           {N : ExtensionsNegotiator} (compression : Z)
           (secWebSocketExtensions : string) : string :=
  if (compression =? DISABLED) || (strlen secWebSocketExtensions =? 0) then ""
  else if strlen (fst (generateOffer
                         (readOffer (construct (wantedOptions compression))
                                    secWebSocketExtensions))) =? 0 then ""
  else headerLine "Sec-WebSocket-Extensions"
                  (counterOffer compression secWebSocketExtensions).

(* ===================================================================== *)
(** ** Reading a chunked body back

    A reader of the chunked transfer coding, independent of the writer: a
    size line in hexadecimal, a line end, that many bytes, a line end, and
    so on up to the chunk of size zero, which an empty line follows. *)

Definition hexValue (c : ascii) : option Z :=
  let n := Z.of_nat (nat_of_ascii c) in
  if (48 <=? n) && (n <=? 57) then Some (n - 48)
  else if (97 <=? n) && (n <=? 102) then Some (n - 87)
  else if (65 <=? n) && (n <=? 70) then Some (n - 55)
  else None.

Fixpoint parseHex (acc : Z) (s : string) : option Z :=
  match s with
  | EmptyString => Some acc
  | String c s' =>
      match hexValue c with
      | Some d => parseHex (16 * acc + d) s'
      | None => None
      end
  end.

Definition readHex (s : string) : option Z :=
  match s with
  | EmptyString => None
  | String _ _ => parseHex 0 s
  end.

(** [s] up to its first line end, and what follows that line end. *)
Fixpoint splitLine (s : string) : option (string * string) :=
  match s with
  | EmptyString => None
  | String c s' =>
      match s' with
      | EmptyString => None
      | String c' s'' =>
          if Ascii.eqb c "013" && Ascii.eqb c' "010" then Some (EmptyString, s'')
          else match splitLine s' with
               | Some (line, rest) => Some (String c line, rest)
               | None => None
               end
      end
  end.

(** [s] without the line end it starts with. *)
Definition stripLineEnd (s : string) : option string :=
  match s with
  | String c (String c' s') =>
      if Ascii.eqb c "013" && Ascii.eqb c' "010" then Some s' else None
  | _ => None
  end.

Fixpoint decodeChunks (fuel : nat) (s : string) : option (list string) :=
  match fuel with
  | O => None
  | S fuel' =>
      match splitLine s with
      | None => None
      | Some (sizeLine, rest) =>
          match readHex sizeLine with
          | None => None
          | Some n =>
              if n =? 0 then
                if String.eqb rest CRLF then Some [] else None
              else if strlen rest <? n then None
              else
                match stripLineEnd (skipn_string (Z.to_nat n) rest) with
                | None => None
                | Some rest' =>
                    match decodeChunks fuel' rest' with
                    | Some chunks =>
                        Some (substring 0 (Z.to_nat n) rest :: chunks)
                    | None => None
                    end
                end
          end
      end
  end.

(** Every chunk takes at least one character, so the length of the input is
    fuel enough. *)
Definition decodeChunked (s : string) : option (list string) :=
  decodeChunks (S (String.length s)) s.

(** The chunked coding of a list of chunks, none of them empty. *)
Fixpoint chunkedBody (chunks : list string) : string :=
  match chunks with
  | [] => "0" ++ CRLF ++ CRLF
  | d :: chunks' =>
      utils.u32toaHex (strlen d) ++ CRLF ++ d ++ CRLF ++ chunkedBody chunks'
  end.

Definition nonEmpty (d : string) : bool := negb (strlen d =? 0).

(** The data that make a chunk each: [write] and [internalEnd] skip the
    empty ones. *)
Definition payloads (ds : list string) : list string := filter nonEmpty ds.

(** What [write] hands the socket for each of [ds] in chunked mode. *)
Fixpoint chunkStream (ds : list string) : string :=
  match ds with
  | [] => ""
  | d :: ds' => (if nonEmpty d then chunkBytes d else "") ++ chunkStream ds'
  end.

Definition noCR (s : string) : bool :=
  forallb (fun c => negb (Ascii.eqb c "013")) (list_ascii_of_string s).

(* ===================================================================== *)
(** ** The handlers a response holds *)

(** The handler in place after a call, as long as nothing removes it. *)
Definition abortedHandler (cur : option Handler) (c : Call) : option Handler :=
  match c with
  | CallOnAborted handler => Some handler
  | _ => cur
  end.

Definition writableHandler (cur : option Handler) (c : Call) : option Handler :=
  match c with
  | CallOnWritable handler => Some handler
  | _ => cur
  end.

Definition dataHandler (cur : option Handler) (c : Call) : option Handler :=
  match c with
  | CallOnData handler => Some handler
  | _ => cur
  end.

Definition registers (c : Call) : bool :=
  match c with
  | CallOnAborted _ | CallOnWritable _ | CallOnData _ => true
  | _ => false
  end.

(** A response that is pending at [w'] was pending at [w], and holds the
    handlers it held. *)
Definition pendingKeeps {F : HttpResponseDataFlags} (w w' : World) : Prop :=
  flagSet (state w') HTTP_RESPONSE_PENDING = true ->
  flagSet (state w) HTTP_RESPONSE_PENDING = true
  /\ onAborted w' = onAborted w /\ onWritable w' = onWritable w.

(** The socket took all it was handed, and reported no failure. *)
Definition tookAll (e : Event) : Prop :=
  match e with
  | Sent _ _ length _ (written, failed) => written = length /\ failed = false
  | Armed _ => True
  end.

Definition tookAllb (e : Event) : bool :=
  match e with
  | Sent _ _ length _ (written, failed) => (written =? length) && negb failed
  | Armed _ => true
  end.

(** A response at the start of a request whose socket takes the head of a
    response in full and then three body bytes in two parts: one byte, then
    two. *)
Definition trickling : World :=
  start (F := bits1248) (acceptsAll [9; 6; 2; 11; 2; 2; 2; 16; 1; 4; 1; 2]).

(** [tryEnd("a", 3)] on it: one body byte of three is out. *)
Definition partlySent : World :=
  after (tryEnd (F := bits1248) "a" 3) trickling.

(* ===================================================================== *)
(** ** A payload of 4 GiB *)

(** [2 ^ n] copies of [s]. *)
Fixpoint doubled (n : nat) (s : string) : string :=
  match n with
  | O => s
  | S n' => doubled n' (s ++ s)
  end.

(** A payload of [2 ^ 32] characters: the shortest one whose length the
    [unsigned int] cast of [write] turns into zero. *)
Definition fourGiB : string := doubled 32 "a".

(* ===================================================================== *)
(** * Lemmas *)

#[local] Open Scope list_scope.

(** ** Flags *)

Lemma flagSet_true_iff (s f : Z) : flagSet s f = true <-> Z.land s f <> 0.
Proof.
  unfold flagSet. rewrite negb_true_iff, Z.eqb_neq. reflexivity.
Qed.

Lemma flagSet_false_iff (s f : Z) : flagSet s f = false <-> Z.land s f = 0.
Proof.
  unfold flagSet. rewrite negb_false_iff, Z.eqb_eq. reflexivity.
Qed.

(** [state |= f] sets [f]. *)
Lemma flagSet_lor_same (s f : Z) : f <> 0 -> flagSet (Z.lor s f) f = true.
Proof.
  intros Hf. apply flagSet_true_iff.
  rewrite Z.land_comm, Z.lor_comm, Z.land_lor_distr_r, Z.land_diag.
  intros E. apply Z.lor_eq_0_iff in E. tauto.
Qed.

(** [state |= f] leaves a flag that shares no bit with [f] as it was. *)
Lemma flagSet_lor_other (s f g : Z) :
  Z.land f g = 0 -> flagSet (Z.lor s f) g = flagSet s g.
Proof.
  intros Hfg. unfold flagSet.
  rewrite Z.land_lor_distr_l, Hfg, Z.lor_0_r. reflexivity.
Qed.

(** [state |= f] clears nothing. *)
Lemma flagSet_lor_mono (s f g : Z) :
  flagSet s g = true -> flagSet (Z.lor s f) g = true.
Proof.
  rewrite !flagSet_true_iff, Z.land_lor_distr_l. intros Hs E.
  apply Z.lor_eq_0_iff in E. tauto.
Qed.

(** [state &= ~f] clears [f]. *)
Lemma flagSet_clear_same (s f : Z) : flagSet (Z.land s (Z.lnot f)) f = false.
Proof.
  apply flagSet_false_iff.
  rewrite <- Z.land_assoc, (Z.land_comm (Z.lnot f)), Z.land_lnot_diag.
  apply Z.land_0_r.
Qed.

(** [state &= ~f] leaves a flag that shares no bit with [f] as it was. *)
Lemma flagSet_clear_other (s f g : Z) :
  Z.land f g = 0 -> flagSet (Z.land s (Z.lnot f)) g = flagSet s g.
Proof.
  intros Hfg. unfold flagSet. f_equal. f_equal.
  rewrite <- Z.land_assoc. f_equal.
  apply Z.bits_inj'. intros n Hn.
  rewrite Z.land_spec, Z.lnot_spec by assumption.
  assert (Hb : Z.testbit (Z.land f g) n = false) by (rewrite Hfg; apply Z.bits_0).
  rewrite Z.land_spec in Hb.
  destruct (Z.testbit f n), (Z.testbit g n); simpl in *; congruence.
Qed.

Section Independent.

Context {F : HttpResponseDataFlags}.
Hypothesis HF : independent F.

Lemma independent_facts :
  (HTTP_STATUS_CALLED <> 0 /\ HTTP_WRITE_CALLED <> 0
   /\ HTTP_END_CALLED <> 0 /\ HTTP_RESPONSE_PENDING <> 0)
  /\ (Z.land HTTP_STATUS_CALLED HTTP_WRITE_CALLED = 0
      /\ Z.land HTTP_STATUS_CALLED HTTP_END_CALLED = 0
      /\ Z.land HTTP_STATUS_CALLED HTTP_RESPONSE_PENDING = 0)
  /\ (Z.land HTTP_WRITE_CALLED HTTP_END_CALLED = 0
      /\ Z.land HTTP_WRITE_CALLED HTTP_RESPONSE_PENDING = 0
      /\ Z.land HTTP_END_CALLED HTTP_RESPONSE_PENDING = 0).
Proof.
  unfold independent, independentb in HF.
  repeat (apply andb_true_iff in HF; destruct HF as [HF ?]).
  repeat match goal with
         | H : negb (_ =? _) = true |- _ =>
             apply negb_true_iff, Z.eqb_neq in H
         | H : (_ =? _) = true |- _ => apply Z.eqb_eq in H
         end.
  tauto.
Qed.

End Independent.

(** ** The state-passing combinators *)

Lemma after_bind {A B : Type} (m : Resp A) (k : A -> Resp B) (w : World) :
  after (bind m k) w = after (k (fst (m w))) (after m w).
Proof.
  unfold after, bind. destruct (m w) as [a w']. reflexivity.
Qed.

Lemma after_bind_bind {A B C : Type} (m : Resp A) (k : A -> Resp B)
      (k' : B -> Resp C) (w : World) :
  after (bind (bind m k) k') w = after (bind (k (fst (m w))) k') (after m w).
Proof.
  unfold after, bind. destruct (m w) as [a w']. reflexivity.
Qed.

Lemma after_bind_bind_bind {A B C D : Type} (m : Resp A) (k : A -> Resp B)
      (k' : B -> Resp C) (k'' : C -> Resp D) (w : World) :
  after (bind (bind (bind m k) k') k'') w
  = after (bind (bind (k (fst (m w))) k') k'') (after m w).
Proof.
  unfold after, bind. destruct (m w) as [a w']. reflexivity.
Qed.

Lemma fst_bind {A B : Type} (m : Resp A) (k : A -> Resp B) (w : World) :
  fst (bind m k w) = fst (k (fst (m w)) (after m w)).
Proof.
  unfold after, bind. destruct (m w) as [a w']. reflexivity.
Qed.

Lemma run_bind {A B : Type} (m : Resp A) (k : A -> Resp B) (w : World) :
  bind m k w = k (fst (m w)) (after m w).
Proof.
  unfold after, bind. destruct (m w) as [a w']. reflexivity.
Qed.

#[local] Instance keeps_PreOrder {T : Type} (f : World -> T) :
  RelationClasses.PreOrder (keeps f).
Proof.
  split.
  - intros w. reflexivity.
  - intros w1 w2 w3 H12 H23. unfold keeps in *. congruence.
Qed.

#[local] Instance holds_PreOrder (I : World -> Prop) :
  RelationClasses.PreOrder (holds I).
Proof.
  split.
  - intros w Hw. exact Hw.
  - intros w1 w2 w3 H12 H23 Hw. apply H23, H12, Hw.
Qed.

#[local] Instance logs_PreOrder (P : Event -> bool) :
  RelationClasses.PreOrder (logs P).
Proof.
  split.
  - intros w. exists []. split; [symmetry; apply app_nil_r | reflexivity].
  - intros w1 w2 w3 [d1 [E1 P1]] [d2 [E2 P2]]. exists (d1 ++ d2). split.
    + rewrite E2, E1. symmetry. apply app_assoc.
    + rewrite forallb_app, P1, P2. reflexivity.
Qed.

Section Rel.

Context (R : World -> World -> Prop) {PR : RelationClasses.PreOrder R}.

Lemma rel_ret {A : Type} (a : A) : rel R (ret a).
Proof. intros w. unfold after, ret. simpl. reflexivity. Qed.

Lemma rel_bind {A B : Type} (m : Resp A) (k : A -> Resp B) :
  rel R m -> (forall a, rel R (k a)) -> rel R (bind m k).
Proof.
  intros Hm Hk w. rewrite after_bind.
  transitivity (after m w); [apply Hm | apply Hk].
Qed.

Lemma rel_when (b : bool) (m : Resp unit) : rel R m -> rel R (when b m).
Proof.
  intros Hm. destruct b; simpl; [exact Hm | apply rel_ret].
Qed.

Lemma rel_testState (flag : Z) : rel R (testState flag).
Proof. intros w. unfold after, testState. simpl. reflexivity. Qed.

Lemma rel_getOffset : rel R getOffset.
Proof. intros w. unfold after, getOffset. simpl. reflexivity. Qed.

Lemma rel_getNoMark : rel R getNoMark.
Proof. intros w. unfold after, getNoMark. simpl. reflexivity. Qed.

End Rel.

(** Runs a computation on a symbolic world. *)
Ltac run_world :=
  cbv beta delta [after end_ tryEnd write internalEnd endFixed endChunked
                  endHeaders endAccount writeMark writeHeader writeHeaderU64
                  writeStatus writeContinue writeUnsigned64 writeUnsignedHex
                  markDone hasResponded getWriteOffset declaredTotal
                  bind ret when testState orState andNotState addOffset
                  getOffset getNoMark setOnAborted setOnWritable setInStream
                  Super.write Super.timeout];
  cbn [fst snd state offset onAborted onWritable inStream noMark answers trace].

Section Members.

Context {F : HttpResponseDataFlags}.

(** ** writeStatus *)

Lemma writeStatus_called (status : string) (w : World) :
  flagSet (state w) HTTP_STATUS_CALLED = true ->
  writeStatus status w = (tt, w).
Proof.
  intros Hc. unfold writeStatus. rewrite run_bind.
  unfold testState at 1. cbn [fst]. rewrite Hc. reflexivity.
Qed.

Lemma writeStatus_keeps_set (status : string) (flag : Z) :
  rel (holds (fun w => flagSet (state w) flag = true)) (writeStatus status).
Proof.
  intros w Hw. run_world.
  destruct (flagSet (state w) HTTP_STATUS_CALLED); cbn; [exact Hw|].
  apply flagSet_lor_mono, Hw.
Qed.

(** ** internalEnd takes the chunked path exactly when HTTP_WRITE_CALLED is
    set *)

Lemma internalEnd_chunked (data : string) (totalSize : Z)
      (optional allowContentLength : bool) (w : World) :
  flagSet (state w) HTTP_WRITE_CALLED = true ->
  internalEnd data totalSize optional allowContentLength w
  = endChunked data (after (writeStatus HTTP_200_OK) w).
Proof.
  intros Hc. unfold internalEnd. rewrite run_bind. cbv zeta.
  rewrite run_bind. unfold testState at 1. cbn [fst].
  rewrite (writeStatus_keeps_set HTTP_200_OK HTTP_WRITE_CALLED w Hc).
  reflexivity.
Qed.

Lemma endChunked_returns (data : string) (w : World) :
  fst (endChunked data w) = true.
Proof.
  unfold endChunked. rewrite !fst_bind. reflexivity.
Qed.

Lemma endChunked_done (data : string) (w : World) :
  done (after (endChunked data) w).
Proof.
  unfold done. run_world.
  destruct (negb (strlen data =? 0)); cbn; repeat split;
    apply flagSet_clear_same.
Qed.

Lemma internalEnd_cases (data : string) (totalSize : Z)
      (optional allowContentLength : bool) (w : World) :
  internalEnd data totalSize optional allowContentLength w
  = let w1 := after (writeStatus HTTP_200_OK) w in
    if flagSet (state w1) HTTP_WRITE_CALLED then endChunked data w1
    else endFixed data (declaredTotal data totalSize) optional
                  allowContentLength w1.
Proof.
  unfold internalEnd. rewrite run_bind. cbv zeta.
  rewrite run_bind. unfold after at 2, testState. cbn [fst snd].
  destruct (flagSet _ _); reflexivity.
Qed.

(** ** The tail of the fixed-length path *)

Lemma endAccount_world (data : string) (totalSize written : Z) (failed : bool)
      (w : World) :
  let o := as_size_t (offset w + written) in
  let success := (written =? strlen data) && negb failed in
  endAccount data totalSize written failed w
  = (success,
     mkWorld (if o =? totalSize
              then Z.land (state w) (Z.lnot HTTP_RESPONSE_PENDING)
              else state w)
             o
             (if o =? totalSize then None else onAborted w)
             (if o =? totalSize then None else onWritable w)
             (inStream w) (noMark w) (answers w)
             (trace w ++ (if negb success || (o =? totalSize)
                          then [Armed HTTP_TIMEOUT_S] else []))).
Proof.
  cbv zeta. run_world.
  destruct ((written =? strlen data) && negb failed);
    destruct (as_size_t (offset w + written) =? totalSize) eqn:E;
    cbn; rewrite ?E; cbn; rewrite ?E; cbn; rewrite ?app_nil_r; reflexivity.
Qed.

Lemma endFixed_run (data : string) (totalSize : Z)
      (optional allowContentLength : bool) (w : World) :
  endFixed data totalSize optional allowContentLength w
  = let w1 := after (endHeaders totalSize allowContentLength) w in
    let r := writeAll data optional w1 in
    endAccount data totalSize (fst (fst r)) (snd (fst r)) (snd r).
Proof.
  unfold endFixed. rewrite run_bind, run_bind. reflexivity.
Qed.

Lemma endFixed_done (data : string) (totalSize : Z)
      (optional allowContentLength : bool) (w : World) :
  offset (after (endFixed data totalSize optional allowContentLength) w)
  = totalSize ->
  done (after (endFixed data totalSize optional allowContentLength) w).
Proof.
  unfold after at 1 2. rewrite endFixed_run. cbv zeta.
  rewrite endAccount_world. cbv zeta. cbn [snd offset].
  intros E. apply Z.eqb_eq in E. unfold done. cbn [onAborted onWritable state].
  rewrite E. repeat split. apply flagSet_clear_same.
Qed.

(** The log of the chunked path: the last chunk if there is data, then the
    terminating chunk, then the timeout. *)
Lemma endChunked_trace (data : string) (w : World) :
  exists delta a,
    trace (after (endChunked data) w)
    = trace w ++ delta
      ++ [Sent ChunkFraming terminatingChunk 7 false a; Armed HTTP_TIMEOUT_S]
    /\ issued delta
       = if strlen data =? 0 then []
         else [(ChunkFraming, CRLF, 2);
               (ChunkFraming, utils.u32toaHex (as_unsigned (strlen data)),
                strlen (utils.u32toaHex (as_unsigned (strlen data))));
               (ChunkFraming, CRLF, 2);
               (Payload, data, as_int (strlen data))].
Proof.
  run_world. destruct (strlen data =? 0); cbn.
  - exists []. eexists. split; [rewrite <- !app_assoc; reflexivity|].
    reflexivity.
  - eexists [_; _; _; _]. eexists.
    split; [rewrite <- !app_assoc; reflexivity|]. reflexivity.
Qed.

End Members.

(** ** Reading the log: how the readers distribute over a growing log *)

Lemma timeouts_app (tr1 tr2 : list Event) :
  timeouts (tr1 ++ tr2) = (timeouts tr1 + timeouts tr2)%nat.
Proof.
  unfold timeouts. rewrite filter_app, length_app. reflexivity.
Qed.

Lemma timeouts_sent (tr : list Event) :
  forallb isSent tr = true -> timeouts tr = 0%nat.
Proof.
  induction tr as [|e tr IH]; [reflexivity|].
  cbn [forallb]. intros Hs. apply andb_true_iff in Hs. destruct Hs as [He Htr].
  destruct e; [|discriminate]. exact (IH Htr).
Qed.

Lemma statusWrites_app (tr1 tr2 : list Event) :
  statusWrites (tr1 ++ tr2) = statusWrites tr1 ++ statusWrites tr2.
Proof.
  induction tr1 as [|e tr1 IH]; [reflexivity|].
  destruct e as [[] buf len opt a|s]; cbn; rewrite IH; reflexivity.
Qed.

Lemma statusWrites_none (tr : list Event) :
  forallb (fun e => negb (isSite StatusLine e)) tr = true ->
  statusWrites tr = [].
Proof.
  induction tr as [|e tr IH]; [reflexivity|].
  cbn [forallb]. intros Hs. apply andb_true_iff in Hs. destruct Hs as [He Htr].
  destruct e as [[] buf len opt a|s]; try discriminate; exact (IH Htr).
Qed.

Lemma bodyAccepted_app (tr1 tr2 : list Event) :
  bodyAccepted (tr1 ++ tr2) = bodyAccepted tr1 + bodyAccepted tr2.
Proof.
  induction tr1 as [|e tr1 IH]; [reflexivity|].
  destruct e as [[] buf len opt [n f]|s]; cbn [app bodyAccepted];
    rewrite IH; lia.
Qed.

Lemma bodyAccepted_none (tr : list Event) :
  forallb (fun e => negb (isSite Payload e)) tr = true ->
  bodyAccepted tr = 0.
Proof.
  induction tr as [|e tr IH]; [reflexivity|].
  cbn [forallb]. intros Hs. apply andb_true_iff in Hs. destruct Hs as [He Htr].
  destruct e as [[] buf len opt [n f]|s]; try discriminate; exact (IH Htr).
Qed.

Lemma issued_app (tr1 tr2 : list Event) :
  issued (tr1 ++ tr2) = issued tr1 ++ issued tr2.
Proof.
  induction tr1 as [|e tr1 IH]; [reflexivity|].
  destruct e; cbn; rewrite IH; reflexivity.
Qed.

Lemma append_empty_r (s : string) : (s ++ "")%string = s.
Proof.
  induction s as [|c s IH]; cbn; [reflexivity | rewrite IH; reflexivity].
Qed.

Lemma wire_app (tr1 tr2 : list Event) :
  wire (tr1 ++ tr2) = (wire tr1 ++ wire tr2)%string.
Proof.
  induction tr1 as [|e tr1 IH]; [reflexivity|].
  cbn [app wire]. rewrite IH.
  generalize (bytesOf e) as s. intros s.
  induction s as [|c s IHs]; cbn; [reflexivity | rewrite IHs; reflexivity].
Qed.

Lemma forallb_weaken {A : Type} (P Q : A -> bool) (l : list A) :
  (forall a, P a = true -> Q a = true) ->
  forallb P l = true -> forallb Q l = true.
Proof.
  intros HPQ. rewrite !forallb_forall. intros HP a Ha. apply HPQ, HP, Ha.
Qed.

Lemma logs_weaken (P Q : Event -> bool) (w w' : World) :
  (forall e, P e = true -> Q e = true) -> logs P w w' -> logs Q w w'.
Proof.
  intros HPQ [delta [E HP]]. exists delta. split; [exact E|].
  exact (forallb_weaken P Q delta HPQ HP).
Qed.

Lemma added_app {A : Type} (m : Resp A) (w : World) (delta : list Event) :
  trace (after m w) = trace w ++ delta -> added m w = delta.
Proof.
  intros E. unfold added. rewrite E, skipn_app, skipn_all, Nat.sub_diag.
  reflexivity.
Qed.

(** ** The leaves of a computation *)

Ltac leaf_unfold :=
  intros ?w;
  unfold keeps, holds, logs, after, Super.write, Super.timeout, orState,
    andNotState, addOffset, setOnAborted, setOnWritable, setInStream,
    testState, getOffset, getNoMark;
  cbn [fst snd state offset onAborted onWritable inStream noMark answers trace].

Ltac leaf_logs :=
  leaf_unfold;
  first [ exists []; split; [symmetry; apply app_nil_r | reflexivity]
        | eexists [_]; split; reflexivity ].

Ltac leaf_keeps := leaf_unfold; reflexivity.

(** ** The loop of the fixed-length path *)

Lemma writeRounds_rel (R : World -> World -> Prop)
      {PR : RelationClasses.PreOrder R} (data : string) (optional : bool) :
  (forall buf len, rel R (Super.write Payload buf len optional)) ->
  forall rounds written failed,
    rel R (writeRounds rounds data optional written failed).
Proof.
  intros Hw rounds. induction rounds as [|rounds IH]; intros written failed;
    cbn [writeRounds]; destruct ((written <? strlen data) && negb failed);
    try (apply rel_ret; assumption).
  apply rel_bind; [assumption | apply Hw | intros a; apply IH].
Qed.

Lemma writeAll_rel (R : World -> World -> Prop)
      {PR : RelationClasses.PreOrder R} (data : string) (optional : bool) :
  (forall buf len, rel R (Super.write Payload buf len optional)) ->
  rel R (writeAll data optional).
Proof.
  intros Hw w. unfold after, writeAll.
  exact (writeRounds_rel R data optional Hw _ 0 false w).
Qed.

Lemma writeRounds_failed (rounds : nat) (data : string) (optional : bool)
      (written : Z) (w : World) :
  writeRounds rounds data optional written true w = ((written, true), w).
Proof.
  destruct rounds; cbn [writeRounds]; rewrite andb_false_r; reflexivity.
Qed.

(** The rounds are never used up: the loop leaves by its own condition. *)
Lemma writeRounds_exit (data : string) (optional : bool) :
  forall rounds written failed w,
    (List.length (answers w) < rounds)%nat ->
    let r := fst (writeRounds rounds data optional written failed w) in
    (fst r <? strlen data) && negb (snd r) = false.
Proof.
  induction rounds as [|rounds IH]; intros written failed w Hlen; [lia|].
  cbn [writeRounds].
  destruct ((written <? strlen data) && negb failed) eqn:Hc; [|exact Hc].
  rewrite run_bind. unfold Super.write, after. cbn [fst snd].
  destruct (answers w) as [|a rest] eqn:Ha.
  - cbn [saturated snd]. rewrite writeRounds_failed. cbn. apply andb_false_r.
  - apply IH. cbn [answers tl]. cbn [List.length] in Hlen. lia.
Qed.

Lemma writeAll_exit (data : string) (optional : bool) (w : World) :
  let r := fst (writeAll data optional w) in
  snd r = true \/ strlen data <= fst r.
Proof.
  pose proof (writeRounds_exit data optional (S (List.length (answers w)))
                0 false w (Nat.lt_succ_diag_r _)) as Hx.
  cbv zeta in *. unfold writeAll.
  apply andb_false_iff in Hx. destruct Hx as [Hx|Hx].
  - right. apply Z.ltb_ge. exact Hx.
  - left. apply negb_false_iff. exact Hx.
Qed.

(** The count the loop returns is the sum of what the socket reported,
    modulo the width of [size_t]. *)
Lemma writeRounds_accounts (data : string) (optional : bool) :
  forall rounds written failed w,
    let r := writeRounds rounds data optional written failed w in
    as_size_t (fst (fst r))
    = as_size_t (written + (bodyAccepted (trace (snd r))
                            - bodyAccepted (trace w))).
Proof.
  induction rounds as [|rounds IH]; intros written failed w; cbn [writeRounds];
    destruct ((written <? strlen data) && negb failed);
    try (cbn; f_equal; lia).
  rewrite run_bind. cbv zeta in IH. rewrite IH.
  unfold Super.write, after. cbn [fst snd trace].
  set (a := nextAnswer (answers w)).
  set (w' := mkWorld _ _ _ _ _ _ _ _).
  set (r := writeRounds _ _ _ _ _ w').
  rewrite bodyAccepted_app. destruct a as [n f]. cbn [bodyAccepted fst].
  unfold as_size_t.
  rewrite Zplus_mod_idemp_l. f_equal. lia.
Qed.

(** ** Walking a computation *)

Create HintDb rel.

Ltac head_of t :=
  lazymatch t with
  | ?f _ => head_of f
  | _ => t
  end.

(** Walks a computation down to the calls into the socket and the field
    updates, which [leaf] settles; lemmas in the database [rel] are used
    where they apply. *)
Ltac rel_walk leaf :=
  lazymatch goal with
  | |- rel _ (ret _) => apply rel_ret; typeclasses eauto
  | |- rel _ (testState _) => apply rel_testState; typeclasses eauto
  | |- rel _ getOffset => apply rel_getOffset; typeclasses eauto
  | |- rel _ getNoMark => apply rel_getNoMark; typeclasses eauto
  | |- rel _ (bind _ _) =>
      apply rel_bind; [typeclasses eauto | rel_walk leaf | intros; rel_walk leaf]
  | |- rel _ (writeAll _ _) =>
      apply writeAll_rel; [typeclasses eauto | intros; solve [leaf]]
  | |- rel _ (when _ _) => apply rel_when; [typeclasses eauto | rel_walk leaf]
  | |- rel _ (if ?b then _ else _) => destruct b; rel_walk leaf
  | |- rel _ (let (_, _) := ?x in _) => destruct x; rel_walk leaf
  | |- rel _ (let _ := _ in _) => cbv zeta; rel_walk leaf
  | |- rel _ ?m =>
      first [ solve [auto with rel nocore]
            | solve [leaf]
            | let h := head_of m in progress unfold h; rel_walk leaf ]
  end.

Ltac leaf_obs :=
  leaf_unfold;
  rewrite ?bodyAccepted_app, ?statusWrites_app, ?timeouts_app;
  cbn [bodyAccepted statusWrites timeouts filter isArmed List.length];
  rewrite ?Z.add_0_r, ?app_nil_r, ?Nat.add_0_r;
  rewrite ?flagSet_lor_other, ?flagSet_clear_other by assumption;
  reflexivity.

Section Frames.

Context {F : HttpResponseDataFlags}.

(** *** What each member function adds to the log *)

Lemma writeStatus_logs (status : string) : rel (logs isHead) (writeStatus status).
Proof. rel_walk leaf_logs. Qed.

Lemma writeHeader_logs (key value : string) :
  rel (logs isHead) (writeHeader key value).
Proof. rel_walk leaf_logs. Qed.

Lemma endHeaders_logs (totalSize : Z) (allowContentLength : bool) :
  rel (logs isHead) (endHeaders totalSize allowContentLength).
Proof. rel_walk leaf_logs. Qed.

Lemma writeAll_logs (data : string) (optional : bool) :
  rel (logs (isSite Payload)) (writeAll data optional).
Proof. rel_walk leaf_logs. Qed.

Lemma call_logs (c : Call) : rel (logs anyEvent) (call c).
Proof. destruct c; rel_walk leaf_logs. Qed.

Lemma calls_logs (cs : list Call) : rel (logs anyEvent) (calls cs).
Proof.
  induction cs as [|c cs IH]; cbn [calls].
  - apply rel_ret. typeclasses eauto.
  - apply rel_bind; [typeclasses eauto | apply call_logs | intros _; exact IH].
Qed.

(** *** What each member function leaves alone *)

Lemma writeAll_keeps_fields (data : string) (optional : bool) :
  rel (keeps (fun w => (state w, offset w, onAborted w, onWritable w)))
      (writeAll data optional).
Proof. rel_walk leaf_keeps. Qed.

Section Flag.

Variable g : Z.
Hypothesis Hstatus : Z.land HTTP_STATUS_CALLED g = 0.
Hypothesis Hend : Z.land HTTP_END_CALLED g = 0.

Lemma writeStatus_keeps_body (status : string) :
  rel (keeps (bodyView g)) (writeStatus status).
Proof. unfold bodyView. rel_walk leaf_obs. Qed.

Lemma endHeaders_keeps_body (totalSize : Z) (allowContentLength : bool) :
  rel (keeps (bodyView g)) (endHeaders totalSize allowContentLength).
Proof. unfold bodyView. rel_walk leaf_obs. Qed.

End Flag.

End Frames.

(* ===================================================================== *)
(** * The end paths *)

Section EndPaths.

Context {F : HttpResponseDataFlags}.

Lemma internalEnd_fixed (data : string) (totalSize : Z)
      (optional allowContentLength : bool) (w : World) :
  independent F ->
  flagSet (state w) HTTP_WRITE_CALLED = false ->
  internalEnd data totalSize optional allowContentLength w
  = endFixed data (declaredTotal data totalSize) optional allowContentLength
             (after (writeStatus HTTP_200_OK) w).
Proof.
  intros HF Hw. rewrite internalEnd_cases. cbv zeta.
  destruct (independent_facts HF) as [_ [[Hsw [Hse _]] _]].
  pose proof (writeStatus_keeps_body HTTP_WRITE_CALLED Hsw HTTP_200_OK w) as K.
  unfold keeps, bodyView in K. injection K as K _ _ _.
  rewrite K, Hw. reflexivity.
Qed.

(** The log of the fixed-length path: writes first, then at most one
    timeout. *)
Lemma endFixed_trace (data : string) (totalSize : Z)
      (optional allowContentLength : bool) (w : World) :
  let w1 := after (endHeaders totalSize allowContentLength) w in
  let r := writeAll data optional w1 in
  let written := fst (fst r) in
  let failed := snd (fst r) in
  let w' := after (endFixed data totalSize optional allowContentLength) w in
  exists delta,
    forallb isSent delta = true
    /\ offset w' = as_size_t (offset w + written)
    /\ trace w'
       = trace w ++ delta
         ++ (if negb ((written =? strlen data) && negb failed)
                || (offset w' =? totalSize)
             then [Armed HTTP_TIMEOUT_S] else []).
Proof.
  cbv zeta.
  set (w1 := after (endHeaders totalSize allowContentLength) w).
  assert (Hw' : after (endFixed data totalSize optional allowContentLength) w
                = snd (endAccount data totalSize
                         (fst (fst (writeAll data optional w1)))
                         (snd (fst (writeAll data optional w1)))
                         (snd (writeAll data optional w1)))).
  { unfold after at 1. rewrite endFixed_run. reflexivity. }
  rewrite Hw', endAccount_world. cbv zeta. cbn [snd offset trace]. clear Hw'.
  destruct (endHeaders_logs totalSize allowContentLength w) as [d1 [E1 P1]].
  destruct (writeAll_logs data optional w1) as [d2 [E2 P2]].
  pose proof (writeAll_keeps_fields data optional w1) as K.
  unfold keeps in K. injection K as _ Ko _ _.
  pose proof (endHeaders_keeps_body 0 (Z.land_0_r _) (Z.land_0_r _)
                totalSize allowContentLength w) as K1.
  unfold keeps, bodyView in K1. injection K1 as _ Ko1 _ _.
  fold w1 in E1, Ko1. unfold after in E2, Ko.
  exists (d1 ++ d2). split; [|split].
  - rewrite forallb_app. apply andb_true_iff. split.
    + revert P1. apply forallb_weaken. intros [[] ? ? ? ?|?]; cbn; congruence.
    + revert P2. apply forallb_weaken. intros [[] ? ? ? ?|?]; cbn; congruence.
  - rewrite Ko, Ko1. reflexivity.
  - rewrite E2, E1, Ko, Ko1, <- !app_assoc. reflexivity.
Qed.

(** C1.  A call of [internalEnd] that takes the fixed-length path
    (HTTP_WRITE_CALLED clear).  [written] and [failed] are what the write
    loop ends with.  If the write failed, the call arms one timeout; if the
    write succeeded in full and the offset has reached the declared total,
    it arms one timeout; if the write succeeded in full and the offset is
    still below the declared total, it arms none.  The loop ends in no other
    way: it has failed, or it has written the whole chunk. *)
Theorem fixed_end_arms_timeout (data : string) (totalSize : Z)
        (optional allowContentLength : bool) (w : World) :
  independent F ->
  flagSet (state w) HTTP_WRITE_CALLED = false ->
  let total := declaredTotal data totalSize in
  let w1 := after (endHeaders total allowContentLength)
                  (after (writeStatus HTTP_200_OK) w) in
  let written := fst (fst (writeAll data optional w1)) in
  let failed := snd (fst (writeAll data optional w1)) in
  let m := internalEnd data totalSize optional allowContentLength in
  (failed = true -> timeouts (added m w) = 1%nat)
  /\ (failed = false -> written = strlen data ->
      offset (after m w) = total -> timeouts (added m w) = 1%nat)
  /\ (failed = false -> written = strlen data ->
      offset (after m w) < total -> timeouts (added m w) = 0%nat)
  /\ (failed = true \/ strlen data <= written).
Proof.
  intros HF Hw. cbv zeta.
  set (total := declaredTotal data totalSize).
  set (w0 := after (writeStatus HTTP_200_OK) w).
  set (w1 := after (endHeaders total allowContentLength) w0).
  assert (Hm : after (internalEnd data totalSize optional allowContentLength) w
               = after (endFixed data total optional allowContentLength) w0).
  { unfold after at 1. rewrite internalEnd_fixed by assumption. reflexivity. }
  destruct (endFixed_trace data total optional allowContentLength w0)
    as [delta [Hsent [_ Htr]]].
  fold w1 in Htr.
  destruct (writeStatus_logs HTTP_200_OK w) as [d0 [E0 P0]]. fold w0 in E0.
  assert (Hs0 : forallb isSent d0 = true).
  { revert P0. apply forallb_weaken. intros [[] ? ? ? ?|?]; cbn; congruence. }
  rewrite E0, <- app_assoc, <- Hm in Htr.
  rewrite (added_app _ w _ Htr), !timeouts_app.
  rewrite (timeouts_sent d0 Hs0), (timeouts_sent delta Hsent).
  cbn [Nat.add].
  set (written := fst (fst (writeAll data optional w1))) in *.
  set (failed := snd (fst (writeAll data optional w1))) in *.
  repeat split.
  - intros Hf. rewrite Hf, andb_false_r. reflexivity.
  - intros Hf Hwr Hoff. apply Z.eqb_eq in Hoff. rewrite Hoff, orb_true_r.
    reflexivity.
  - intros Hf Hwr Hoff. rewrite Hf, Hwr, Z.eqb_refl.
    apply Z.lt_neq, Z.eqb_neq in Hoff. rewrite Hoff. reflexivity.
  - exact (writeAll_exit data optional w1).
Qed.

(** In chunked mode [internalEnd] always writes the terminating chunk and
    marks the response done. *)
Lemma internalEnd_chunked_terminates (data : string) (totalSize : Z)
      (optional allowContentLength : bool) (w : World) :
  flagSet (state w) HTTP_WRITE_CALLED = true ->
  let m := internalEnd data totalSize optional allowContentLength in
  In (ChunkFraming, terminatingChunk, 7) (issued (added m w))
  /\ done (after m w).
Proof.
  intros Hw. cbv zeta. set (w0 := after (writeStatus HTTP_200_OK) w).
  assert (Hm : after (internalEnd data totalSize optional allowContentLength) w
               = after (endChunked data) w0).
  { unfold after at 1. rewrite internalEnd_chunked by exact Hw. reflexivity. }
  split; [|rewrite Hm; apply endChunked_done].
  destruct (writeStatus_logs HTTP_200_OK w) as [d0 [E0 _]]. fold w0 in E0.
  destruct (endChunked_trace data w0) as [d [a [E _]]].
  rewrite E0, <- app_assoc, <- Hm in E.
  rewrite (added_app _ w _ E), !issued_app.
  apply in_or_app. right. apply in_or_app. right. left. reflexivity.
Qed.

(** C6.  [internalEnd] reaches the end of the response either by writing the
    terminating chunk (chunked mode) or by the offset reaching the declared
    total (fixed-length mode).  In both cases the world it returns has the
    on-aborted and on-writable callbacks cleared and RESPONSE_PENDING
    clear. *)
Theorem done_clears_callbacks_and_pending (data : string) (totalSize : Z)
        (optional allowContentLength : bool) (w : World) :
  let m := internalEnd data totalSize optional allowContentLength in
  (flagSet (state w) HTTP_WRITE_CALLED = true ->
   In (ChunkFraming, terminatingChunk, 7) (issued (added m w))
   /\ done (after m w))
  /\ (flagSet (state w) HTTP_WRITE_CALLED = false ->
      offset (after m w) = declaredTotal data totalSize ->
      done (after m w)).
Proof.
  cbv zeta. set (w0 := after (writeStatus HTTP_200_OK) w).
  assert (Hchunked :
            flagSet (state w0) HTTP_WRITE_CALLED = true ->
            after (internalEnd data totalSize optional allowContentLength) w
            = after (endChunked data) w0).
  { intros Hc. unfold after at 1. rewrite internalEnd_cases. cbv zeta. fold w0.
    rewrite Hc. reflexivity. }
  split.
  - apply internalEnd_chunked_terminates.
  - intros _. destruct (flagSet (state w0) HTTP_WRITE_CALLED) eqn:Hc.
    + intros _. rewrite (Hchunked eq_refl). apply endChunked_done.
    + assert (Hm : after (internalEnd data totalSize optional
                            allowContentLength) w
                   = after (endFixed data (declaredTotal data totalSize)
                              optional allowContentLength) w0).
      { unfold after at 1. rewrite internalEnd_cases. cbv zeta. fold w0.
        rewrite Hc. reflexivity. }
      rewrite Hm. apply endFixed_done.
Qed.

(** C10.  On a response in chunked mode (HTTP_WRITE_CALLED set),
    [internalEnd] returns true and does the same with [optional] set as
    with [optional] clear, whatever the socket answers; so [tryEnd] reports
    success, and that the response is complete. *)
Theorem chunked_end_ignores_optional (data : string) (totalSize : Z)
        (optional allowContentLength : bool) (w : World) :
  flagSet (state w) HTTP_WRITE_CALLED = true ->
  fst (internalEnd data totalSize optional allowContentLength w) = true
  /\ internalEnd data totalSize true allowContentLength w
     = internalEnd data totalSize false allowContentLength w
  /\ fst (tryEnd data totalSize w) = (true, true).
Proof.
  intros Hw. rewrite !internalEnd_chunked by assumption.
  split; [apply endChunked_returns|]. split; [reflexivity|].
  unfold tryEnd. rewrite !fst_bind. cbn [ret fst].
  rewrite internalEnd_chunked by assumption. rewrite endChunked_returns.
  f_equal. unfold hasResponded. rewrite fst_bind. cbn [ret fst].
  unfold testState at 1. cbn [fst]. apply negb_true_iff.
  unfold after at 1. rewrite internalEnd_chunked by assumption.
  apply (endChunked_done data (after (writeStatus HTTP_200_OK) w)).
Qed.

End EndPaths.

(* ===================================================================== *)
(** * Sequences of calls *)

Lemma after_calls_app {F : HttpResponseDataFlags} (cs1 cs2 : list Call)
      (w : World) :
  after (calls (cs1 ++ cs2)) w = after (calls cs2) (after (calls cs1) w).
Proof.
  revert w. induction cs1 as [|c cs1 IH]; intros w; [reflexivity|].
  cbn [app calls]. rewrite !after_bind. apply IH.
Qed.

Lemma calls_rel {F : HttpResponseDataFlags} (R : World -> World -> Prop)
      {PR : RelationClasses.PreOrder R} (cs : list Call) :
  (forall c, In c cs -> rel R (call c)) -> rel R (calls cs).
Proof.
  induction cs as [|c cs IH]; intros Hc; cbn [calls].
  - apply rel_ret. assumption.
  - apply rel_bind; [assumption | apply Hc; left; reflexivity |].
    intros _. apply IH. intros c' Hin. apply Hc. right. exact Hin.
Qed.

Section StatusLine.

Context {F : HttpResponseDataFlags}.
Hypothesis HF : independent F.

Let Hnz : HTTP_STATUS_CALLED <> 0 := proj1 (proj1 (independent_facts HF)).

Lemma independent_status :
  Z.land HTTP_WRITE_CALLED HTTP_STATUS_CALLED = 0
  /\ Z.land HTTP_END_CALLED HTTP_STATUS_CALLED = 0
  /\ Z.land HTTP_RESPONSE_PENDING HTTP_STATUS_CALLED = 0.
Proof.
  pose proof (independent_facts HF) as [_ [[H1 [H2 H3]] _]].
  rewrite (Z.land_comm HTTP_WRITE_CALLED), (Z.land_comm HTTP_END_CALLED),
    (Z.land_comm HTTP_RESPONSE_PENDING). tauto.
Qed.

Lemma writeStatus_first (status : string) (w : World) :
  flagSet (state w) HTTP_STATUS_CALLED = false ->
  flagSet (state (after (writeStatus status) w)) HTTP_STATUS_CALLED = true
  /\ statusWrites (trace (after (writeStatus status) w))
     = statusWrites (trace w) ++ statusLine status.
Proof.
  intros Hc. run_world. rewrite Hc. cbn. split.
  - apply flagSet_lor_same, Hnz.
  - rewrite !statusWrites_app, <- !app_assoc. reflexivity.
Qed.

Lemma writeStatus_sets (status : string) (w : World) :
  statusCalled (after (writeStatus status) w).
Proof.
  unfold statusCalled.
  destruct (flagSet (state w) HTTP_STATUS_CALLED) eqn:Hc.
  - unfold after. rewrite writeStatus_called by assumption. exact Hc.
  - apply writeStatus_first, Hc.
Qed.

Lemma writeStatus_statusInv (status : string) :
  rel (holds statusInv) (writeStatus status).
Proof.
  intros w [[Hc Hs]|[Hc Hs]].
  - right. destruct (writeStatus_first status w Hc) as [Hc' Hs'].
    split; [exact Hc'|]. exists status. rewrite Hs', Hs. reflexivity.
  - right. unfold after. rewrite writeStatus_called by assumption.
    split; assumption.
Qed.

Lemma statusView_statusInv {A : Type} (m : Resp A) :
  rel (keeps statusView) m -> rel (holds statusInv) m.
Proof.
  intros K w. specialize (K w). unfold keeps, statusView in K.
  injection K as Kf Ks. unfold holds, statusInv. rewrite Kf, Ks. tauto.
Qed.

#[local] Hint Resolve writeStatus_statusInv : rel.

Ltac leaf_status :=
  pose proof independent_status as [? [? ?]];
  apply statusView_statusInv; unfold statusView; leaf_obs.

Lemma call_statusInv (c : Call) : rel (holds statusInv) (call c).
Proof. destruct c; rel_walk leaf_status. Qed.

Lemma calls_statusInv (cs : list Call) (w0 : World) :
  fresh w0 -> statusInv (after (calls cs) w0).
Proof.
  intros [Hc [_ [_ [_ Htr]]]].
  apply (calls_rel (holds statusInv) cs (fun c _ => call_statusInv c) w0).
  left. rewrite Htr. split; [exact Hc | reflexivity].
Qed.

(** *** HTTP_STATUS_CALLED is never cleared, and HTTP_WRITE_CALLED is set
    after it *)

Ltac leaf_called :=
  pose proof independent_status as [? [? ?]];
  leaf_unfold; unfold statusCalled; cbn [state];
  rewrite ?flagSet_clear_other by assumption;
  first [ exact (fun Hc => Hc) | apply flagSet_lor_mono ].

Lemma call_statusCalled (c : Call) : rel (holds statusCalled) (call c).
Proof. destruct c; rel_walk leaf_called. Qed.

Lemma write_statusCalled (data : string) (w : World) :
  statusCalled (after (write data) w).
Proof.
  unfold write. rewrite after_bind.
  assert (Hrest : forall m : Resp bool,
             rel (holds statusCalled) m ->
             statusCalled (after m (after (writeStatus HTTP_200_OK) w))).
  { intros m Hm. apply Hm, writeStatus_sets. }
  apply Hrest. rel_walk leaf_called.
Qed.

Lemma write_chunkedInv (data : string) : rel (holds chunkedInv) (write data).
Proof. intros w _ _. apply write_statusCalled. Qed.

#[local] Hint Resolve write_chunkedInv : rel.

Ltac leaf_chunked :=
  pose proof independent_status as [? [? ?]];
  pose proof (independent_facts HF) as [_ [[? [? ?]] [? [? ?]]]];
  leaf_unfold; unfold chunkedInv, statusCalled; cbn [state];
  rewrite ?flagSet_clear_other, ?flagSet_lor_other
    by (assumption || (rewrite Z.land_comm; assumption));
  first [ exact (fun Hc => Hc)
        | intros _ _; apply flagSet_lor_same, Hnz ].

Lemma call_chunkedInv (c : Call) : rel (holds chunkedInv) (call c).
Proof. destruct c; rel_walk leaf_chunked. Qed.

Lemma reachable_chunkedInv (w : World) : reachable w -> chunkedInv w.
Proof.
  intros [w0 [cs [[Hc [Hw _]] E]]]. subst w.
  apply (calls_rel (holds chunkedInv) cs (fun c _ => call_chunkedInv c) w0).
  intros Hset. congruence.
Qed.

(** *** Once written, the status line stays as it is *)

Lemma writeStatus_statusIs (line : list (string * Z)) (status : string) :
  rel (holds (statusIs line)) (writeStatus status).
Proof.
  intros w [Hc Hs]. unfold after. rewrite writeStatus_called by exact Hc.
  split; assumption.
Qed.

Lemma statusView_statusIs {A : Type} (line : list (string * Z)) (m : Resp A) :
  rel (keeps statusView) m -> rel (holds (statusIs line)) m.
Proof.
  intros K w. specialize (K w). unfold keeps, statusView in K.
  injection K as Kf Ks. unfold holds, statusIs, statusCalled.
  rewrite Kf, Ks. tauto.
Qed.

#[local] Hint Resolve writeStatus_statusIs : rel.

Ltac leaf_statusIs :=
  pose proof independent_status as [? [? ?]];
  apply statusView_statusIs; unfold statusView; leaf_obs.

Lemma call_statusIs (line : list (string * Z)) (c : Call) :
  rel (holds (statusIs line)) (call c).
Proof. destruct c; rel_walk leaf_statusIs. Qed.

(** A call that begins with [writeStatus(HTTP_200_OK)] writes the default
    status line when none is in the log. *)
Lemma call_defaultsStatus (c : Call) (w : World) :
  defaultsStatus c = true ->
  flagSet (state w) HTTP_STATUS_CALLED = false ->
  statusWrites (trace w) = [] ->
  statusWrites (trace (after (call c) w)) = statusLine HTTP_200_OK.
Proof.
  intros Hd Hc Hs.
  assert (Hrest : forall (A : Type) (m : Resp A),
             rel (holds (statusIs (statusLine HTTP_200_OK))) m ->
             statusWrites (trace (after m (after (writeStatus HTTP_200_OK) w)))
             = statusLine HTTP_200_OK).
  { intros A m Hm. apply Hm.
    destruct (writeStatus_first HTTP_200_OK w Hc) as [Hc' Hs'].
    split; [exact Hc'|]. rewrite Hs', Hs. reflexivity. }
  destruct c; try discriminate; cbn [call].
  - unfold writeHeader. rewrite after_bind. apply Hrest.
    rel_walk leaf_statusIs.
  - unfold end_, internalEnd. rewrite after_bind_bind. apply Hrest.
    cbv beta zeta. rel_walk leaf_statusIs.
  - unfold tryEnd, internalEnd. rewrite after_bind_bind_bind. apply Hrest.
    cbv beta zeta. rel_walk leaf_statusIs.
  - unfold write. rewrite after_bind_bind. apply Hrest.
    cbv beta zeta. rel_walk leaf_statusIs.
Qed.

Lemma internalEnd_statusCalled (data : string) (totalSize : Z)
      (optional allowContentLength : bool) (w : World) :
  statusCalled (after (internalEnd data totalSize optional allowContentLength) w).
Proof.
  unfold internalEnd. rewrite after_bind.
  assert (Hrest : forall m : Resp bool,
             rel (holds statusCalled) m ->
             statusCalled (after m (after (writeStatus HTTP_200_OK) w))).
  { intros m Hm. apply Hm, writeStatus_sets. }
  apply Hrest. cbv beta zeta. rel_walk leaf_called.
Qed.

(** *** The status line comes first, the [uint64_t] header overload apart *)

Lemma statusFirst_led_app (tr delta : list Event) :
  statusFirst tr = true ->
  existsb (isSite StatusLine) tr = true ->
  statusFirst (tr ++ delta) = true
  /\ existsb (isSite StatusLine) (tr ++ delta) = true.
Proof.
  induction tr as [|e tr IH]; cbn [app statusFirst existsb];
    [discriminate|].
  destruct (isSite StatusLine e); [intros _ _; split; reflexivity|].
  destruct (afterStatus e); [discriminate|]. exact IH.
Qed.

Lemma statusFirst_headless_app (tr delta : list Event) :
  forallb headless tr = true ->
  statusFirst (tr ++ delta) = statusFirst delta
  /\ existsb (isSite StatusLine) (tr ++ delta)
     = existsb (isSite StatusLine) delta.
Proof.
  induction tr as [|e tr IH]; cbn [app statusFirst existsb forallb];
    [intros _; split; reflexivity|].
  intros Hq. apply andb_true_iff in Hq. destruct Hq as [He Htr].
  unfold headless in He. apply andb_true_iff in He. destruct He as [Hs Ha].
  apply negb_true_iff in Hs, Ha. rewrite Hs, Ha. exact (IH Htr).
Qed.

Lemma writeStatus_leads (status : string) (w : World) :
  flagSet (state w) HTTP_STATUS_CALLED = false ->
  forallb headless (trace w) = true ->
  statusLed (after (writeStatus status) w).
Proof.
  intros Hc Hq. split; [apply writeStatus_sets|].
  run_world. rewrite Hc. cbn [snd trace]. rewrite <- !app_assoc.
  destruct (statusFirst_headless_app (trace w)
              ([Sent StatusLine "HTTP/1.1 " 9 false (nextAnswer (answers w))]
               ++ [Sent StatusLine status (as_int (strlen status)) false
                        (nextAnswer (tl (answers w)))]
               ++ [Sent StatusLine CRLF 2 false
                        (nextAnswer (tl (tl (answers w))))]) Hq)
    as [Hf He].
  rewrite Hf, He. split; reflexivity.
Qed.

Lemma writeStatus_statusLed (status : string) :
  rel (holds statusLed) (writeStatus status).
Proof.
  intros w Hled. unfold after.
  rewrite writeStatus_called by exact (proj1 Hled). exact Hled.
Qed.

#[local] Hint Resolve writeStatus_statusLed : rel.

Ltac leaf_led :=
  pose proof independent_status as [? [? ?]];
  leaf_unfold; unfold statusLed, statusCalled; cbn [state trace];
  intros [?Hc [?Hf ?He]];
  split;
  [ rewrite ?flagSet_clear_other by assumption;
    first [ assumption | apply flagSet_lor_mono; assumption ]
  | first [ split; assumption | apply statusFirst_led_app; assumption ] ].

Lemma call_statusLed (c : Call) : rel (holds statusLed) (call c).
Proof. destruct c; rel_walk leaf_led. Qed.

Lemma call_statusFirstInv (c : Call) :
  isHeaderU64 c = false -> rel (holds statusFirstInv) (call c).
Proof.
  intros Hc w [[Hclear Hq]|Hled]; [|right; apply call_statusLed, Hled].
  assert (Hrest : forall (A : Type) (m : Resp A),
             rel (holds statusLed) m ->
             statusFirstInv (after m (after (writeStatus HTTP_200_OK) w))).
  { intros A m Hm. right. apply Hm, writeStatus_leads; assumption. }
  destruct c; try discriminate; cbn [call].
  - left. unfold writeContinue. run_world. split; [exact Hclear|].
    rewrite forallb_app, Hq. reflexivity.
  - right. apply writeStatus_leads; assumption.
  - unfold writeHeader. rewrite after_bind. apply Hrest.
    rel_walk leaf_led.
  - unfold end_, internalEnd. rewrite after_bind_bind. apply Hrest.
    cbv beta zeta. rel_walk leaf_led.
  - unfold tryEnd, internalEnd. rewrite after_bind_bind_bind. apply Hrest.
    cbv beta zeta. rel_walk leaf_led.
  - unfold write. rewrite after_bind_bind. apply Hrest.
    cbv beta zeta. rel_walk leaf_led.
  - left. split; assumption.
  - left. split; assumption.
  - left. split; assumption.
  - left. split; assumption.
  - left. split; assumption.
Qed.

(** On a fresh response, every sequence of calls that leaves out the
    [uint64_t] overload of [writeHeader] writes the status line before any
    header, chunk framing or payload. *)
Lemma status_first_without_u64_header (w0 : World) (cs : list Call) :
  fresh w0 ->
  forallb (fun c => negb (isHeaderU64 c)) cs = true ->
  statusFirst (trace (after (calls cs) w0)) = true.
Proof.
  intros [Hc [_ [_ [_ Htr]]]] Hcs.
  assert (Hinv : statusFirstInv (after (calls cs) w0)).
  { apply (calls_rel (holds statusFirstInv) cs).
    - intros c Hin. apply call_statusFirstInv.
      rewrite forallb_forall in Hcs. apply negb_true_iff, Hcs, Hin.
    - left. rewrite Htr. split; [exact Hc | reflexivity]. }
  destruct Hinv as [[_ Hq]|[_ [Hf _]]]; [|exact Hf].
  destruct (statusFirst_headless_app _ [] Hq) as [Hf _].
  rewrite app_nil_r in Hf. exact Hf.
Qed.

End StatusLine.

(* ===================================================================== *)
(** * Digits *)

Lemma digitChar_not_CR (d : Z) :
  0 <= d < 16 -> utils.digitChar d <> "013"%char.
Proof.
  intros Hd.
  assert (E : d = 0 \/ d = 1 \/ d = 2 \/ d = 3 \/ d = 4 \/ d = 5 \/ d = 6
              \/ d = 7 \/ d = 8 \/ d = 9 \/ d = 10 \/ d = 11 \/ d = 12
              \/ d = 13 \/ d = 14 \/ d = 15) by lia.
  repeat (destruct E as [E|E]; [subst d; discriminate|]).
  subst d. discriminate.
Qed.

Lemma digitChar_zero (d : Z) :
  0 <= d < 16 -> utils.digitChar d = "0"%char -> d = 0.
Proof.
  intros Hd.
  assert (E : d = 0 \/ d = 1 \/ d = 2 \/ d = 3 \/ d = 4 \/ d = 5 \/ d = 6
              \/ d = 7 \/ d = 8 \/ d = 9 \/ d = 10 \/ d = 11 \/ d = 12
              \/ d = 13 \/ d = 14 \/ d = 15) by lia.
  repeat (destruct E as [E|E]; [subst d; (reflexivity || discriminate)|]).
  subst d. discriminate.
Qed.

(** A hexadecimal rendering starts with a digit. *)
Lemma digits_head (width : nat) :
  forall n, 0 <= n ->
    utils.digits 16 width n = EmptyString
    \/ exists d s, 0 <= d < 16
                   /\ utils.digits 16 width n = String (utils.digitChar d) s.
Proof.
  induction width as [|width IH]; intros n Hn; [left; reflexivity|].
  right. cbn [utils.digits]. destruct (n <? 16) eqn:Hlt.
  - apply Z.ltb_lt in Hlt. exists n, EmptyString. split; [lia | reflexivity].
  - destruct (IH (n / 16)) as [E|[d [s [Hd E]]]];
      [apply Z.div_pos; lia | |]; rewrite E.
    + exists (n mod 16), EmptyString. split; [|reflexivity].
      apply Z.mod_pos_bound. lia.
    + exists d. eexists. split; [exact Hd | reflexivity].
Qed.

Lemma u32toaHex_not_terminating (n : Z) :
  utils.u32toaHex (as_unsigned n) <> terminatingChunk.
Proof.
  unfold utils.u32toaHex.
  destruct (digits_head 8 (as_unsigned n)) as [E|[d [s [Hd E]]]].
  - unfold as_unsigned. apply Z.mod_pos_bound. reflexivity.
  - rewrite E. discriminate.
  - rewrite E. intros Ht. injection Ht as Hc _.
    exact (digitChar_not_CR d Hd Hc).
Qed.

Lemma digits_nonempty (base : Z) (width : nat) (n : Z) :
  utils.digits base (S width) n <> EmptyString.
Proof.
  cbn [utils.digits]. destruct (n <? base); [discriminate|].
  destruct (utils.digits base width (n / base)); discriminate.
Qed.

(** The size line of a chunk that is not empty is not the single digit
    zero. *)
Lemma u32toaHex_positive (n : Z) : 0 < n -> utils.u32toaHex n <> "0".
Proof.
  intros Hn. unfold utils.u32toaHex.
  change (utils.digits 16 8 n)
    with (if n <? 16 then String (utils.digitChar n) EmptyString
          else (utils.digits 16 7 (n / 16)
                ++ String (utils.digitChar (n mod 16)) EmptyString)%string).
  destruct (n <? 16) eqn:Hlt.
  - apply Z.ltb_lt in Hlt. intros E. injection E as E.
    apply digitChar_zero in E; lia.
  - pose proof (digits_nonempty 16 6 (n / 16)) as Hne.
    destruct (utils.digits 16 7 (n / 16)) as [|c s]; [congruence|].
    destruct s; discriminate.
Qed.

(* ===================================================================== *)
(** * The status line and the chunks *)

Section Framing.

Context {F : HttpResponseDataFlags}.

(** C2.  Take any sequence of calls on a fresh response.  The log then holds
    no status write, or the three writes of exactly one status line.  While
    it holds none, [writeStatus] writes the line it is given, and a call
    that begins with [writeStatus(HTTP_200_OK)] (a header, [write], [end],
    [tryEnd]) writes the default line.  Once it holds one, [writeStatus]
    returns without touching the response, and no call changes the status
    writes in the log. *)
Theorem one_status_line (w0 : World) (cs : list Call) :
  independent F ->
  fresh w0 ->
  let w := after (calls cs) w0 in
  (statusWrites (trace w) = []
   \/ exists status, statusWrites (trace w) = statusLine status)
  /\ (statusWrites (trace w) = [] ->
      (forall status,
          statusWrites (trace (after (writeStatus status) w))
          = statusLine status)
      /\ (forall c, defaultsStatus c = true ->
                    statusWrites (trace (after (call c) w))
                    = statusLine HTTP_200_OK))
  /\ (statusWrites (trace w) <> [] ->
      (forall status, writeStatus status w = (tt, w))
      /\ (forall c, statusWrites (trace (after (call c) w))
                    = statusWrites (trace w))).
Proof.
  intros HF Hfresh. cbv zeta.
  destruct (calls_statusInv HF cs w0 Hfresh) as [[Hc Hs]|[Hc [status Hs]]].
  - split; [left; exact Hs|]. split; [|congruence].
    intros _. split.
    + intros status.
      destruct (writeStatus_first HF status _ Hc) as [_ Hs'].
      rewrite Hs', Hs. reflexivity.
    + intros c Hd. exact (call_defaultsStatus HF c _ Hd Hc Hs).
  - split; [right; exists status; exact Hs|]. split.
    + rewrite Hs. discriminate.
    + intros _. split.
      * intros status'. apply writeStatus_called, Hc.
      * intros c.
        apply (call_statusIs HF (statusWrites (trace (after (calls cs) w0))) c).
        split; [exact Hc | reflexivity].
Qed.

Lemma write_empty (w : World) :
  statusCalled w -> write "" w = (true, w).
Proof.
  intros Hc. unfold write. rewrite run_bind.
  unfold after. rewrite writeStatus_called by exact Hc. reflexivity.
Qed.

(** What [write] adds to the log in chunked mode: the size line between two
    line ends, the data, and a timeout if the socket failed. *)
Lemma write_chunked_trace (data : string) (w : World) :
  statusCalled w ->
  flagSet (state w) HTTP_WRITE_CALLED = true ->
  (strlen data =? 0) = false ->
  exists a1 a2 a3 a4,
    trace (after (write data) w)
    = trace w
      ++ [Sent ChunkFraming CRLF 2 false a1;
          Sent ChunkFraming (utils.u32toaHex (as_unsigned (strlen data)))
               (strlen (utils.u32toaHex (as_unsigned (strlen data)))) false a2;
          Sent ChunkFraming CRLF 2 false a3;
          Sent Payload data (as_int (strlen data)) false a4]
      ++ (if snd a4 then [Armed HTTP_TIMEOUT_S] else [])
    /\ fst (write data w) = negb (snd a4).
Proof.
  intros Hc Hw Hlen. unfold after, write. rewrite run_bind.
  unfold after. rewrite writeStatus_called by exact Hc. cbn [fst snd].
  rewrite Hlen. run_world. rewrite Hw. cbn [negb].
  exists (nextAnswer (answers w)), (nextAnswer (tl (answers w))),
    (nextAnswer (tl (tl (answers w)))),
    (nextAnswer (tl (tl (tl (answers w))))).
  destruct (snd (nextAnswer (tl (tl (tl (answers w)))))) eqn:Ef;
    cbn [fst snd trace]; rewrite <- !app_assoc; cbn [app];
    (split; [reflexivity|]); reflexivity.
Qed.

(** Where [write] keeps to its comment (line 396).  On a response in chunked
    mode that a sequence of calls has led to: [write] with an empty payload
    returns true and leaves the response and the log as they were; no single
    write of [write] is the terminating chunk; the size line [write] writes
    for a payload that is not empty and shorter than 4 GiB, the range of the
    [unsigned int] cast, is not the single digit zero; [internalEnd] issues
    the terminating chunk. *)
Lemma zero_chunk_below_4GiB (w : World) :
  independent F ->
  reachable w ->
  flagSet (state w) HTTP_WRITE_CALLED = true ->
  write "" w = (true, w)
  /\ (forall data,
         ~ In (ChunkFraming, terminatingChunk, 7) (issued (added (write data) w))
         /\ (0 < strlen data < 2 ^ 32 ->
             ~ In (ChunkFraming, "0", 1) (issued (added (write data) w))))
  /\ (forall data totalSize optional allowContentLength,
         In (ChunkFraming, terminatingChunk, 7)
            (issued (added (internalEnd data totalSize optional
                                        allowContentLength) w))).
Proof.
  intros HF Hreach Hw.
  pose proof (reachable_chunkedInv HF w Hreach Hw) as Hc.
  split; [apply write_empty, Hc|]. split.
  - intros data. destruct (strlen data =? 0) eqn:Hlen.
    + assert (E : data = "").
      { apply Z.eqb_eq in Hlen. unfold strlen in Hlen.
        destruct data; [reflexivity | discriminate]. }
      subst data. unfold added, after. rewrite write_empty by exact Hc.
      cbn [snd]. rewrite skipn_all. split; [|intros _]; intros [].
    + destruct (write_chunked_trace data w Hc Hw Hlen)
        as [a1 [a2 [a3 [a4 [E _]]]]].
      rewrite (added_app _ w _ E), issued_app.
      assert (Htail : issued (if snd a4 then [Armed HTTP_TIMEOUT_S] else [])
                      = []) by (destruct (snd a4); reflexivity).
      rewrite Htail, app_nil_r. cbn [issued]. split.
      * intros [E1|[E1|[E1|[E1|[]]]]]; try discriminate.
        injection E1 as E1 _. exact (u32toaHex_not_terminating _ E1).
      * intros Hrange [E1|[E1|[E1|[E1|[]]]]]; try discriminate.
        injection E1 as E1 _. revert E1.
        unfold as_unsigned. rewrite Z.mod_small by lia.
        apply u32toaHex_positive. lia.
  - intros data totalSize optional allowContentLength.
    apply (internalEnd_chunked_terminates data totalSize optional
             allowContentLength w Hw).
Qed.

End Framing.

(* ===================================================================== *)
(** * The offset of a fixed-length response *)

Lemma honest_bodyAccepted (tr : list Event) :
  Forall honest tr -> 0 <= bodyAccepted tr.
Proof.
  induction 1 as [|e tr He _ IH]; [reflexivity|].
  destruct e as [[] buf len opt [n f]|s]; cbn [bodyAccepted honest] in *; lia.
Qed.

Lemma writeRounds_logs (data : string) (optional : bool) (rounds : nat)
      (written : Z) (failed : bool) :
  rel (logs (isSite Payload)) (writeRounds rounds data optional written failed).
Proof.
  apply writeRounds_rel; [typeclasses eauto | intros; leaf_logs].
Qed.

(** With a socket that reports no more than it was handed, the loop never
    counts past the end of the data, and its count does not wrap. *)
Lemma writeRounds_honest (data : string) (optional : bool) :
  strlen data < 2 ^ 64 ->
  forall rounds written failed w delta,
    let r := writeRounds rounds data optional written failed w in
    trace (snd r) = trace w ++ delta ->
    Forall honest delta ->
    0 <= written <= strlen data ->
    fst (fst r) = written + bodyAccepted delta
    /\ written <= fst (fst r) <= strlen data.
Proof.
  intros Hsize. induction rounds as [|rounds IH];
    intros written failed w delta; cbn [writeRounds]; cbv zeta;
    destruct ((written <? strlen data) && negb failed) eqn:Hc;
    try (cbn [ret fst snd]; intros E _ Hr;
         rewrite <- (app_nil_r (trace w)) in E at 1;
         apply app_inv_head in E; subst delta; cbn [bodyAccepted]; lia).
  rewrite run_bind. intros E Hh Hr.
  apply andb_true_iff in Hc. destruct Hc as [Hlt _]. apply Z.ltb_lt in Hlt.
  set (chunk := as_int (Z.min (as_size_t (strlen data - written)) INT_MAX)) in *.
  set (w' := after (Super.write Payload (advance data written) chunk optional) w)
    in *.
  set (a := fst (Super.write Payload (advance data written) chunk optional w))
    in *.
  assert (Ew' : trace w'
                = trace w ++ [Sent Payload (advance data written) chunk
                                   optional a]) by reflexivity.
  destruct (writeRounds_logs data optional rounds
              (as_size_t (written + fst a)) (snd a) w') as [d' [Ed' _]].
  unfold after in Ed'. rewrite Ed', Ew', <- app_assoc in E.
  apply app_inv_head in E. subst delta. cbn [app] in Hh.
  inversion Hh as [|e l He Hl]; subst e l. clear Hh.
  assert (Hchunk : chunk <= strlen data - written).
  { unfold chunk, as_size_t, as_int, INT_MAX.
    rewrite (Z.mod_small (strlen data - written)) by lia.
    rewrite Z.mod_small by lia. lia. }
  destruct a as [n f]. cbn [honest fst snd] in *.
  assert (Hn : as_size_t (written + n) = written + n).
  { unfold as_size_t. apply Z.mod_small. lia. }
  rewrite Hn in *.
  destruct (IH (written + n) f w' d' Ed' Hl) as [Hsum Hbound]; [lia|].
  cbn [app bodyAccepted]. lia.
Qed.

Section Offset.

Context {F : HttpResponseDataFlags}.
Hypothesis HF : independent F.

(** What a call of [internalEnd] on the fixed-length path does to the
    offset and to the log. *)
Lemma internalEnd_fixed_summary (data : string) (totalSize : Z)
      (optional allowContentLength : bool) (w : World) :
  flagSet (state w) HTTP_WRITE_CALLED = false ->
  let w' := after (internalEnd data totalSize optional allowContentLength) w in
  exists written delta,
    flagSet (state w') HTTP_WRITE_CALLED = false
    /\ offset w' = as_size_t (offset w + written)
    /\ trace w' = trace w ++ delta
    /\ as_size_t written = as_size_t (bodyAccepted delta)
    /\ (strlen data < 2 ^ 64 -> Forall honest delta ->
        written = bodyAccepted delta /\ 0 <= written <= strlen data).
Proof.
  intros Hw. cbv zeta.
  pose proof (independent_facts HF) as [_ [[Hsw [Hse Hsp]] [Hwe [Hwp Hep]]]].
  assert (Hew : Z.land HTTP_END_CALLED HTTP_WRITE_CALLED = 0)
    by (rewrite Z.land_comm; exact Hwe).
  assert (Hpw : Z.land HTTP_RESPONSE_PENDING HTTP_WRITE_CALLED = 0)
    by (rewrite Z.land_comm; exact Hwp).
  set (total := declaredTotal data totalSize).
  set (w0 := after (writeStatus HTTP_200_OK) w).
  set (w1 := after (endHeaders total allowContentLength) w0).
  set (r := writeAll data optional w1).
  assert (Hm : after (internalEnd data totalSize optional allowContentLength) w
               = snd (endAccount data total (fst (fst r)) (snd (fst r)) (snd r))).
  { unfold after at 1. rewrite internalEnd_fixed by assumption.
    rewrite endFixed_run. reflexivity. }
  rewrite Hm, endAccount_world. cbv zeta. cbn [snd state offset trace].
  pose proof (writeStatus_keeps_body HTTP_WRITE_CALLED Hsw HTTP_200_OK w) as K0.
  pose proof (endHeaders_keeps_body HTTP_WRITE_CALLED Hsw Hew total
                allowContentLength w0) as K1.
  pose proof (writeAll_keeps_fields data optional w1) as K2.
  unfold keeps, bodyView in K0, K1, K2. fold w0 in K0. fold w1 in K1.
  unfold after in K2. fold r in K2.
  injection K0 as K0f K0o K0b _. injection K1 as K1f K1o K1b _.
  injection K2 as K2s K2o _ _.
  destruct (writeStatus_logs HTTP_200_OK w) as [d0 [E0 _]]. fold w0 in E0.
  destruct (endHeaders_logs total allowContentLength w0) as [d1 [E1 _]].
  fold w1 in E1.
  destruct (writeAll_logs data optional w1) as [d2 [E2 _]].
  unfold after in E2. fold r in E2.
  assert (B0 : bodyAccepted d0 = 0).
  { rewrite E0, bodyAccepted_app in K0b. lia. }
  assert (B1 : bodyAccepted d1 = 0).
  { rewrite E1, bodyAccepted_app in K1b. lia. }
  set (tail := if negb ((fst (fst r) =? strlen data) && negb (snd (fst r)))
                  || (as_size_t (offset (snd r) + fst (fst r)) =? total)
               then [Armed HTTP_TIMEOUT_S] else []).
  assert (Bt : bodyAccepted tail = 0) by (unfold tail; destruct (_ || _); reflexivity).
  exists (fst (fst r)), (d0 ++ d1 ++ d2 ++ tail).
  assert (Bd : bodyAccepted (d0 ++ d1 ++ d2 ++ tail) = bodyAccepted d2).
  { rewrite !bodyAccepted_app. lia. }
  split; [|split; [|split; [|split]]].
  - destruct (_ =? total); rewrite ?flagSet_clear_other by exact Hpw;
      rewrite K2s, K1f, K0f; exact Hw.
  - rewrite K2o, K1o, K0o. reflexivity.
  - rewrite E2, E1, E0, <- !app_assoc. reflexivity.
  - rewrite Bd.
    pose proof (writeRounds_accounts data optional
                  (S (List.length (answers w1))) 0 false w1) as Ha.
    cbv zeta in Ha. fold (writeAll data optional w1) in Ha. fold r in Ha.
    rewrite Ha, E2, bodyAccepted_app. f_equal. lia.
  - intros Hsize Hh. rewrite Bd.
    apply Forall_app in Hh. destruct Hh as [_ Hh].
    apply Forall_app in Hh. destruct Hh as [_ Hh].
    apply Forall_app in Hh. destruct Hh as [Hh _].
    pose proof (writeRounds_honest data optional Hsize
                  (S (List.length (answers w1))) 0 false w1 d2) as Hr.
    cbv zeta in Hr. fold (writeAll data optional w1) in Hr. fold r in Hr.
    unfold strlen in *. specialize (Hr E2 Hh). lia.
Qed.

Lemma internalEnd_offsetInv (data : string) (totalSize : Z)
      (optional allowContentLength : bool) :
  rel (holds offsetInv)
      (internalEnd data totalSize optional allowContentLength).
Proof.
  intros w [Hw Ho].
  destruct (internalEnd_fixed_summary data totalSize optional
              allowContentLength w Hw)
    as [written [delta [Hw' [Ho' [Etr [Hacc _]]]]]].
  split; [exact Hw'|].
  rewrite Ho', Etr, bodyAccepted_app, Ho. unfold as_size_t in *.
  rewrite Zplus_mod_idemp_l, <- Zplus_mod_idemp_r, Hacc, Zplus_mod_idemp_r.
  reflexivity.
Qed.

Lemma call_offsetInv (c : Call) :
  isEnding c = true -> rel (holds offsetInv) (call c).
Proof.
  destruct c; try discriminate; intros _; cbn [call].
  - unfold end_. apply rel_bind; [typeclasses eauto | |intros; apply rel_ret;
                                                       typeclasses eauto].
    apply internalEnd_offsetInv.
  - unfold tryEnd.
    apply rel_bind; [typeclasses eauto | |intros; apply rel_ret;
                                          typeclasses eauto].
    apply rel_bind; [typeclasses eauto | apply internalEnd_offsetInv |].
    intros ok. rel_walk leaf_keeps.
Qed.

Lemma calls_offsetInv (cs : list Call) (w0 : World) :
  fresh w0 -> forallb isEnding cs = true -> offsetInv (after (calls cs) w0).
Proof.
  intros [_ [Hw [_ [Ho Htr]]]] Hcs.
  apply (calls_rel (holds offsetInv) cs).
  - intros c Hin. apply call_offsetInv.
    rewrite forallb_forall in Hcs. apply Hcs, Hin.
  - split; [exact Hw|]. rewrite Ho, Htr. reflexivity.
Qed.

(** *** A second call of [end] on the fixed-length path *)

Lemma endHeaders_sets_end (totalSize : Z) (allowContentLength : bool)
      (w : World) :
  flagSet (state (after (endHeaders totalSize allowContentLength) w))
          HTTP_END_CALLED = true.
Proof.
  pose proof (independent_facts HF) as [[_ [_ [Hnz _]]] _].
  unfold endHeaders. rewrite after_bind. unfold testState at 1 2, after at 2.
  cbn [fst snd].
  destruct (flagSet (state w) HTTP_END_CALLED) eqn:He; cbn [negb when].
  - exact He.
  - rewrite after_bind, after_bind. unfold orState at 1, after at 1.
    cbn [snd state]. apply flagSet_lor_same, Hnz.
Qed.

Lemma endHeaders_called (totalSize : Z) (allowContentLength : bool)
      (w : World) :
  flagSet (state w) HTTP_END_CALLED = true ->
  endHeaders totalSize allowContentLength w = (tt, w).
Proof.
  intros He. unfold endHeaders. rewrite run_bind.
  unfold testState at 1 2, after. cbn [fst snd]. rewrite He. reflexivity.
Qed.

Lemma after_end (data : string) (w : World) :
  after (end_ data) w = after (internalEnd data (strlen data) false true) w.
Proof.
  unfold end_. rewrite after_bind. reflexivity.
Qed.

(** After [internalEnd] on the fixed-length path the status line and the
    header block are behind, and the response is still not chunked. *)
Lemma internalEnd_fixed_flags (data : string) (totalSize : Z)
      (optional allowContentLength : bool) (w : World) :
  flagSet (state w) HTTP_WRITE_CALLED = false ->
  let w' := after (internalEnd data totalSize optional allowContentLength) w in
  statusCalled w'
  /\ flagSet (state w') HTTP_END_CALLED = true
  /\ flagSet (state w') HTTP_WRITE_CALLED = false.
Proof.
  intros Hw. cbv zeta. split; [apply internalEnd_statusCalled, HF|].
  split.
  - pose proof (independent_facts HF) as [_ [_ [_ [_ Hep]]]].
    assert (Hpe : Z.land HTTP_RESPONSE_PENDING HTTP_END_CALLED = 0)
      by (rewrite Z.land_comm; exact Hep).
    unfold after at 1. rewrite internalEnd_fixed, endFixed_run by assumption.
    cbv zeta. rewrite endAccount_world. cbv zeta. cbn [snd state].
    set (w1 := after (endHeaders _ _) _).
    pose proof (writeAll_keeps_fields data optional w1) as K.
    unfold keeps, after in K. injection K as Ks _ _ _.
    destruct (_ =? _); rewrite ?flagSet_clear_other by exact Hpe;
      rewrite Ks; apply endHeaders_sets_end.
  - destruct (internalEnd_fixed_summary data totalSize optional
                allowContentLength w Hw) as [? [? [Hw' _]]].
    exact Hw'.
Qed.

Lemma end_again (w : World) :
  statusCalled w ->
  flagSet (state w) HTTP_END_CALLED = true ->
  flagSet (state w) HTTP_WRITE_CALLED = false ->
  exists tail,
    trace (after (end_ "") w) = trace w ++ tail
    /\ (tail = [] \/ tail = [Armed HTTP_TIMEOUT_S]).
Proof.
  intros Hc He Hw. rewrite after_end. unfold after.
  rewrite internalEnd_fixed by assumption.
  unfold after. rewrite writeStatus_called by exact Hc. cbn [snd].
  rewrite endFixed_run. cbv zeta. unfold after.
  rewrite endHeaders_called by exact He. cbn [snd].
  change (writeAll "" false w) with ((0, false), w). cbn [fst snd].
  rewrite endAccount_world. cbv zeta. cbn [snd trace].
  eexists. split; [reflexivity|].
  destruct (_ || _); [right | left]; reflexivity.
Qed.

End Offset.

Section OffsetClaims.

Context {F : HttpResponseDataFlags}.

(** C5, as the code has it.  Take any sequence of [end] and [tryEnd] calls
    on a fresh response, split anywhere into [cs1] and [cs2].  The offset
    is the count of body bytes the socket reported as accepted (status line
    and headers not counted), modulo the width of [size_t].  If the socket
    never reported more than it was handed and that count fits [size_t],
    the offset is that count and has not decreased from [cs1] to the end.
    A further [internalEnd] whose data fits in what remains of the declared
    total keeps the offset at or below the declared total. *)
Theorem offset_counts_accepted_body (w0 : World) (cs1 cs2 : list Call) :
  independent F ->
  fresh w0 ->
  forallb isEnding (cs1 ++ cs2) = true ->
  let w1 := after (calls cs1) w0 in
  let w2 := after (calls (cs1 ++ cs2)) w0 in
  offset w2 = as_size_t (bodyAccepted (trace w2))
  /\ (Forall honest (trace w2) -> bodyAccepted (trace w2) < 2 ^ 64 ->
      offset w2 = bodyAccepted (trace w2) /\ offset w1 <= offset w2)
  /\ (forall data totalSize optional allowContentLength,
         let total := declaredTotal data totalSize in
         let w3 := after (internalEnd data totalSize optional
                                      allowContentLength) w2 in
         Forall honest (trace w3) ->
         strlen data < 2 ^ 64 -> total < 2 ^ 64 ->
         offset w2 + strlen data <= total ->
         offset w2 <= offset w3 <= total).
Proof.
  intros HF Hfresh Hcs. cbv zeta.
  pose proof (calls_offsetInv HF (cs1 ++ cs2) w0 Hfresh Hcs) as [Hw2 Ho2].
  rewrite forallb_app in Hcs. apply andb_true_iff in Hcs.
  destruct Hcs as [Hcs1 Hcs2].
  pose proof (calls_offsetInv HF cs1 w0 Hfresh Hcs1) as [Hw1 Ho1].
  split; [exact Ho2|]. split.
  - intros Hh Hfit.
    destruct (calls_logs cs2 (after (calls cs1) w0)) as [d [E _]].
    rewrite <- after_calls_app in E.
    rewrite E in Hh, Hfit. apply Forall_app in Hh. destruct Hh as [Hh1 Hhd].
    apply honest_bodyAccepted in Hh1, Hhd.
    rewrite bodyAccepted_app in Hfit.
    rewrite Ho2, Ho1, E, bodyAccepted_app. unfold as_size_t.
    rewrite !Z.mod_small by lia. lia.
  - intros data totalSize optional allowContentLength Hh Hsize Htotal Hroom.
    destruct (internalEnd_fixed_summary HF data totalSize optional
                allowContentLength _ Hw2)
      as [written [delta [_ [Ho3 [E3 [_ Hbound]]]]]].
    rewrite E3 in Hh. apply Forall_app in Hh. destruct Hh as [_ Hh].
    destruct (Hbound Hsize Hh) as [_ Hwr].
    assert (H0 : 0 <= offset (after (calls (cs1 ++ cs2)) w0)).
    { rewrite Ho2. apply Z.mod_pos_bound. reflexivity. }
    rewrite Ho3. unfold as_size_t. rewrite Z.mod_small by lia. lia.
Qed.

(** C9, as the code has it.  On a response that is not in chunked mode,
    [end()] after [end()] issues no write: the bytes handed to the socket
    are those of the first call.  (The second call may arm the timeout
    again.) *)
Theorem end_twice_fixed_same_wire (w : World) :
  independent F ->
  flagSet (state w) HTTP_WRITE_CALLED = false ->
  let w1 := after (end_ "") w in
  issued (added (end_ "") w1) = []
  /\ wire (trace (after (calls [CallEnd ""; CallEnd ""]) w)) = wire (trace w1).
Proof.
  intros HF Hw. cbv zeta.
  assert (Hflags : statusCalled (after (end_ "") w)
                   /\ flagSet (state (after (end_ "") w)) HTTP_END_CALLED = true
                   /\ flagSet (state (after (end_ "") w)) HTTP_WRITE_CALLED
                      = false).
  { rewrite after_end. apply internalEnd_fixed_flags; assumption. }
  destruct Hflags as [Hc [He Hw1]].
  destruct (end_again HF _ Hc He Hw1) as [tail [E Htail]].
  assert (Hcalls : after (calls [CallEnd ""; CallEnd ""]) w
                   = after (end_ "") (after (end_ "") w)).
  { cbn [calls call]. rewrite !after_bind. reflexivity. }
  rewrite Hcalls, (added_app _ _ _ E), E, wire_app.
  destruct Htail as [-> | ->]; cbn [issued wire bytesOf append];
    (split; [reflexivity | apply append_empty_r]).
Qed.

End OffsetClaims.

Lemma honestb_honest (tr : list Event) :
  forallb honestb tr = true -> Forall honest tr.
Proof.
  induction tr as [|e tr IH]; [constructor|].
  cbn [forallb]. intros Hb. apply andb_true_iff in Hb. destruct Hb as [He Htr].
  constructor; [|exact (IH Htr)].
  destruct e as [site buf len opt [n f]|s]; cbn [honest honestb] in *;
    [|exact I].
  apply andb_true_iff in He. destruct He as [H0 Hn].
  apply Z.leb_le in H0, Hn. lia.
Qed.

(** C5, the claim as stated fails: [end("abc")] declares a total of 3; a
    second [end("abc")] is written out as well, and the offset is 6.  The
    socket is one that takes every write in full. *)
Lemma offset_exceeds_declared_total :
  Forall honest (trace endedTwice)
  /\ wire (trace endedTwice)
     = ("HTTP/1.1 200 OK" ++ CRLF ++ "uWebSockets: 18" ++ CRLF
        ++ "Content-Length: 3" ++ CRLF ++ CRLF ++ "abcabc")%string
  /\ offset endedTwice = 6
  /\ ~ offset endedTwice <= declaredTotal "abc" (strlen "abc").
Proof.
  split; [|split; [|split]].
  - apply honestb_honest. vm_compute. reflexivity.
  - vm_compute. reflexivity.
  - vm_compute. reflexivity.
  - intros Hle. apply Hle. vm_compute. reflexivity.
Qed.

(** C9, the claim as stated fails: in chunked mode a second [end()] hands
    the terminating chunk to the socket once more. *)
Lemma second_end_repeats_terminating_chunk :
  wire (trace (after (end_ (F := bits1248) "") chunkedEnded))
  = (wire (trace chunkedEnded) ++ terminatingChunk)%string
  /\ wire (trace (after (end_ (F := bits1248) "") chunkedEnded))
     <> wire (trace chunkedEnded).
Proof.
  split; [reflexivity|]. vm_compute. discriminate.
Qed.

(** C3, the failing input: the [uint64_t] overload of [writeHeader] as the
    first call puts a header line on the wire while HTTP_STATUS_CALLED is
    clear and no status line has been written.  (Without that overload the
    status line does come first: [status_first_without_u64_header].) *)
Lemma header_u64_before_status :
  flagSet (state headerFirst) (HTTP_STATUS_CALLED (HttpResponseDataFlags := bits1248))
  = false
  /\ statusWrites (trace headerFirst) = []
  /\ statusFirst (trace headerFirst) = false
  /\ issued (trace headerFirst)
     = [(HeaderLine, "Content-Length", 14); (HeaderLine, ": ", 2);
        (HeaderLine, "5", 1); (HeaderLine, CRLF, 2)]
  /\ wire (trace headerFirst) = ("Content-Length: 5" ++ CRLF)%string.
Proof.
  repeat split; reflexivity.
Qed.

(* ===================================================================== *)
(** * upgrade: the compression negotiation *)

Lemma land_lor_absorb (a b : Z) : Z.land (Z.lor a b) b = b.
Proof.
  apply Z.bits_inj'. intros n Hn.
  rewrite Z.land_spec, Z.lor_spec.
  destruct (Z.testbit a n), (Z.testbit b n); reflexivity.
Qed.

Section Negotiation.

Context {F : HttpResponseDataFlags} {O : Options} {C : CompressOptions}
        {N : ExtensionsNegotiator} {H : WebSocketHandshake}.

Lemma wantedOptions_client (compression : Z) :
  Z.land (wantedOptions compression) CLIENT_NO_CONTEXT_TAKEOVER
  = CLIENT_NO_CONTEXT_TAKEOVER.
Proof.
  unfold wantedOptions. cbv zeta.
  destruct (compression =? SHARED_COMPRESSOR).
  - rewrite <- Z.lor_assoc, (Z.lor_comm CLIENT_NO_CONTEXT_TAKEOVER),
      Z.lor_assoc. apply land_lor_absorb.
  - apply land_lor_absorb.
Qed.

(** The negotiation, when it takes place: the header for an offer that is
    not empty, and the two arguments of [webSocket->init]. *)
Lemma negotiateCompression_run (compression : Z)
      (secWebSocketExtensions : string) (w : World) :
  (compression =? DISABLED) = false ->
  (strlen secWebSocketExtensions =? 0) = false ->
  let counter :=
    generateOffer (readOffer (construct (wantedOptions compression))
                             secWebSocketExtensions) in
  let negotiated := getNegotiatedOptions (snd counter) in
  negotiateCompression compression secWebSocketExtensions w
  = ((flagSet negotiated PERMESSAGE_DEFLATE,
      if flagSet negotiated SERVER_NO_CONTEXT_TAKEOVER
      then Z.land compression SHARED_COMPRESSOR else compression),
     if strlen (fst counter) =? 0 then w
     else after (writeHeader "Sec-WebSocket-Extensions"
                   (extensionsValue compression (fst counter))) w).
Proof.
  intros Hen Hext. cbv zeta. unfold negotiateCompression.
  rewrite Hen, Hext. cbn [negb].
  destruct (generateOffer _) as [offer n]. cbn [fst snd].
  rewrite run_bind. cbn [ret].
  destruct (flagSet (getNegotiatedOptions n) SERVER_NO_CONTEXT_TAKEOVER);
    cbn [negb]; destruct (strlen offer =? 0); reflexivity.
Qed.

Lemma upgrade_result (secWebSocketKey secWebSocketProtocol
                      secWebSocketExtensions : string) (compression : Z)
      (w : World) :
  exists w',
    fst (upgrade secWebSocketKey secWebSocketProtocol secWebSocketExtensions
                 compression w)
    = fst (negotiateCompression compression secWebSocketExtensions w').
Proof.
  unfold upgrade. rewrite !fst_bind. cbn [ret fst]. eexists. reflexivity.
Qed.

(** C7.  An upgrade with compression enabled and an extensions offer that is
    not empty.  The options the negotiator is constructed with include
    CLIENT_NO_CONTEXT_TAKEOVER.  The [perMessageDeflate] given to the new
    socket is true exactly when the negotiated options include
    PERMESSAGE_DEFLATE.  Its [compressOptions] are
    [compression & SHARED_COMPRESSOR] when the negotiated options include
    SERVER_NO_CONTEXT_TAKEOVER, and the configured [compression]
    otherwise. *)
Theorem upgrade_compression_mode
        (secWebSocketKey secWebSocketProtocol secWebSocketExtensions : string)
        (compression : Z) (w : World) :
  compression <> DISABLED ->
  secWebSocketExtensions <> "" ->
  let wanted := wantedOptions compression in
  let negotiated :=
    getNegotiatedOptions
      (snd (generateOffer (readOffer (construct wanted)
                                     secWebSocketExtensions))) in
  let init := fst (upgrade secWebSocketKey secWebSocketProtocol
                           secWebSocketExtensions compression w) in
  Z.land wanted CLIENT_NO_CONTEXT_TAKEOVER = CLIENT_NO_CONTEXT_TAKEOVER
  /\ (fst init = true <-> Z.land negotiated PERMESSAGE_DEFLATE <> 0)
  /\ (Z.land negotiated SERVER_NO_CONTEXT_TAKEOVER <> 0 ->
      snd init = Z.land compression SHARED_COMPRESSOR)
  /\ (Z.land negotiated SERVER_NO_CONTEXT_TAKEOVER = 0 ->
      snd init = compression).
Proof.
  intros Hen Hext. cbv zeta.
  split; [apply wantedOptions_client|].
  destruct (upgrade_result secWebSocketKey secWebSocketProtocol
              secWebSocketExtensions compression w) as [w' E].
  rewrite E, negotiateCompression_run.
  - cbv zeta. cbn [fst snd]. split; [apply flagSet_true_iff|]. split.
    + intros Hs. apply flagSet_true_iff in Hs. rewrite Hs. reflexivity.
    + intros Hs. apply flagSet_false_iff in Hs. rewrite Hs. reflexivity.
  - apply Z.eqb_neq, Hen.
  - apply Z.eqb_neq. unfold strlen.
    destruct secWebSocketExtensions; [congruence | discriminate].
Qed.

Lemma tiersWellFormed_facts :
  tiersWellFormed C ->
  NoDup [DEDICATED_COMPRESSOR_8KB; DEDICATED_COMPRESSOR_16KB;
         DEDICATED_COMPRESSOR_32KB; DEDICATED_COMPRESSOR_64KB;
         DEDICATED_COMPRESSOR_128KB; DEDICATED_COMPRESSOR_256KB]
  /\ (forall tier, namedTier tier = true ->
                   flagSet tier DEDICATED_COMPRESSOR = true)
  /\ flagSet SHARED_COMPRESSOR DEDICATED_COMPRESSOR = false.
Proof.
  unfold tiersWellFormed, tiersWellFormedb. intros Hwf.
  apply andb_true_iff in Hwf. destruct Hwf as [Hwf Hshared].
  apply andb_true_iff in Hwf. destruct Hwf as [Hdistinct Hbits].
  split; [|split].
  - revert Hdistinct. generalize [DEDICATED_COMPRESSOR_8KB; DEDICATED_COMPRESSOR_16KB;
         DEDICATED_COMPRESSOR_32KB; DEDICATED_COMPRESSOR_64KB;
         DEDICATED_COMPRESSOR_128KB; DEDICATED_COMPRESSOR_256KB].
    intros l. induction l as [|x l IH]; intros Hd; [constructor|].
    cbn [distinctb] in Hd. apply andb_true_iff in Hd. destruct Hd as [Hx Hl].
    constructor; [|exact (IH Hl)].
    intros Hin. apply negb_true_iff in Hx.
    assert (Ht : existsb (Z.eqb x) l = true).
    { apply existsb_exists. exists x. split; [exact Hin | apply Z.eqb_refl]. }
    congruence.
  - intros tier Hn. unfold namedTier in Hn.
    apply existsb_exists in Hn. destruct Hn as [t [Hin Ht]].
    apply Z.eqb_eq in Ht. subst t.
    rewrite forallb_forall in Hbits. apply Hbits, Hin.
  - apply negb_true_iff, Hshared.
Qed.

(** Lines 241-266 on their own: the value [extensionsValue] makes of the
    counter-offer [offer] of the negotiator, tier by tier, and the header
    [negotiateCompression] writes with it when the counter-offer is not
    empty. *)
Lemma extensionsValue_by_tier (compression : Z)
        (secWebSocketExtensions : string) (w : World) :
  tiersWellFormed C ->
  let offer :=
    fst (generateOffer (readOffer (construct (wantedOptions compression))
                                  secWebSocketExtensions)) in
  let sent := extensionsValue compression offer in
  let suffix n := (offer ++ "; server_max_window_bits=" ++ n)%string in
  ((compression = DEDICATED_COMPRESSOR_8KB -> sent = suffix "10")
   /\ (compression = DEDICATED_COMPRESSOR_16KB -> sent = suffix "11")
   /\ (compression = DEDICATED_COMPRESSOR_32KB -> sent = suffix "12")
   /\ (compression = DEDICATED_COMPRESSOR_64KB -> sent = suffix "13")
   /\ (compression = DEDICATED_COMPRESSOR_128KB -> sent = suffix "14")
   /\ (Z.land compression DEDICATED_COMPRESSOR <> 0 ->
       namedTier compression = false ->
       compression <> DEDICATED_COMPRESSOR_256KB -> sent = suffix "9"))
  /\ (compression = DEDICATED_COMPRESSOR_256KB -> sent = offer)
  /\ (compression = SHARED_COMPRESSOR -> sent = offer)
  /\ (compression <> DISABLED -> secWebSocketExtensions <> "" ->
      after (negotiateCompression compression secWebSocketExtensions) w
      = if strlen offer =? 0 then w
        else after (writeHeader "Sec-WebSocket-Extensions" sent) w).
Proof.
  intros Hwf. cbv zeta.
  destruct (tiersWellFormed_facts Hwf) as [Hnd [Hbits Hshared]].
  set (offer := fst (generateOffer _)).
  assert (Hne : forall tier, namedTier tier = true ->
                             (tier =? DEDICATED_COMPRESSOR_256KB) = false).
  { intros tier Hn. apply Z.eqb_neq. intros ->.
    unfold namedTier in Hn. apply existsb_exists in Hn.
    destruct Hn as [t [Hin Ht]]. apply Z.eqb_eq in Ht. subst t.
    apply (NoDup_remove_2 [_; _; _; _; _] [] _) in Hnd.
    rewrite app_nil_r in Hnd. contradiction. }
  assert (Hnamed : forall tier n,
             namedTier tier = true ->
             maxServerWindowBits tier = n ->
             extensionsValue tier offer
             = (offer ++ "; server_max_window_bits=" ++ to_string n)%string).
  { intros tier n Hn <-. unfold extensionsValue.
    rewrite (Hbits tier Hn), (Hne tier Hn). reflexivity. }
  inversion Hnd as [|x1 l1 Hn1 Hnd1]; subst.
  inversion Hnd1 as [|x2 l2 Hn2 Hnd2]; subst.
  inversion Hnd2 as [|x3 l3 Hn3 Hnd3]; subst.
  inversion Hnd3 as [|x4 l4 Hn4 Hnd4]; subst.
  cbn [In] in Hn1, Hn2, Hn3, Hn4.
  assert (Heqb : forall a b : Z, a <> b -> (b =? a) = false)
    by (intros a b Hab; apply Z.eqb_neq; congruence).
  split; [repeat split|split; [|split]].
  - intros ->. apply (Hnamed _ 10).
    + unfold namedTier. cbn [existsb]. rewrite Z.eqb_refl. reflexivity.
    + unfold maxServerWindowBits. rewrite Z.eqb_refl. reflexivity.
  - intros ->. apply (Hnamed _ 11).
    + unfold namedTier. cbn [existsb]. rewrite Z.eqb_refl, !orb_true_r.
      reflexivity.
    + unfold maxServerWindowBits. rewrite Z.eqb_refl.
      rewrite (Heqb DEDICATED_COMPRESSOR_8KB) by (intuition congruence). reflexivity.
  - intros ->. apply (Hnamed _ 12).
    + unfold namedTier. cbn [existsb]. rewrite Z.eqb_refl, !orb_true_r.
      reflexivity.
    + unfold maxServerWindowBits. rewrite Z.eqb_refl.
      rewrite (Heqb DEDICATED_COMPRESSOR_8KB) by (intuition congruence).
      rewrite (Heqb DEDICATED_COMPRESSOR_16KB) by (intuition congruence). reflexivity.
  - intros ->. apply (Hnamed _ 13).
    + unfold namedTier. cbn [existsb]. rewrite Z.eqb_refl, !orb_true_r.
      reflexivity.
    + unfold maxServerWindowBits. rewrite Z.eqb_refl.
      rewrite (Heqb DEDICATED_COMPRESSOR_8KB) by (intuition congruence).
      rewrite (Heqb DEDICATED_COMPRESSOR_16KB) by (intuition congruence).
      rewrite (Heqb DEDICATED_COMPRESSOR_32KB) by (intuition congruence). reflexivity.
  - intros ->. apply (Hnamed _ 14).
    + unfold namedTier. cbn [existsb]. rewrite Z.eqb_refl, !orb_true_r.
      reflexivity.
    + unfold maxServerWindowBits. rewrite Z.eqb_refl.
      rewrite (Heqb DEDICATED_COMPRESSOR_8KB) by (intuition congruence).
      rewrite (Heqb DEDICATED_COMPRESSOR_16KB) by (intuition congruence).
      rewrite (Heqb DEDICATED_COMPRESSOR_32KB) by (intuition congruence).
      rewrite (Heqb DEDICATED_COMPRESSOR_64KB) by (intuition congruence). reflexivity.
  - intros Hded Hun H256. unfold extensionsValue, maxServerWindowBits.
    apply flagSet_true_iff in Hded. rewrite Hded.
    apply Z.eqb_neq in H256. rewrite H256.
    unfold namedTier in Hun. cbn [existsb] in Hun.
    repeat (apply orb_false_iff in Hun; destruct Hun as [?E Hun]).
    rewrite E, E0, E1, E2, E3. reflexivity.
  - intros ->. unfold extensionsValue. rewrite Z.eqb_refl, andb_false_r.
    reflexivity.
  - intros ->. unfold extensionsValue. rewrite Hshared. reflexivity.
  - intros Hen Hext. unfold after at 1.
    rewrite negotiateCompression_run.
    + cbv zeta. cbn [snd]. reflexivity.
    + apply Z.eqb_neq, Hen.
    + apply Z.eqb_neq. unfold strlen.
      destruct secWebSocketExtensions; [congruence | discriminate].
Qed.

End Negotiation.

(* ===================================================================== *)
(** * The theorems at work on runs of the model *)

Lemma fresh_start (script : list Answer) :
  fresh (F := bits1248) (start (F := bits1248) script).
Proof. repeat split. Defined.

Lemma fixed_end_arms_timeout_witness :
  independent bits1248
  /\ flagSet (state opened) (HTTP_WRITE_CALLED (HttpResponseDataFlags := bits1248))
     = false
  /\ (offset (after (internalEnd (F := bits1248) "abc" 0 true true) opened)
      = declaredTotal "abc" 0 ->
      timeouts (added (internalEnd (F := bits1248) "abc" 0 true true) opened)
      = 1%nat).
Proof.
  assert (HF : independent bits1248) by reflexivity.
  assert (Hw : flagSet (state opened)
                       (HTTP_WRITE_CALLED (HttpResponseDataFlags := bits1248))
               = false) by reflexivity.
  split; [exact HF|]. split; [exact Hw|].
  pose proof (fixed_end_arms_timeout (F := bits1248) "abc" 0 true true opened
                HF Hw) as Hthm.
  cbv zeta in Hthm. destruct Hthm as [_ [Hfull _]].
  apply Hfull; vm_compute; reflexivity.
Defined.

Lemma one_status_line_witness :
  independent bits1248
  /\ fresh (F := bits1248) opened
  /\ (statusWrites
        (trace (after (calls (F := bits1248)
                         [CallWriteStatus "404 Not Found";
                          CallWriteStatus "500 Internal Server Error";
                          CallWriteHeader "Server" "uWS"]) opened)) = []
      \/ exists status,
          statusWrites
            (trace (after (calls (F := bits1248)
                             [CallWriteStatus "404 Not Found";
                              CallWriteStatus "500 Internal Server Error";
                              CallWriteHeader "Server" "uWS"]) opened))
          = statusLine status).
Proof.
  assert (HF : independent bits1248) by reflexivity.
  split; [exact HF|]. split; [apply fresh_start|].
  exact (proj1 (one_status_line (F := bits1248) opened
                  [CallWriteStatus "404 Not Found";
                   CallWriteStatus "500 Internal Server Error";
                   CallWriteHeader "Server" "uWS"]
                  HF (fresh_start _))).
Defined.

Lemma reachable_chunkedOpen : reachable (F := bits1248) chunkedOpen.
Proof.
  exists (start (F := bits1248)
                (acceptsAll [9; 6; 2; 11; 2; 2; 2; 17; 2; 7; 2; 2; 1; 2; 1])),
    [CallWrite "x"].
  split; [apply fresh_start | reflexivity].
Defined.

Lemma zero_chunk_below_4GiB_witness :
  independent bits1248
  /\ reachable (F := bits1248) chunkedOpen
  /\ flagSet (state chunkedOpen)
             (HTTP_WRITE_CALLED (HttpResponseDataFlags := bits1248)) = true
  /\ write (F := bits1248) "" chunkedOpen = (true, chunkedOpen).
Proof.
  assert (HF : independent bits1248) by reflexivity.
  assert (Hw : flagSet (state chunkedOpen)
                       (HTTP_WRITE_CALLED (HttpResponseDataFlags := bits1248))
               = true) by (vm_compute; reflexivity).
  split; [exact HF|]. split; [apply reachable_chunkedOpen|].
  split; [exact Hw|].
  exact (proj1 (zero_chunk_below_4GiB (F := bits1248) chunkedOpen HF
                  reachable_chunkedOpen Hw)).
Defined.

Lemma offset_counts_accepted_body_witness :
  independent bits1248
  /\ fresh (F := bits1248) opened
  /\ forallb (isEnding (F := bits1248))
             ([CallTryEnd "a" 3] ++ [CallTryEnd "bc" 3]) = true
  /\ offset (after (calls (F := bits1248)
                      ([CallTryEnd "a" 3] ++ [CallTryEnd "bc" 3])) opened)
     = as_size_t
         (bodyAccepted
            (trace (after (calls (F := bits1248)
                             ([CallTryEnd "a" 3] ++ [CallTryEnd "bc" 3]))
                          opened))).
Proof.
  assert (HF : independent bits1248) by reflexivity.
  assert (Hcs : forallb (isEnding (F := bits1248))
                        ([CallTryEnd "a" 3] ++ [CallTryEnd "bc" 3]) = true)
    by reflexivity.
  split; [exact HF|]. split; [apply fresh_start|]. split; [exact Hcs|].
  exact (proj1 (offset_counts_accepted_body (F := bits1248) opened
                  [CallTryEnd "a" 3] [CallTryEnd "bc" 3]
                  HF (fresh_start _) Hcs)).
Defined.

Lemma done_clears_callbacks_and_pending_witness :
  flagSet (state opened) (HTTP_WRITE_CALLED (HttpResponseDataFlags := bits1248))
  = false
  /\ offset (after (internalEnd (F := bits1248) "abc" 3 false true) opened)
     = declaredTotal "abc" 3
  /\ done (F := bits1248)
          (after (internalEnd (F := bits1248) "abc" 3 false true) opened).
Proof.
  assert (Hw : flagSet (state opened)
                       (HTTP_WRITE_CALLED (HttpResponseDataFlags := bits1248))
               = false) by reflexivity.
  assert (Ho : offset (after (internalEnd (F := bits1248) "abc" 3 false true)
                             opened)
               = declaredTotal "abc" 3) by (vm_compute; reflexivity).
  split; [exact Hw|]. split; [exact Ho|].
  exact (proj2 (done_clears_callbacks_and_pending (F := bits1248) "abc" 3
                  false true opened) Hw Ho).
Defined.

Lemma end_twice_fixed_same_wire_witness :
  independent bits1248
  /\ flagSet (state opened) (HTTP_WRITE_CALLED (HttpResponseDataFlags := bits1248))
     = false
  /\ issued (added (end_ (F := bits1248) "")
                   (after (end_ (F := bits1248) "") opened)) = [].
Proof.
  assert (HF : independent bits1248) by reflexivity.
  assert (Hw : flagSet (state opened)
                       (HTTP_WRITE_CALLED (HttpResponseDataFlags := bits1248))
               = false) by reflexivity.
  split; [exact HF|]. split; [exact Hw|].
  exact (proj1 (end_twice_fixed_same_wire (F := bits1248) opened HF Hw)).
Defined.

Lemma chunked_end_ignores_optional_witness :
  flagSet (state chunkedOpen)
          (HTTP_WRITE_CALLED (HttpResponseDataFlags := bits1248)) = true
  /\ fst (tryEnd (F := bits1248) "tail" 0 chunkedOpen) = (true, true).
Proof.
  assert (Hw : flagSet (state chunkedOpen)
                       (HTTP_WRITE_CALLED (HttpResponseDataFlags := bits1248))
               = true) by (vm_compute; reflexivity).
  split; [exact Hw|].
  exact (proj2 (proj2 (chunked_end_ignores_optional (F := bits1248) "tail" 0
                         true true chunkedOpen Hw))).
Defined.

Lemma upgrade_compression_mode_witness :
  DEDICATED_COMPRESSOR_8KB (CompressOptions := sampleCompressOptions)
  <> DISABLED (CompressOptions := sampleCompressOptions)
  /\ "permessage-deflate; client_max_window_bits" <> ""
  /\ Z.land (wantedOptions (O := sampleOptions) (C := sampleCompressOptions)
               (DEDICATED_COMPRESSOR_8KB
                  (CompressOptions := sampleCompressOptions)))
            (CLIENT_NO_CONTEXT_TAKEOVER (Options := sampleOptions))
     = CLIENT_NO_CONTEXT_TAKEOVER (Options := sampleOptions).
Proof.
  assert (Hen : DEDICATED_COMPRESSOR_8KB
                  (CompressOptions := sampleCompressOptions)
                <> DISABLED (CompressOptions := sampleCompressOptions))
    by discriminate.
  assert (Hext : "permessage-deflate; client_max_window_bits" <> "")
    by discriminate.
  split; [exact Hen|]. split; [exact Hext|].
  exact (proj1 (upgrade_compression_mode (F := bits1248) (O := sampleOptions)
                  (C := sampleCompressOptions) (N := grantingNegotiator)
                  (H := fixtureHandshake)
                  "dGhlIHNhbXBsZSBub25jZQ==" ""
                  "permessage-deflate; client_max_window_bits"
                  (DEDICATED_COMPRESSOR_8KB
                     (CompressOptions := sampleCompressOptions))
                  (start (F := bits1248) []) Hen Hext)).
Defined.

(* ===================================================================== *)
(** * Strings and casts *)

Lemma append_assoc (s1 s2 s3 : string) :
  ((s1 ++ s2) ++ s3)%string = (s1 ++ s2 ++ s3)%string.
Proof.
  induction s1 as [|c s1 IH]; cbn; [reflexivity | rewrite IH; reflexivity].
Qed.

Lemma length_append (s1 s2 : string) :
  String.length (s1 ++ s2) = (String.length s1 + String.length s2)%nat.
Proof.
  induction s1 as [|c s1 IH]; cbn; [reflexivity | rewrite IH; reflexivity].
Qed.

Lemma strlen_append (s1 s2 : string) :
  strlen (s1 ++ s2) = strlen s1 + strlen s2.
Proof.
  unfold strlen. rewrite length_append. lia.
Qed.

Lemma strlen_nonneg (s : string) : 0 <= strlen s.
Proof. unfold strlen. lia. Qed.

Lemma strlen_zero (s : string) : strlen s = 0 -> s = "".
Proof.
  unfold strlen. destruct s; [reflexivity | cbn; lia].
Qed.

Lemma substring_whole (s : string) : substring 0 (String.length s) s = s.
Proof.
  induction s as [|c s IH]; cbn; [reflexivity | rewrite IH; reflexivity].
Qed.

(** The first [n] characters of [s1 ++ s2], for [n] the length of [s1]. *)
Lemma substring_append_left (s1 s2 : string) :
  substring 0 (String.length s1) (s1 ++ s2) = s1.
Proof.
  induction s1 as [|c s1 IH]; cbn.
  - destruct s2; reflexivity.
  - rewrite IH. reflexivity.
Qed.

Lemma skipn_string_append (s1 s2 : string) :
  skipn_string (String.length s1) (s1 ++ s2) = s2.
Proof.
  induction s1 as [|c s1 IH]; cbn; [reflexivity | exact IH].
Qed.

(** A prefix, and then a prefix of what is left, is a longer prefix. *)
Lemma substring_skipn (n m : nat) (s : string) :
  (substring 0 n s ++ substring 0 m (skipn_string n s))%string
  = substring 0 (n + m) s.
Proof.
  revert s. induction n as [|n IH]; intros s.
  - cbn [Nat.add skipn_string]. destruct s; reflexivity.
  - destruct s as [|c s]; cbn [substring skipn_string Nat.add append].
    + destruct m; reflexivity.
    + rewrite IH. reflexivity.
Qed.

Lemma as_int_small (x : Z) : 0 <= x <= INT_MAX -> as_int x = x.
Proof.
  unfold as_int, INT_MAX. intros Hx. rewrite Z.mod_small; lia.
Qed.

Lemma as_size_t_small (x : Z) : 0 <= x < 2 ^ 64 -> as_size_t x = x.
Proof. unfold as_size_t. apply Z.mod_small. Qed.

Lemma as_unsigned_small (x : Z) : 0 <= x < 2 ^ 32 -> as_unsigned x = x.
Proof. unfold as_unsigned. apply Z.mod_small. Qed.

(** A view no longer than INT_MAX is handed over whole. *)
Lemma handed_whole (s : string) :
  strlen s <= INT_MAX -> handed s (as_int (strlen s)) = s.
Proof.
  intros Hs. rewrite as_int_small by (pose proof (strlen_nonneg s); lia).
  unfold handed, strlen. rewrite Nat2Z.id. apply substring_whole.
Qed.

(* ===================================================================== *)
(** * What a call hands to the socket *)

#[local] Instance progress_PreOrder {F : HttpResponseDataFlags} :
  RelationClasses.PreOrder progress.
Proof.
  split.
  - intros w. unfold progress. tauto.
  - intros w1 w2 w3 H12 H23. unfold progress in *. tauto.
Qed.

Lemma emits_refl (w : World) : emits "" w w.
Proof.
  unfold emits. rewrite append_empty_r. repeat split.
Qed.

Lemma emits_trans (b1 b2 : string) (w1 w2 w3 : World) :
  emits b1 w1 w2 -> emits b2 w2 w3 -> emits (b1 ++ b2) w1 w3.
Proof.
  unfold emits. intros [E1 [T1 [O1 [A1 [W1 N1]]]]] [E2 [T2 [O2 [A2 [W2 N2]]]]].
  rewrite E2, E1, append_assoc. repeat split; congruence.
Qed.

Lemma Super_write_emits (site : Site) (buf : string) (len : Z)
      (optional : bool) (w : World) :
  emits (handed buf len) w (after (Super.write site buf len optional) w)
  /\ state (after (Super.write site buf len optional) w) = state w.
Proof.
  unfold emits, after, Super.write. cbn [snd trace state offset onAborted
                                           onWritable noMark].
  rewrite wire_app, timeouts_app. cbn [wire bytesOf timeouts filter isArmed
                                         List.length].
  rewrite append_empty_r, Nat.add_0_r. repeat split.
Qed.

Section Progress.

Context {F : HttpResponseDataFlags}.
Hypothesis HF : independent F.

Ltac leaf_progress :=
  pose proof (independent_facts HF) as [_ [[? [? ?]] [? [? ?]]]];
  pose proof (independent_status HF) as [? [? ?]];
  leaf_unfold; unfold progress; cbn [state];
  repeat match goal with
         | |- context [flagSet (Z.lor ?s ?f) ?g] =>
             rewrite (flagSet_lor_other s f g)
               by (assumption || (rewrite Z.land_comm; assumption))
         | |- context [flagSet (Z.land ?s (Z.lnot ?f)) ?g] =>
             rewrite (flagSet_clear_other s f g)
               by (assumption || (rewrite Z.land_comm; assumption))
         end;
  rewrite ?flagSet_clear_same;
  repeat split; intros; first [assumption | apply flagSet_lor_mono; assumption].

Lemma call_progress (c : Call) : rel progress (call c).
Proof. destruct c; rel_walk leaf_progress. Qed.

Lemma internalEnd_progress (data : string) (totalSize : Z)
      (optional allowContentLength : bool) :
  rel progress (internalEnd data totalSize optional allowContentLength).
Proof. rel_walk leaf_progress. Qed.

Lemma calls_progress (cs : list Call) : rel progress (calls cs).
Proof.
  apply calls_rel; [typeclasses eauto | intros c _; apply call_progress].
Qed.

End Progress.

(** X1.  Whatever calls are made on a response, in whatever state: a flag
    of progress that is set stays set (the status line, chunked mode and the
    header block are never taken back), and a response that is no longer
    pending never becomes pending again, so [hasResponded], once true,
    stays true. *)
Theorem progress_is_never_undone {F : HttpResponseDataFlags}
        (cs : list Call) (w : World) :
  independent F ->
  progress w (after (calls cs) w)
  /\ (fst (hasResponded w) = true ->
      fst (hasResponded (after (calls cs) w)) = true).
Proof.
  intros HF. pose proof (calls_progress HF cs w) as Hp.
  split; [exact Hp|].
  unfold hasResponded. rewrite !fst_bind. cbn [ret fst testState].
  unfold testState. cbn [fst]. rewrite !negb_true_iff.
  apply Hp.
Qed.

Section Emitting.

Context {F : HttpResponseDataFlags}.

Lemma writeStatus_run (status : string) (w : World) :
  strlen status <= INT_MAX ->
  emits (statusBytes status w) w (after (writeStatus status) w)
  /\ state (after (writeStatus status) w) = statusSet (state w).
Proof.
  intros Hs. unfold statusBytes, statusSet, emits. run_world.
  destruct (flagSet (state w) HTTP_STATUS_CALLED);
    cbn [snd trace state offset onAborted onWritable noMark].
  - rewrite append_empty_r. repeat split.
  - rewrite !wire_app, !timeouts_app.
    cbn [wire bytesOf timeouts filter isArmed List.length].
    rewrite (handed_whole status Hs), !append_empty_r, !append_assoc.
    rewrite !Nat.add_0_r. repeat split.
Qed.

Lemma statusSet_called (s : Z) :
  HTTP_STATUS_CALLED <> 0 -> flagSet (statusSet s) HTTP_STATUS_CALLED = true.
Proof.
  intros Hnz. unfold statusSet.
  destruct (flagSet s HTTP_STATUS_CALLED) eqn:Hc; [exact Hc|].
  apply flagSet_lor_same, Hnz.
Qed.

Lemma statusSet_other (s g : Z) :
  Z.land HTTP_STATUS_CALLED g = 0 ->
  flagSet (statusSet s) g = flagSet s g.
Proof.
  intros Hg. unfold statusSet.
  destruct (flagSet s HTTP_STATUS_CALLED); [reflexivity|].
  apply flagSet_lor_other, Hg.
Qed.

Lemma statusSet_idem (s : Z) :
  flagSet s HTTP_STATUS_CALLED = true -> statusSet s = s.
Proof. intros Hc. unfold statusSet. rewrite Hc. reflexivity. Qed.

(** [writeHeader(key, value)]: the default status line if none was written,
    then the header line. *)
Lemma writeHeader_run (key value : string) (w : World) :
  strlen key <= INT_MAX -> strlen value <= INT_MAX ->
  emits (defaultStatus w ++ headerLine key value) w
        (after (writeHeader key value) w)
  /\ state (after (writeHeader key value) w) = statusSet (state w).
Proof.
  intros Hk Hv. unfold writeHeader. rewrite after_bind.
  destruct (writeStatus_run HTTP_200_OK w) as [E0 S0]; [vm_compute; discriminate|].
  set (w0 := after (writeStatus HTTP_200_OK) w) in *.
  rewrite !after_bind.
  set (w1 := after (Super.write HeaderLine key (as_int (strlen key)) false) w0).
  set (w2 := after (Super.write HeaderLine ": " 2 false) w1).
  set (w3 := after (Super.write HeaderLine value (as_int (strlen value)) false) w2).
  set (w4 := after (Super.write HeaderLine CRLF 2 false) w3).
  destruct (Super_write_emits HeaderLine key (as_int (strlen key)) false w0)
    as [E1 S1].
  destruct (Super_write_emits HeaderLine ": " 2 false w1) as [E2 S2].
  destruct (Super_write_emits HeaderLine value (as_int (strlen value)) false w2)
    as [E3 S3].
  destruct (Super_write_emits HeaderLine CRLF 2 false w3) as [E4 S4].
  fold w1 in E1, S1. fold w2 in E2, S2. fold w3 in E3, S3. fold w4 in E4, S4.
  rewrite (handed_whole key Hk) in E1. rewrite (handed_whole value Hv) in E3.
  change (after (ret tt) w4) with w4. split.
  - pose proof (emits_trans _ _ _ _ _ E0
                  (emits_trans _ _ _ _ _ E1
                     (emits_trans _ _ _ _ _ E2
                        (emits_trans _ _ _ _ _ E3 E4)))) as E.
    exact E.
  - rewrite S4, S3, S2, S1. exact S0.
Qed.

Lemma writeHeader_called_run (key value : string) (w : World) :
  statusCalled w ->
  strlen key <= INT_MAX -> strlen value <= INT_MAX ->
  emits (headerLine key value) w (after (writeHeader key value) w)
  /\ state (after (writeHeader key value) w) = state w.
Proof.
  intros Hc Hk Hv. destruct (writeHeader_run key value w Hk Hv) as [E S].
  unfold defaultStatus in E. rewrite Hc in E.
  split; [exact E | rewrite S; apply statusSet_idem, Hc].
Qed.

Lemma headers_run (headers : list (string * string)) :
  forall w,
    statusCalled w ->
    Forall headerFits headers ->
    emits (headerLines headers) w (after (calls (headerCalls headers)) w)
    /\ state (after (calls (headerCalls headers)) w) = state w.
Proof.
  induction headers as [|[key value] headers IH]; intros w Hc Hfit.
  - split; [apply emits_refl | reflexivity].
  - inversion Hfit as [|kv l [Hk Hv] Hrest]; subst. cbn [fst snd] in Hk, Hv.
    cbn [headerLines].
    change (headerCalls ((key, value) :: headers))
      with (CallWriteHeader key value :: headerCalls headers).
    cbn [calls call]. rewrite after_bind.
    destruct (writeHeader_called_run key value w Hc Hk Hv) as [E1 S1].
    set (w1 := after (writeHeader key value) w) in *.
    assert (Hc1 : statusCalled w1) by (unfold statusCalled; rewrite S1; exact Hc).
    destruct (IH w1 Hc1 Hrest) as [E2 S2].
    split; [exact (emits_trans _ _ _ _ _ E1 E2) | rewrite S2; exact S1].
Qed.

End Emitting.

(** X2.  The head of a response.  On a response without a status line,
    [writeStatus(status)] followed by any list of [writeHeader(key, value)]
    calls hands the socket exactly the status line and the header lines, in
    the order of the calls, arms no timeout and leaves the offset and the
    callbacks alone.  Each string must fit the [int] length that
    [Super::write] takes. *)
Theorem response_head_format {F : HttpResponseDataFlags} (status : string)
        (headers : list (string * string)) (w : World) :
  independent F ->
  flagSet (state w) HTTP_STATUS_CALLED = false ->
  strlen status <= INT_MAX ->
  Forall headerFits headers ->
  emits ("HTTP/1.1 " ++ status ++ CRLF ++ headerLines headers) w
        (after (calls (CallWriteStatus status :: headerCalls headers)) w).
Proof.
  intros HF Hc Hs Hfit.
  pose proof (independent_facts HF) as [[Hnz _] _].
  cbn [calls call]. rewrite after_bind.
  destruct (writeStatus_run status w Hs) as [E0 S0].
  unfold statusBytes in E0. rewrite Hc in E0.
  set (w0 := after (writeStatus status) w) in *.
  assert (Hc0 : statusCalled w0).
  { unfold statusCalled. rewrite S0. apply statusSet_called, Hnz. }
  destruct (headers_run headers w0 Hc0 Hfit) as [E1 _].
  pose proof (emits_trans _ _ _ _ _ E0 E1) as E.
  rewrite !append_assoc in E. exact E.
Qed.

(* ===================================================================== *)
(** * write *)

Lemma handed_strlen (s : string) : handed s (strlen s) = s.
Proof.
  unfold handed, strlen. rewrite Nat2Z.id. apply substring_whole.
Qed.

Section Write.

Context {F : HttpResponseDataFlags}.

Lemma write_parts (data : string) (w : World) :
  write data w
  = let w0 := after (writeStatus HTTP_200_OK) w in
    if strlen data =? 0 then (true, w0)
    else writeChunk data (after enterChunked w0).
Proof.
  unfold write. rewrite run_bind. cbv zeta.
  destruct (strlen data =? 0); [reflexivity|].
  set (w0 := after (writeStatus HTTP_200_OK) w).
  unfold enterChunked, writeChunk, after, bind, testState. cbn [fst snd].
  destruct (when _ _ w0) as [u w1]. reflexivity.
Qed.

Lemma enterChunked_logs : rel (logs isSent) enterChunked.
Proof. rel_walk leaf_logs. Qed.

Lemma writeStatus_logs_sent (status : string) :
  rel (logs isSent) (writeStatus status).
Proof. rel_walk leaf_logs. Qed.

(** One chunk: the bytes, and what becomes of a failure. *)
Lemma writeChunk_run (data : string) (w : World) :
  let a := nextAnswer (tl (tl (tl (answers w)))) in
  let w' := after (writeChunk data) w in
  (exists delta,
      trace w'
      = trace w ++ delta
        ++ [Sent Payload data (as_int (strlen data)) false a]
        ++ (if snd a then [Armed HTTP_TIMEOUT_S] else [])
      /\ forallb isSent delta = true
      /\ wire delta
         = (CRLF ++ utils.u32toaHex (as_unsigned (strlen data)) ++ CRLF)%string)
  /\ fst (writeChunk data w) = negb (snd a)
  /\ state w' = state w /\ offset w' = offset w
  /\ onAborted w' = onAborted w /\ onWritable w' = onWritable w.
Proof.
  cbv zeta. unfold writeChunk. run_world.
  destruct (snd (nextAnswer (tl (tl (tl (answers w)))))) eqn:Ef;
    cbn [fst snd trace state offset onAborted onWritable];
    (split; [|repeat split]);
    eexists [_; _; _]; rewrite <- !app_assoc;
    (split; [reflexivity|]); (split; [reflexivity|]);
    cbn [wire bytesOf];
    rewrite (handed_strlen (utils.u32toaHex (as_unsigned (strlen data))));
    reflexivity.
Qed.

(** The switch to chunked mode, on a response whose status line is
    written. *)
Lemma enterChunked_run (w : World) :
  statusCalled w ->
  emits (chunkedHead w) w (after enterChunked w)
  /\ state (after enterChunked w)
     = if flagSet (state w) HTTP_WRITE_CALLED then state w
       else Z.lor (state w) HTTP_WRITE_CALLED.
Proof.
  intros Hc.
  assert (Hrun : after enterChunked w
                 = after (when (negb (flagSet (state w) HTTP_WRITE_CALLED))
                            (writeMark ;;
                             writeHeader "Transfer-Encoding" "chunked" ;;
                             orState HTTP_WRITE_CALLED)) w) by reflexivity.
  rewrite Hrun. clear Hrun. unfold chunkedHead, markLine.
  destruct (flagSet (state w) HTTP_WRITE_CALLED); cbn [negb when].
  - split; [apply emits_refl | reflexivity].
  - rewrite !after_bind.
    change (after writeMark w)
      with (after (when (negb (noMark w)) (writeHeader "uWebSockets" "18")) w).
    assert (Hmark : emits (if noMark w then ""
                           else ("uWebSockets: 18" ++ CRLF)%string) w
                          (after (when (negb (noMark w))
                                       (writeHeader "uWebSockets" "18")) w)
                    /\ state (after (when (negb (noMark w))
                                          (writeHeader "uWebSockets" "18")) w)
                       = state w).
    { destruct (noMark w); cbn [negb when].
      - split; [apply emits_refl | reflexivity].
      - apply (writeHeader_called_run "uWebSockets" "18" w Hc);
          vm_compute; discriminate. }
    destruct Hmark as [E1 S1].
    set (w1 := after (when (negb (noMark w)) (writeHeader "uWebSockets" "18")) w)
      in *.
    assert (Hc1 : statusCalled w1) by (unfold statusCalled; rewrite S1; exact Hc).
    destruct (writeHeader_called_run "Transfer-Encoding" "chunked" w1 Hc1)
      as [E2 S2]; [vm_compute; discriminate | vm_compute; discriminate |].
    set (w2 := after (writeHeader "Transfer-Encoding" "chunked") w1) in *.
    split.
    + pose proof (emits_trans _ _ _ _ _ E1 E2) as E.
      unfold emits in *. unfold after, orState.
      cbn [snd trace offset onAborted onWritable noMark]. exact E.
    + unfold after at 1, orState. cbn [snd state]. rewrite S2, S1. reflexivity.
Qed.

(** [write] as a whole: the bytes and the flags, for data empty or not. *)
Lemma write_run (data : string) (w : World) :
  independent F ->
  strlen data <= INT_MAX ->
  let w' := after (write data) w in
  wire (trace w')
  = (wire (trace w) ++ defaultStatus w
     ++ (if nonEmpty data then chunkedHead w ++ chunkBytes data else ""))%string
  /\ state w'
     = (if nonEmpty data
        then if flagSet (state w) HTTP_WRITE_CALLED then statusSet (state w)
             else Z.lor (statusSet (state w)) HTTP_WRITE_CALLED
        else statusSet (state w))
  /\ offset w' = offset w.
Proof.
  intros HF Hfit. cbv zeta.
  pose proof (independent_facts HF) as [[Hnz [Hnzw _]] [[Hsw _] _]].
  unfold after at 1 2 3. rewrite write_parts. cbv zeta.
  destruct (writeStatus_run HTTP_200_OK w) as [E0 S0];
    [vm_compute; discriminate|].
  set (w0 := after (writeStatus HTTP_200_OK) w) in *.
  change (statusBytes HTTP_200_OK w) with (defaultStatus w) in E0.
  unfold nonEmpty. destruct (strlen data =? 0) eqn:Hlen; cbn [negb snd].
  - destruct E0 as [W0 [_ [O0 _]]].
    rewrite append_empty_r. split; [exact W0 | split; [exact S0 | exact O0]].
  - assert (Hc0 : statusCalled w0).
    { unfold statusCalled. rewrite S0. apply statusSet_called, Hnz. }
    assert (Hw0 : flagSet (state w0) HTTP_WRITE_CALLED
                  = flagSet (state w) HTTP_WRITE_CALLED)
      by (rewrite S0; apply statusSet_other, Hsw).
    destruct (enterChunked_run w0 Hc0) as [E1 S1].
    set (w1 := after enterChunked w0) in *.
    pose proof (writeChunk_run data w1) as Hch. cbv zeta in Hch.
    destruct Hch as [[delta [Etr [_ Ewire]]] [_ [S2 [O2 _]]]].
    unfold after in Etr, S2, O2.
    assert (Hhead : chunkedHead w0 = chunkedHead w).
    { unfold chunkedHead, markLine. rewrite Hw0.
      destruct E0 as [_ [_ [_ [_ [_ N0]]]]]. rewrite N0. reflexivity. }
    destruct E0 as [W0 [_ [O0 _]]]. destruct E1 as [W1 [_ [O1 _]]].
    split; [|split].
    + rewrite Etr, !wire_app, Ewire, W1, W0, Hhead.
      assert (Htail : wire (if snd (nextAnswer (tl (tl (tl (answers w1)))))
                            then [Armed HTTP_TIMEOUT_S] else []) = "")
        by (destruct (snd (nextAnswer _)); reflexivity).
      rewrite Htail. cbn [wire bytesOf].
      rewrite (handed_whole data Hfit), !append_empty_r.
      unfold chunkBytes.
      rewrite as_unsigned_small
        by (pose proof (strlen_nonneg data); unfold INT_MAX in Hfit; lia).
      rewrite !append_assoc. reflexivity.
    + rewrite S2, S1, Hw0, S0. reflexivity.
    + rewrite O2, O1, O0. reflexivity.
Qed.

End Write.

(** X3.  The bytes of [write].  A call with data that is not empty (and fits
    the [int] length of [Super::write]) hands the socket: the default status
    line if the response has none yet; on the first such call the writemark
    (unless disabled) and Transfer-Encoding: chunked; then one chunk, framed
    as line end, size in hexadecimal, line end, data.  The response is in
    chunked mode afterwards and its offset is untouched. *)
Theorem write_format {F : HttpResponseDataFlags} (data : string) (w : World) :
  independent F ->
  data <> "" ->
  strlen data <= INT_MAX ->
  let w' := after (write data) w in
  wire (trace w')
  = (wire (trace w)
     ++ defaultStatus w ++ chunkedHead w ++ chunkBytes data)%string
  /\ flagSet (state w') HTTP_WRITE_CALLED = true
  /\ statusCalled w'
  /\ offset w' = offset w.
Proof.
  intros HF Hne Hfit. cbv zeta.
  pose proof (independent_facts HF) as [[Hnz [Hnzw _]] [[Hsw _] _]].
  assert (Hlen : nonEmpty data = true).
  { unfold nonEmpty. apply negb_true_iff, Z.eqb_neq.
    intros E. apply Hne, strlen_zero, E. }
  pose proof (write_run data w HF Hfit) as Hrun. cbv zeta in Hrun.
  rewrite Hlen in Hrun. destruct Hrun as [W [S O]].
  split; [exact W | split; [|split; [|exact O]]].
  - rewrite S. destruct (flagSet (state w) HTTP_WRITE_CALLED) eqn:Hw.
    + rewrite statusSet_other; assumption.
    + apply flagSet_lor_same, Hnzw.
  - unfold statusCalled. rewrite S.
    destruct (flagSet (state w) HTTP_WRITE_CALLED).
    + apply statusSet_called, Hnz.
    + apply flagSet_lor_mono, statusSet_called, Hnz.
Qed.

(** X4.  What [write] reports.  For data that is not empty, in any state of
    the response: the last write of the call hands the data to the socket,
    not optionally; [write] returns false exactly when the socket reported
    failure for that write, and arms the timeout once exactly then. *)
Theorem write_reports_failure {F : HttpResponseDataFlags} (data : string)
        (w : World) :
  data <> "" ->
  exists a delta,
    trace (after (write data) w)
    = trace w ++ delta
      ++ [Sent Payload data (as_int (strlen data)) false a]
      ++ (if snd a then [Armed HTTP_TIMEOUT_S] else [])
    /\ forallb isSent delta = true
    /\ fst (write data w) = negb (snd a)
    /\ timeouts (added (write data) w) = if snd a then 1%nat else 0%nat.
Proof.
  intros Hne.
  assert (Hlen : (strlen data =? 0) = false).
  { apply Z.eqb_neq. intros E. apply Hne, strlen_zero, E. }
  set (w0 := after (writeStatus HTTP_200_OK) w).
  set (w1 := after enterChunked w0).
  assert (Hrun : write data w = writeChunk data w1).
  { rewrite write_parts. cbv zeta. rewrite Hlen. reflexivity. }
  destruct (writeStatus_logs_sent HTTP_200_OK w) as [d0 [E0 P0]].
  destruct (enterChunked_logs w0) as [d1 [E1 P1]].
  fold w0 in E0. fold w1 in E1.
  pose proof (writeChunk_run data w1) as Hch. cbv zeta in Hch.
  destruct Hch as [[d2 [Etr [P2 _]]] [Hret _]].
  unfold after in Etr.
  set (a := nextAnswer (tl (tl (tl (answers w1))))) in *.
  exists a, (d0 ++ d1 ++ d2).
  assert (Htr : trace (after (write data) w)
                = trace w ++ (d0 ++ d1 ++ d2)
                  ++ [Sent Payload data (as_int (strlen data)) false a]
                  ++ (if snd a then [Armed HTTP_TIMEOUT_S] else [])).
  { unfold after. rewrite Hrun, Etr, E1, E0, <- !app_assoc. reflexivity. }
  assert (Hsent : forallb isSent (d0 ++ d1 ++ d2) = true).
  { rewrite !forallb_app, P0, P1, P2. reflexivity. }
  split; [exact Htr|]. split; [exact Hsent|].
  split; [rewrite Hrun; exact Hret|].
  rewrite (added_app _ w _ Htr), timeouts_app, (timeouts_sent _ Hsent).
  destruct (snd a); reflexivity.
Qed.

(* ===================================================================== *)
(** * end and tryEnd on the fixed-length path *)

Section FixedOutcome.

Context {F : HttpResponseDataFlags}.
Hypothesis HF : independent F.

Lemma writeStatus_keeps_callbacks (status : string) :
  rel (keeps (fun w => (onAborted w, onWritable w))) (writeStatus status).
Proof. rel_walk leaf_keeps. Qed.

Lemma endHeaders_keeps_callbacks (totalSize : Z) (allowContentLength : bool) :
  rel (keeps (fun w => (onAborted w, onWritable w)))
      (endHeaders totalSize allowContentLength).
Proof. rel_walk leaf_keeps. Qed.

(** Everything a caller can see of [internalEnd] on the fixed-length path,
    in terms of what the write loop ended with. *)
Lemma internalEnd_fixed_outcome (data : string) (totalSize : Z)
      (optional allowContentLength : bool) (w : World) :
  flagSet (state w) HTTP_WRITE_CALLED = false ->
  exists written failed,
    (failed = true \/ strlen data <= written)
    /\ fst (internalEnd data totalSize optional allowContentLength w)
       = (written =? strlen data) && negb failed
    /\ offset (after (internalEnd data totalSize optional allowContentLength) w)
       = as_size_t (offset w + written)
    /\ timeouts (added (internalEnd data totalSize optional allowContentLength)
                       w)
       = (if negb ((written =? strlen data) && negb failed)
             || (as_size_t (offset w + written)
                 =? declaredTotal data totalSize)
          then 1%nat else 0%nat)
    /\ flagSet (state (after (internalEnd data totalSize optional
                                allowContentLength) w))
               HTTP_RESPONSE_PENDING
       = (if as_size_t (offset w + written) =? declaredTotal data totalSize
          then false else flagSet (state w) HTTP_RESPONSE_PENDING)
    /\ (onAborted (after (internalEnd data totalSize optional
                            allowContentLength) w),
        onWritable (after (internalEnd data totalSize optional
                             allowContentLength) w))
       = (if as_size_t (offset w + written) =? declaredTotal data totalSize
          then (None, None) else (onAborted w, onWritable w)).
Proof.
  intros Hw.
  pose proof (independent_facts HF) as [_ [[Hsw [Hse Hsp]] [Hwe [Hwp Hep]]]].
  set (total := declaredTotal data totalSize).
  set (w0 := after (writeStatus HTTP_200_OK) w).
  set (w1 := after (endHeaders total allowContentLength) w0).
  set (r := writeAll data optional w1).
  exists (fst (fst r)), (snd (fst r)).
  assert (Hrun : internalEnd data totalSize optional allowContentLength w
                 = endAccount data total (fst (fst r)) (snd (fst r)) (snd r)).
  { rewrite internalEnd_fixed by assumption. rewrite endFixed_run. reflexivity. }
  pose proof (writeStatus_keeps_body HTTP_RESPONSE_PENDING Hsp HTTP_200_OK w)
    as K0.
  pose proof (endHeaders_keeps_body HTTP_RESPONSE_PENDING Hsp Hep total
                allowContentLength w0) as K1.
  pose proof (writeAll_keeps_fields data optional w1) as K2.
  pose proof (writeStatus_keeps_callbacks HTTP_200_OK w) as C0.
  pose proof (endHeaders_keeps_callbacks total allowContentLength w0) as C1.
  unfold keeps, bodyView in K0, K1, K2, C0, C1.
  fold w0 in K0, C0. fold w1 in K1, C1. unfold after in K2. fold r in K2.
  injection K0 as K0f K0o _ K0t. injection K1 as K1f K1o _ K1t.
  injection K2 as K2s K2o K2a K2w.
  injection C0 as C0a C0w. injection C1 as C1a C1w.
  destruct (writeAll_logs data optional w1) as [d2 [E2 P2]].
  unfold after in E2. fold r in E2.
  assert (T2 : timeouts (trace (snd r)) = timeouts (trace w)).
  { rewrite E2, timeouts_app, K1t, K0t.
    rewrite (timeouts_sent d2); [lia|].
    revert P2. apply forallb_weaken. intros [[] ? ? ? ?|?]; cbn; congruence. }
  assert (Ho : offset (snd r) = offset w) by congruence.
  split; [exact (writeAll_exit data optional w1)|].
  unfold added, after. rewrite Hrun, endAccount_world. cbv zeta.
  cbn [fst snd offset state onAborted onWritable trace]. rewrite Ho.
  split; [reflexivity|]. split; [reflexivity|]. split; [|split].
  - destruct (writeStatus_logs HTTP_200_OK w) as [d0 [E0 _]].
    destruct (endHeaders_logs total allowContentLength w0) as [d1 [E1 _]].
    fold w0 in E0. fold w1 in E1.
    rewrite E2, E1, E0, <- !app_assoc, skipn_app, skipn_all, Nat.sub_diag.
    cbn [skipn app].
    rewrite E2, E1, E0, <- !app_assoc, !timeouts_app in T2.
    rewrite !timeouts_app.
    destruct (_ || _); cbn [timeouts filter isArmed List.length]; lia.
  - destruct (_ =? total).
    + apply flagSet_clear_same.
    + rewrite K2s, K1f, K0f. reflexivity.
  - destruct (_ =? total); [reflexivity|].
    rewrite K2a, K2w, C1a, C1w, C0a, C0w. reflexivity.
Qed.

Lemma endChunked_timeouts (data : string) (w : World) :
  timeouts (trace (after (endChunked data) w)) = S (timeouts (trace w)).
Proof.
  run_world. destruct (negb (strlen data =? 0)); cbn [snd trace];
    rewrite !timeouts_app; cbn [timeouts filter isArmed List.length]; lia.
Qed.

Lemma internalEnd_chunked_timeouts (data : string) (totalSize : Z)
      (optional allowContentLength : bool) (w : World) :
  flagSet (state w) HTTP_WRITE_CALLED = true ->
  timeouts (added (internalEnd data totalSize optional allowContentLength) w)
  = 1%nat.
Proof.
  intros Hw.
  pose proof (endChunked_timeouts data (after (writeStatus HTTP_200_OK) w))
    as Ht.
  pose proof (writeStatus_keeps_body 0 (Z.land_0_r _) HTTP_200_OK w) as K.
  unfold keeps, bodyView in K. injection K as _ _ _ Kt.
  rewrite Kt in Ht.
  assert (Hlogs : rel (logs anyEvent)
                      (internalEnd data totalSize optional allowContentLength))
    by rel_walk leaf_logs.
  destruct (Hlogs w) as [delta [Etr _]].
  rewrite (added_app _ w _ Etr).
  assert (Hm : after (internalEnd data totalSize optional allowContentLength) w
               = after (endChunked data) (after (writeStatus HTTP_200_OK) w)).
  { unfold after at 1. rewrite internalEnd_chunked by exact Hw. reflexivity. }
  rewrite <- Hm, Etr, timeouts_app in Ht. lia.
Qed.

Lemma added_end (data : string) (w : World) :
  added (end_ data) w = added (internalEnd data (strlen data) false true) w.
Proof. unfold added. rewrite after_end. reflexivity. Qed.

Lemma declaredTotal_end (data : string) :
  declaredTotal data (strlen data) = strlen data.
Proof.
  unfold declaredTotal. destruct (strlen data =? 0); reflexivity.
Qed.

End FixedOutcome.

(** X5.  The comment on [end] says it always starts a timeout.  That holds
    when [end] is the first call to send body bytes (offset zero) and when
    the response is in chunked mode: the call arms the timeout exactly once,
    whatever the socket answers. *)
Theorem end_starts_timeout {F : HttpResponseDataFlags} (data : string)
        (w : World) :
  independent F ->
  strlen data < 2 ^ 64 ->
  offset w = 0 \/ flagSet (state w) HTTP_WRITE_CALLED = true ->
  timeouts (added (end_ data) w) = 1%nat.
Proof.
  intros HF Hsize Hcase. rewrite added_end.
  destruct (flagSet (state w) HTTP_WRITE_CALLED) eqn:Hw.
  - apply internalEnd_chunked_timeouts; assumption.
  - destruct Hcase as [Ho|Hc]; [|discriminate].
    destruct (internalEnd_fixed_outcome HF data (strlen data) false true w Hw)
      as [written [failed [Hexit [_ [_ [Ht _]]]]]].
    rewrite Ht, declaredTotal_end, Ho. clear Ht.
    destruct ((written =? strlen data) && negb failed) eqn:Hs; [|reflexivity].
    apply andb_true_iff in Hs. destruct Hs as [Hwr _].
    apply Z.eqb_eq in Hwr. rewrite Hwr.
    rewrite as_size_t_small by (pose proof (strlen_nonneg data); lia).
    rewrite Z.eqb_refl. reflexivity.
Qed.

(** X6.  [end] after body bytes were already counted.  On the fixed-length
    path with a positive offset, an [end(data)] whose write succeeds in
    full leaves the response unfinished: [end] declares the length of its
    own data as the total, which the offset has already passed, so no
    timeout is armed, the callbacks stay, and RESPONSE_PENDING stays as it
    was. *)
Theorem end_after_body_bytes_never_completes {F : HttpResponseDataFlags}
        (data : string) (w : World) :
  independent F ->
  flagSet (state w) HTTP_WRITE_CALLED = false ->
  0 < offset w ->
  offset w + strlen data < 2 ^ 64 ->
  fst (internalEnd data (strlen data) false true w) = true ->
  timeouts (added (end_ data) w) = 0%nat
  /\ offset (after (end_ data) w) = offset w + strlen data
  /\ onAborted (after (end_ data) w) = onAborted w
  /\ onWritable (after (end_ data) w) = onWritable w
  /\ fst (hasResponded (after (end_ data) w)) = fst (hasResponded w).
Proof.
  intros HF Hw Hpos Hfit Hok. rewrite added_end, after_end.
  destruct (internalEnd_fixed_outcome HF data (strlen data) false true w Hw)
    as [written [failed [_ [Hret [Ho [Ht [Hp Hcb]]]]]]].
  rewrite Hret in Hok. rewrite Hok in Ht. cbn [negb orb] in Ht.
  apply andb_true_iff in Hok. destruct Hok as [Hwr _].
  apply Z.eqb_eq in Hwr. subst written.
  rewrite declaredTotal_end in Ht, Hp, Hcb.
  pose proof (strlen_nonneg data) as Hlen.
  rewrite as_size_t_small in Ho, Ht, Hp, Hcb by lia.
  assert (Hne : (offset w + strlen data =? strlen data) = false)
    by (apply Z.eqb_neq; lia).
  rewrite Hne in Ht, Hp, Hcb. injection Hcb as Ha Hb.
  split; [exact Ht|]. split; [exact Ho|]. split; [exact Ha|].
  split; [exact Hb|].
  unfold hasResponded. rewrite !fst_bind. cbn [ret fst].
  unfold testState. cbn [fst]. rewrite Hp. reflexivity.
Qed.

(** X7.  What [tryEnd] returns on the fixed-length path of a pending
    response.  The second component is true exactly when the offset has
    reached the declared total.  If the first is true the offset has moved
    on by the length of the data; if it is false a timeout was armed. *)
Theorem tryEnd_reports {F : HttpResponseDataFlags} (data : string)
        (totalSize : Z) (w : World) :
  independent F ->
  flagSet (state w) HTTP_WRITE_CALLED = false ->
  flagSet (state w) HTTP_RESPONSE_PENDING = true ->
  let r := fst (tryEnd data totalSize w) in
  let w' := after (tryEnd data totalSize) w in
  snd r = (offset w' =? declaredTotal data totalSize)
  /\ (fst r = true -> offset w' = as_size_t (offset w + strlen data))
  /\ (fst r = false -> timeouts (added (tryEnd data totalSize) w) = 1%nat).
Proof.
  intros HF Hw Hp. cbv zeta.
  assert (Hafter : after (tryEnd data totalSize) w
                   = after (internalEnd data totalSize true true) w).
  { unfold tryEnd. rewrite !after_bind. reflexivity. }
  assert (Hfst : fst (tryEnd data totalSize w)
                 = (fst (internalEnd data totalSize true true w),
                    negb (flagSet
                            (state (after (internalEnd data totalSize true true)
                                          w))
                            HTTP_RESPONSE_PENDING))).
  { unfold tryEnd. rewrite !fst_bind. reflexivity. }
  unfold added. rewrite Hafter, Hfst. cbn [fst snd].
  fold (added (internalEnd data totalSize true true) w).
  destruct (internalEnd_fixed_outcome HF data totalSize true true w Hw)
    as [written [failed [_ [Hret [Ho [Ht [Hpend _]]]]]]].
  rewrite Hret, Ho, Ht, Hpend, Hp. split; [|split].
  - destruct (_ =? declaredTotal data totalSize); reflexivity.
  - intros Hs. apply andb_true_iff in Hs. destruct Hs as [Hwr _].
    apply Z.eqb_eq in Hwr. rewrite Hwr. reflexivity.
  - intros Hs. rewrite Hs. reflexivity.
Qed.

(* ===================================================================== *)
(** * The write loop of the fixed-length path *)

Lemma chunk_in_bounds (data : string) (written : Z) :
  strlen data < 2 ^ 64 ->
  0 <= written < strlen data ->
  let chunk := as_int (Z.min (as_size_t (strlen data - written)) INT_MAX) in
  1 <= chunk <= INT_MAX /\ chunk <= strlen data - written.
Proof.
  intros Hsize Hw. cbv zeta.
  rewrite as_size_t_small by lia.
  rewrite as_int_small by (unfold INT_MAX; lia).
  unfold INT_MAX. lia.
Qed.

(** Whatever the socket answers, each write of the loop stays inside the
    data. *)
Lemma writeRounds_chunks (data : string) (optional : bool) :
  strlen data < 2 ^ 64 ->
  forall rounds written failed w delta,
    0 <= written ->
    trace (snd (writeRounds rounds data optional written failed w))
    = trace w ++ delta ->
    Forall (chunkOf data optional) delta.
Proof.
  intros Hsize. induction rounds as [|rounds IH];
    intros written failed w delta Hw; cbn [writeRounds];
    destruct ((written <? strlen data) && negb failed) eqn:Hc;
    try (cbn [ret snd]; intros E;
         rewrite <- (app_nil_r (trace w)) in E at 1;
         apply app_inv_head in E; subst delta; constructor).
  rewrite run_bind. intros E.
  apply andb_true_iff in Hc. destruct Hc as [Hlt _]. apply Z.ltb_lt in Hlt.
  destruct (chunk_in_bounds data written Hsize (conj Hw Hlt)) as [Hrange Hleft].
  set (chunk := as_int (Z.min (as_size_t (strlen data - written)) INT_MAX)) in *.
  set (w' := after (Super.write Payload (advance data written) chunk optional) w)
    in *.
  set (a := fst (Super.write Payload (advance data written) chunk optional w))
    in *.
  assert (Ew' : trace w'
                = trace w ++ [Sent Payload (advance data written) chunk
                                   optional a]) by reflexivity.
  destruct (writeRounds_logs data optional rounds
              (as_size_t (written + fst a)) (snd a) w') as [d' [Ed' _]].
  unfold after in Ed'. rewrite Ed', Ew', <- app_assoc in E.
  apply app_inv_head in E. subst delta. cbn [app]. constructor.
  - cbn [chunkOf]. split; [reflexivity|]. exists written.
    repeat split; lia.
  - apply (IH (as_size_t (written + fst a)) (snd a) w' d'); [|exact Ed'].
    unfold as_size_t. apply Z.mod_pos_bound. reflexivity.
Qed.

Lemma length_skipn_string (n : nat) (s : string) :
  String.length (skipn_string n s) = (String.length s - n)%nat.
Proof.
  revert s. induction n as [|n IH]; intros s; cbn [skipn_string].
  - lia.
  - destruct s as [|c s]; cbn [String.length]; [reflexivity | apply IH].
Qed.

Lemma strlen_advance (s : string) (k : Z) :
  0 <= k <= strlen s -> strlen (advance s k) = strlen s - k.
Proof.
  unfold strlen, advance. intros Hk. rewrite length_skipn_string. lia.
Qed.

Lemma bodySent_app (tr1 tr2 : list Event) :
  bodySent (tr1 ++ tr2) = (bodySent tr1 ++ bodySent tr2)%string.
Proof.
  induction tr1 as [|e tr1 IH]; [reflexivity|].
  cbn [app bodySent]. rewrite IH, append_assoc. reflexivity.
Qed.

Lemma bodySent_none (tr : list Event) :
  forallb (fun e => negb (isSite Payload e)) tr = true -> bodySent tr = "".
Proof.
  induction tr as [|e tr IH]; [reflexivity|].
  cbn [forallb]. intros Hs. apply andb_true_iff in Hs. destruct Hs as [He Htr].
  destruct e as [[] buf len opt [n f]|s]; try discriminate;
    cbn [bodySent acceptedOf append]; exact (IH Htr).
Qed.

(** With a socket that reports no more than it was handed, what the socket
    took during the loop is the data from where the loop started to where
    it stopped: nothing twice, nothing skipped. *)
Lemma writeRounds_sends (data : string) (optional : bool) :
  strlen data < 2 ^ 64 ->
  forall rounds written failed w delta,
    trace (snd (writeRounds rounds data optional written failed w))
    = trace w ++ delta ->
    Forall honest delta ->
    0 <= written <= strlen data ->
    (substring 0 (Z.to_nat written) data ++ bodySent delta)%string
    = substring 0
        (Z.to_nat (fst (fst (writeRounds rounds data optional written failed w))))
        data.
Proof.
  intros Hsize. induction rounds as [|rounds IH];
    intros written failed w delta; cbn [writeRounds];
    destruct ((written <? strlen data) && negb failed) eqn:Hc;
    try (cbn [ret fst snd]; intros E _ _;
         rewrite <- (app_nil_r (trace w)) in E at 1;
         apply app_inv_head in E; subst delta; cbn [bodySent];
         apply append_empty_r).
  rewrite run_bind. intros E Hh Hr.
  apply andb_true_iff in Hc. destruct Hc as [Hlt _]. apply Z.ltb_lt in Hlt.
  destruct (chunk_in_bounds data written Hsize (conj (proj1 Hr) Hlt))
    as [Hrange Hleft].
  set (chunk := as_int (Z.min (as_size_t (strlen data - written)) INT_MAX)) in *.
  set (w' := after (Super.write Payload (advance data written) chunk optional) w)
    in *.
  set (a := fst (Super.write Payload (advance data written) chunk optional w))
    in *.
  assert (Ew' : trace w'
                = trace w ++ [Sent Payload (advance data written) chunk
                                   optional a]) by reflexivity.
  destruct (writeRounds_logs data optional rounds
              (as_size_t (written + fst a)) (snd a) w') as [d' [Ed' _]].
  unfold after in Ed'. rewrite Ed', Ew', <- app_assoc in E.
  apply app_inv_head in E. subst delta. cbn [app] in Hh.
  inversion Hh as [|e l He Hl]; subst e l. clear Hh.
  destruct a as [n f]. cbn [honest fst snd] in *.
  rewrite as_size_t_small in * by lia.
  rewrite <- (IH (written + n) f w' d' Ed' Hl) by lia.
  cbn [app bodySent acceptedOf].
  rewrite <- append_assoc. f_equal.
  unfold advance. rewrite substring_skipn. f_equal. lia.
Qed.

Section FixedLog.

Context {F : HttpResponseDataFlags}.
Hypothesis HF : independent F.

(** The log of [internalEnd] on the fixed-length path: head writes, the
    writes of the loop, at most one timeout. *)
Lemma internalEnd_fixed_log (data : string) (totalSize : Z)
      (optional allowContentLength : bool) (w : World) :
  flagSet (state w) HTTP_WRITE_CALLED = false ->
  let m := internalEnd data totalSize optional allowContentLength in
  let w1 := after (endHeaders (declaredTotal data totalSize) allowContentLength)
                  (after (writeStatus HTTP_200_OK) w) in
  exists head tail,
    added m w = head ++ added (writeAll data optional) w1 ++ tail
    /\ forallb isHead head = true
    /\ forallb isArmed tail = true
    /\ offset (after m w)
       = as_size_t (offset w + fst (fst (writeAll data optional w1)))
    /\ flagSet (state (after m w)) HTTP_WRITE_CALLED = false.
Proof.
  intros Hw. cbv zeta.
  pose proof (independent_facts HF) as [_ [[Hsw _] [Hwe [Hwp _]]]].
  set (total := declaredTotal data totalSize).
  set (w0 := after (writeStatus HTTP_200_OK) w).
  set (w1 := after (endHeaders total allowContentLength) w0).
  set (r := writeAll data optional w1).
  assert (Hrun : internalEnd data totalSize optional allowContentLength w
                 = endAccount data total (fst (fst r)) (snd (fst r)) (snd r)).
  { rewrite internalEnd_fixed by assumption. rewrite endFixed_run. reflexivity. }
  destruct (writeStatus_logs HTTP_200_OK w) as [d0 [E0 P0]].
  destruct (endHeaders_logs total allowContentLength w0) as [d1 [E1 P1]].
  destruct (writeAll_logs data optional w1) as [d2 [E2 _]].
  fold w0 in E0. fold w1 in E1.
  pose proof (added_app _ _ _ E2) as A2.
  unfold after in E2. fold r in E2.
  pose proof (writeStatus_keeps_body 0 (Z.land_0_r _) HTTP_200_OK w) as K0.
  pose proof (endHeaders_keeps_body 0 (Z.land_0_r _) (Z.land_0_r _) total
                allowContentLength w0) as K1.
  pose proof (writeAll_keeps_fields data optional w1) as K2.
  unfold keeps, bodyView in K0, K1, K2.
  fold w0 in K0. fold w1 in K1. unfold after in K2. fold r in K2.
  injection K0 as _ K0o _ _. injection K1 as _ K1o _ _.
  injection K2 as _ K2o _ _.
  destruct (internalEnd_fixed_summary HF data totalSize optional
              allowContentLength w Hw) as [? [? [Hw' _]]].
  exists (d0 ++ d1).
  eexists. split; [|split; [|split; [|split]]].
  - unfold added at 1, after. rewrite Hrun, endAccount_world. cbv zeta.
    cbn [snd trace]. rewrite E2, E1, E0, <- !app_assoc.
    rewrite skipn_app, skipn_all, Nat.sub_diag. cbn [skipn app].
    rewrite A2. reflexivity.
  - rewrite forallb_app, P0, P1. reflexivity.
  - destruct (_ || _); reflexivity.
  - unfold after. rewrite Hrun, endAccount_world. cbv zeta. cbn [snd offset].
    rewrite K2o, K1o, K0o. reflexivity.
  - exact Hw'.
Qed.

End FixedLog.

(** X8.  The lengths [internalEnd] passes to the socket.  On the
    fixed-length path every payload write of a call starts inside the data,
    has a length between 1 and INT_MAX and ends inside the data, whatever
    the socket answers. *)
Theorem payload_writes_stay_in_bounds {F : HttpResponseDataFlags}
        (data : string) (totalSize : Z) (optional allowContentLength : bool)
        (w : World) :
  independent F ->
  flagSet (state w) HTTP_WRITE_CALLED = false ->
  strlen data < 2 ^ 64 ->
  Forall (fun e => isSite Payload e = true -> chunkOf data optional e)
         (added (internalEnd data totalSize optional allowContentLength) w).
Proof.
  intros HF Hw Hsize.
  pose proof (internalEnd_fixed_log HF data totalSize optional
                allowContentLength w Hw) as Hlog.
  cbv zeta in Hlog. destruct Hlog as [head [tail [E [Ph [Pt _]]]]].
  rewrite E. apply Forall_app. split; [|apply Forall_app; split].
  - apply Forall_forall. intros e Hin Hp.
    rewrite forallb_forall in Ph. specialize (Ph e Hin).
    destruct e as [[] ? ? ? ?|?]; discriminate.
  - set (w1 := after (endHeaders _ _) _).
    destruct (writeAll_logs data optional w1) as [d2 [E2 _]].
    rewrite (added_app _ _ _ E2).
    assert (Hch : Forall (chunkOf data optional) d2).
    { apply (writeRounds_chunks data optional Hsize
               (S (List.length (answers w1))) 0 false w1 d2); [lia|].
      exact E2. }
    revert Hch. apply Forall_impl. intros e He _. exact He.
  - apply Forall_forall. intros e Hin Hp.
    rewrite forallb_forall in Pt. specialize (Pt e Hin).
    destruct e as [[] ? ? ? ?|?]; discriminate.
Qed.

(* ===================================================================== *)
(** * Streaming a body with tryEnd *)

Lemma substring_none (s : string) : substring 0 0 s = "".
Proof. destruct s; reflexivity. Qed.

Lemma isHead_not_payload (tr : list Event) :
  forallb isHead tr = true ->
  forallb (fun e => negb (isSite Payload e)) tr = true.
Proof.
  apply forallb_weaken. intros [[] ? ? ? ?|?]; cbn; congruence.
Qed.

Lemma isArmed_not_payload (tr : list Event) :
  forallb isArmed tr = true ->
  forallb (fun e => negb (isSite Payload e)) tr = true.
Proof.
  apply forallb_weaken. intros [[] ? ? ? ?|?]; cbn; congruence.
Qed.

Lemma added_trace {A : Type} (m : Resp A) (w : World) :
  rel (logs anyEvent) m -> trace (after m w) = trace w ++ added m w.
Proof.
  intros Hm. destruct (Hm w) as [d [E _]].
  rewrite (added_app _ _ _ E). exact E.
Qed.

Section Streaming.

Context {F : HttpResponseDataFlags}.
Hypothesis HF : independent F.

Lemma internalEnd_logs (data : string) (totalSize : Z)
      (optional allowContentLength : bool) :
  rel (logs anyEvent) (internalEnd data totalSize optional allowContentLength).
Proof. rel_walk leaf_logs. Qed.

Lemma tryEnd_logs (data : string) (totalSize : Z) :
  rel (logs anyEvent) (tryEnd data totalSize).
Proof. rel_walk leaf_logs. Qed.

Lemma stream_logs (rounds : nat) (body : string) :
  rel (logs anyEvent) (stream rounds body).
Proof.
  induction rounds as [|rounds IH]; cbn [stream].
  - apply rel_ret. typeclasses eauto.
  - apply rel_bind; [typeclasses eauto | rel_walk leaf_logs |].
    intros o. apply rel_bind; [typeclasses eauto | apply tryEnd_logs |].
    intros _. exact IH.
Qed.

(** One [internalEnd] that resumes [body] at the offset keeps [streamed]. *)
Lemma internalEnd_streamed (body : string) (totalSize : Z)
      (optional allowContentLength : bool) (w : World) :
  strlen body < 2 ^ 64 ->
  streamed body w ->
  let m := internalEnd (advance body (offset w)) totalSize optional
                       allowContentLength in
  Forall honest (added m w) ->
  streamed body (after m w).
Proof.
  intros Hsize [Hw [Ho Hb]]. cbv zeta. intros Hh.
  set (data := advance body (offset w)) in *.
  pose proof (internalEnd_fixed_log HF data totalSize optional
                allowContentLength w Hw) as Hlog.
  cbv zeta in Hlog. destruct Hlog as [head [tail [E [Ph [Pt [Ho' Hw']]]]]].
  set (w1 := after (endHeaders _ _) _) in *.
  destruct (writeAll_logs data optional w1) as [d2 [E2 _]].
  rewrite (added_app _ _ _ E2) in E.
  rewrite E in Hh. apply Forall_app in Hh. destruct Hh as [_ Hh].
  apply Forall_app in Hh. destruct Hh as [Hh _].
  assert (Hdata : strlen data = strlen body - offset w)
    by (apply strlen_advance; exact Ho).
  assert (Hsize' : strlen data < 2 ^ 64) by lia.
  pose proof (writeRounds_honest data optional Hsize'
                (S (List.length (answers w1))) 0 false w1 d2) as Hr.
  pose proof (writeRounds_sends data optional Hsize'
                (S (List.length (answers w1))) 0 false w1 d2) as Hs.
  cbv zeta in Hr. fold (writeAll data optional w1) in Hr, Hs.
  unfold after in E2. specialize (Hr E2 Hh). specialize (Hs E2 Hh).
  pose proof (strlen_nonneg data) as Hlen.
  destruct Hr as [_ Hr]; [lia|]. specialize (Hs ltac:(lia)).
  cbn [Z.to_nat] in Hs. rewrite substring_none in Hs. cbn [append] in Hs.
  set (W := fst (fst (writeAll data optional w1))) in *.
  rewrite as_size_t_small in Ho' by lia.
  split; [exact Hw'|]. split; [lia|].
  rewrite (added_trace _ w (internalEnd_logs data totalSize optional
                              allowContentLength)), E.
  rewrite !bodySent_app, Hb, Hs, Ho'.
  rewrite (bodySent_none head (isHead_not_payload _ Ph)).
  rewrite (bodySent_none tail (isArmed_not_payload _ Pt)).
  cbn [append]. rewrite append_empty_r.
  unfold data, advance. rewrite substring_skipn. f_equal. lia.
Qed.

Lemma stream_streamed (body : string) :
  strlen body < 2 ^ 64 ->
  forall rounds w,
    streamed body w ->
    Forall honest (added (stream rounds body) w) ->
    streamed body (after (stream rounds body) w).
Proof.
  intros Hsize. induction rounds as [|rounds IH]; intros w Hs Hh;
    [exact Hs|].
  set (m := internalEnd (advance body (offset w)) (strlen body) true true).
  assert (Hafter : after (stream (S rounds) body) w
                   = after (stream rounds body) (after m w)).
  { cbn [stream]. rewrite !after_bind. unfold getWriteOffset, getOffset at 2.
    cbn [fst]. unfold tryEnd. rewrite !after_bind. reflexivity. }
  pose proof (added_trace _ w (stream_logs (S rounds) body)) as Et.
  pose proof (added_trace _ w (internalEnd_logs (advance body (offset w))
                                 (strlen body) true true)) as E1.
  pose proof (added_trace _ (after m w) (stream_logs rounds body)) as E2.
  fold m in E1. rewrite Hafter, E2, E1, <- app_assoc in Et.
  apply app_inv_head in Et. rewrite <- Et in Hh.
  apply Forall_app in Hh. destruct Hh as [Hh1 Hh2].
  rewrite Hafter. apply IH; [|exact Hh2].
  apply (internalEnd_streamed body (strlen body) true true w Hsize Hs Hh1).
Qed.

End Streaming.

(** X9.  Streaming a body.  A caller that sends [body] by repeated
    [tryEnd(body.substr(getWriteOffset()), body.length())] on a fresh
    response, against a socket that never reports more than it was handed,
    gets the body to the socket exactly once and in order: at every point
    the socket has taken the first [getWriteOffset()] characters of the
    body, and when the offset equals the length it has taken all of it. *)
Theorem stream_sends_body_once {F : HttpResponseDataFlags} (rounds : nat)
        (body : string) (w0 : World) :
  independent F ->
  fresh w0 ->
  strlen body < 2 ^ 64 ->
  let w := after (stream rounds body) w0 in
  Forall honest (trace w) ->
  0 <= offset w <= strlen body
  /\ bodySent (trace w) = substring 0 (Z.to_nat (offset w)) body
  /\ (offset w = strlen body -> bodySent (trace w) = body).
Proof.
  intros HF [_ [Hw [_ [Ho Htr]]]] Hsize. cbv zeta. intros Hh.
  assert (Hs0 : streamed body w0).
  { split; [exact Hw|]. rewrite Ho, Htr. split.
    - pose proof (strlen_nonneg body). lia.
    - cbn [bodySent Z.to_nat]. symmetry. apply substring_none. }
  assert (Hadd : Forall honest (added (stream rounds body) w0)).
  { rewrite (added_trace _ w0 (stream_logs rounds body)), Htr in Hh.
    exact Hh. }
  destruct (stream_streamed HF body Hsize rounds w0 Hs0 Hadd) as [_ [Hr Hb]].
  split; [exact Hr|]. split; [exact Hb|].
  intros Hall. rewrite Hb, Hall. unfold strlen. rewrite Nat2Z.id.
  apply substring_whole.
Qed.

(* ===================================================================== *)
(** * The header block of end, tryEnd and upgrade *)

Lemma append_inv_head (s x y : string) :
  (s ++ x)%string = (s ++ y)%string -> x = y.
Proof.
  induction s as [|c s IH]; cbn [append]; intros E; [exact E|].
  injection E as E. exact (IH E).
Qed.

Lemma emits_added {A : Type} (m : Resp A) (bytes : string) (w : World) :
  rel (logs anyEvent) m ->
  emits bytes w (after m w) ->
  wire (added m w) = bytes.
Proof.
  intros Hm [E _]. rewrite (added_trace m w Hm), wire_app in E.
  exact (append_inv_head _ _ _ E).
Qed.

Section HeaderBlock.

Context {F : HttpResponseDataFlags}.

Lemma writeMark_run (w : World) :
  statusCalled w ->
  emits (markLine w) w (after writeMark w)
  /\ state (after writeMark w) = state w.
Proof.
  intros Hc. unfold markLine.
  change (after writeMark w)
    with (after (when (negb (noMark w)) (writeHeader "uWebSockets" "18")) w).
  destruct (noMark w); cbn [negb when].
  - split; [apply emits_refl | reflexivity].
  - apply (writeHeader_called_run "uWebSockets" "18" w Hc);
      vm_compute; discriminate.
Qed.

Lemma endHeaders_run (totalSize : Z) (allowContentLength : bool) (w : World) :
  statusCalled w ->
  emits (endHead allowContentLength totalSize w) w
        (after (endHeaders totalSize allowContentLength) w)
  /\ state (after (endHeaders totalSize allowContentLength) w)
     = if flagSet (state w) HTTP_END_CALLED then state w
       else Z.lor (state w) HTTP_END_CALLED.
Proof.
  intros Hc.
  assert (Hrun : after (endHeaders totalSize allowContentLength) w
                 = after (when (negb (flagSet (state w) HTTP_END_CALLED))
                            (writeMark ;;
                             (if allowContentLength then
                                Super.write HeaderLine "Content-Length: " 16
                                            false ;;
                                writeUnsigned64 totalSize ;;
                                Super.write HeaderLine (CRLF ++ CRLF) 4 false ;;
                                ret tt
                              else
                                Super.write HeaderLine CRLF 2 false ;; ret tt) ;;
                             orState HTTP_END_CALLED)) w) by reflexivity.
  rewrite Hrun. clear Hrun. unfold endHead.
  destruct (flagSet (state w) HTTP_END_CALLED); cbn [negb when].
  - split; [apply emits_refl | reflexivity].
  - rewrite !after_bind.
    destruct (writeMark_run w Hc) as [E1 S1].
    set (w1 := after writeMark w) in *.
    assert (Hclose :
              let w2 := after (if allowContentLength then
                                 Super.write HeaderLine "Content-Length: " 16
                                             false ;;
                                 writeUnsigned64 totalSize ;;
                                 Super.write HeaderLine (CRLF ++ CRLF) 4 false ;;
                                 ret tt
                               else
                                 Super.write HeaderLine CRLF 2 false ;; ret tt)
                              w1 in
              emits (contentLengthPart allowContentLength totalSize) w1 w2
              /\ state w2 = state w1).
    { cbv zeta. unfold contentLengthPart, emits.
      destruct allowContentLength; run_world;
        rewrite !wire_app, !timeouts_app;
        cbn [wire bytesOf timeouts filter isArmed List.length];
        rewrite ?handed_strlen, !append_empty_r, ?append_assoc, !Nat.add_0_r;
        repeat split. }
    cbv zeta in Hclose. destruct Hclose as [E2 S2].
    set (w2 := after (if allowContentLength then _ else _) w1) in *.
    split.
    + pose proof (emits_trans _ _ _ _ _ E1 E2) as E.
      unfold emits in *. unfold after, orState.
      cbn [snd trace offset onAborted onWritable noMark]. exact E.
    + unfold after at 1, orState. cbn [snd state]. rewrite S2, S1. reflexivity.
Qed.

(** [internalEnd] with no data on the fixed-length path, after the status
    line. *)
Lemma internalEnd_empty_run (optional allowContentLength : bool) (w : World) :
  independent F ->
  statusCalled w ->
  flagSet (state w) HTTP_WRITE_CALLED = false ->
  let w' := after (internalEnd "" 0 optional allowContentLength) w in
  wire (trace w') = (wire (trace w) ++ endHead allowContentLength 0 w)%string
  /\ timeouts (trace w')
     = (timeouts (trace w)
        + (if (as_size_t (offset w) =? 0)%Z then 1 else 0))%nat
  /\ offset w' = as_size_t (offset w)
  /\ (as_size_t (offset w) = 0 -> done w').
Proof.
  intros HF Hc Hw. cbv zeta.
  assert (Hrun : internalEnd "" 0 optional allowContentLength w
                 = endAccount "" 0 0 false
                     (after (endHeaders 0 allowContentLength) w)).
  { assert (Hs : after (writeStatus HTTP_200_OK) w = w).
    { unfold after. rewrite writeStatus_called by exact Hc. reflexivity. }
    rewrite internalEnd_fixed by assumption.
    rewrite Hs, endFixed_run. reflexivity. }
  destruct (endHeaders_run 0 allowContentLength w Hc)
    as [[W1 [T1 [O1 _]]] _].
  set (w1 := after (endHeaders 0 allowContentLength) w) in *.
  unfold after. rewrite Hrun, endAccount_world. cbv zeta.
  cbn [snd trace offset]. rewrite O1, Z.add_0_r.
  change ((0 =? strlen "") && negb false) with true. cbn [negb orb].
  split; [|split; [|split]].
  - rewrite wire_app, W1.
    destruct (_ =? 0); cbn [wire bytesOf]; rewrite !append_empty_r;
      reflexivity.
  - rewrite timeouts_app, T1. destruct (_ =? 0); reflexivity.
  - reflexivity.
  - intros E. rewrite E. cbn [Z.eqb]. unfold done.
    cbn [onAborted onWritable state]. repeat split.
    apply flagSet_clear_same.
Qed.

End HeaderBlock.

(** X10.  What [internalEnd] hands the socket on the fixed-length path: a
    head, then payload writes only, then at most a timeout.  The head is the
    default status line if the response has none, and, on the first call
    only, the writemark and the end of the header block (Content-Length with
    the declared total, or the bare blank line of an upgrade).  Later calls
    write no header again. *)
Theorem end_head_format {F : HttpResponseDataFlags} (data : string)
        (totalSize : Z) (optional allowContentLength : bool) (w : World) :
  independent F ->
  flagSet (state w) HTTP_WRITE_CALLED = false ->
  exists head body tail,
    added (internalEnd data totalSize optional allowContentLength) w
    = head ++ body ++ tail
    /\ wire head
       = (defaultStatus w
          ++ endHead allowContentLength (declaredTotal data totalSize) w)%string
    /\ forallb isHead head = true
    /\ forallb (isSite Payload) body = true
    /\ forallb isArmed tail = true.
Proof.
  intros HF Hw.
  pose proof (independent_facts HF) as [[Hnz _] [[_ [Hse _]] _]].
  set (total := declaredTotal data totalSize).
  set (w0 := after (writeStatus HTTP_200_OK) w).
  set (w1 := after (endHeaders total allowContentLength) w0).
  set (r := writeAll data optional w1).
  assert (Hrun : internalEnd data totalSize optional allowContentLength w
                 = endAccount data total (fst (fst r)) (snd (fst r)) (snd r)).
  { rewrite internalEnd_fixed by assumption. rewrite endFixed_run. reflexivity. }
  destruct (writeStatus_logs HTTP_200_OK w) as [d0 [E0 P0]].
  destruct (endHeaders_logs total allowContentLength w0) as [d1 [E1 P1]].
  destruct (writeAll_logs data optional w1) as [d2 [E2 P2]].
  fold w0 in E0. fold w1 in E1. unfold after in E2. fold r in E2.
  destruct (writeStatus_run HTTP_200_OK w) as [[W0 [_ [_ [_ [_ N0]]]]] S0];
    [vm_compute; discriminate|].
  fold w0 in W0, N0, S0.
  assert (Hc0 : statusCalled w0).
  { unfold statusCalled. rewrite S0. apply statusSet_called, Hnz. }
  destruct (endHeaders_run total allowContentLength w0 Hc0) as [[W1 _] _].
  fold w1 in W1.
  exists (d0 ++ d1), d2. eexists. split; [|split; [|split; [|split]]].
  - unfold added, after. rewrite Hrun, endAccount_world. cbv zeta.
    cbn [snd trace]. rewrite E2, E1, E0, <- !app_assoc.
    rewrite skipn_app, skipn_all, Nat.sub_diag. cbn [skipn app]. reflexivity.
  - rewrite E1, wire_app in W1. apply append_inv_head in W1.
    rewrite E0, wire_app in W0. apply append_inv_head in W0.
    rewrite wire_app, W0, W1.
    unfold endHead, markLine. rewrite S0, statusSet_other, N0 by exact Hse.
    reflexivity.
  - rewrite forallb_app, P0, P1. reflexivity.
  - exact P2.
  - destruct (_ || _); reflexivity.
Qed.

(* ===================================================================== *)
(** * The bytes of upgrade *)

Lemma strlen_upToComma (s : string) : strlen (upToComma s) <= strlen s.
Proof.
  unfold strlen. apply inj_le.
  induction s as [|c s IH]; cbn [upToComma]; [lia|].
  destruct (Ascii.eqb c ","); cbn [String.length]; lia.
Qed.

Section UpgradeBytes.

Context {F : HttpResponseDataFlags} {O : Options} {C : CompressOptions}
        {N : ExtensionsNegotiator} {H : WebSocketHandshake}.

Lemma negotiateCompression_emits (compression : Z)
      (secWebSocketExtensions : string) (w : World) :
  statusCalled w ->
  strlen (counterOffer compression secWebSocketExtensions) <= INT_MAX ->
  emits (extensionsLine compression secWebSocketExtensions) w
        (after (negotiateCompression compression secWebSocketExtensions) w)
  /\ state (after (negotiateCompression compression secWebSocketExtensions) w)
     = state w.
Proof.
  intros Hc Hfit. unfold extensionsLine.
  destruct (compression =? DISABLED) eqn:Hen.
  - unfold after, negotiateCompression. rewrite Hen. cbn [negb orb snd ret].
    split; [apply emits_refl | reflexivity].
  - destruct (strlen secWebSocketExtensions =? 0) eqn:Hext.
    + unfold after, negotiateCompression. rewrite Hen, Hext.
      cbn [negb orb snd ret]. split; [apply emits_refl | reflexivity].
    + cbn [orb]. unfold after at 1 2.
      rewrite (negotiateCompression_run compression secWebSocketExtensions w
                 Hen Hext).
      cbv zeta. cbn [snd].
      destruct (strlen (fst (generateOffer _)) =? 0).
      * split; [apply emits_refl | reflexivity].
      * apply (writeHeader_called_run "Sec-WebSocket-Extensions" _ w Hc);
          [vm_compute; discriminate | exact Hfit].
Qed.

Lemma protocol_emits (secWebSocketProtocol : string) (w : World) :
  statusCalled w ->
  strlen secWebSocketProtocol <= INT_MAX ->
  let m := when (negb (strlen secWebSocketProtocol =? 0))
                (writeHeader "Sec-WebSocket-Protocol"
                             (upToComma secWebSocketProtocol)) in
  emits (protocolLine secWebSocketProtocol) w (after m w)
  /\ state (after m w) = state w.
Proof.
  intros Hc Hfit. cbv zeta. unfold protocolLine.
  destruct (strlen secWebSocketProtocol =? 0); cbn [negb when].
  - split; [apply emits_refl | reflexivity].
  - apply (writeHeader_called_run "Sec-WebSocket-Protocol" _ w Hc);
      [vm_compute; discriminate|].
    pose proof (strlen_upToComma secWebSocketProtocol). lia.
Qed.

(** [upgrade] up to its call of [internalEnd]: the status line and the
    headers. *)
Lemma upgrade_head_run
      (secWebSocketKey secWebSocketProtocol secWebSocketExtensions : string)
      (compression : Z) (w : World) :
  independent F ->
  strlen (generate secWebSocketKey) <= INT_MAX ->
  strlen secWebSocketProtocol <= INT_MAX ->
  strlen (counterOffer compression secWebSocketExtensions) <= INT_MAX ->
  exists w5,
    after (upgrade secWebSocketKey secWebSocketProtocol secWebSocketExtensions
                   compression) w
    = after (internalEnd "" 0 false false) w5
    /\ emits (statusBytes "101 Switching Protocols" w
              ++ headerLine "Upgrade" "websocket"
              ++ headerLine "Connection" "Upgrade"
              ++ headerLine "Sec-WebSocket-Accept" (generate secWebSocketKey)
              ++ protocolLine secWebSocketProtocol
              ++ extensionsLine compression secWebSocketExtensions)%string
             w w5
    /\ state w5 = statusSet (state w).
Proof.
  intros HF Hkey Hproto Hext.
  pose proof (independent_facts HF) as [[Hnz _] _].
  eexists. split; [unfold upgrade; rewrite !after_bind; reflexivity|].
  destruct (writeStatus_run "101 Switching Protocols" w) as [E0 S0];
    [vm_compute; discriminate|].
  set (w0 := after (writeStatus "101 Switching Protocols") w) in *.
  assert (Hc0 : statusCalled w0).
  { unfold statusCalled. rewrite S0. apply statusSet_called, Hnz. }
  destruct (writeHeader_called_run "Upgrade" "websocket" w0 Hc0) as [E1 S1];
    [vm_compute; discriminate | vm_compute; discriminate |].
  set (w1 := after (writeHeader "Upgrade" "websocket") w0) in *.
  assert (Hc1 : statusCalled w1) by (unfold statusCalled; rewrite S1; exact Hc0).
  destruct (writeHeader_called_run "Connection" "Upgrade" w1 Hc1) as [E2 S2];
    [vm_compute; discriminate | vm_compute; discriminate |].
  set (w2 := after (writeHeader "Connection" "Upgrade") w1) in *.
  assert (Hc2 : statusCalled w2) by (unfold statusCalled; rewrite S2; exact Hc1).
  destruct (writeHeader_called_run "Sec-WebSocket-Accept"
              (generate secWebSocketKey) w2 Hc2) as [E3 S3];
    [vm_compute; discriminate | exact Hkey |].
  set (w3 := after (writeHeader "Sec-WebSocket-Accept"
                                (generate secWebSocketKey)) w2) in *.
  assert (Hc3 : statusCalled w3) by (unfold statusCalled; rewrite S3; exact Hc2).
  pose proof (protocol_emits secWebSocketProtocol w3 Hc3 Hproto) as Hp.
  cbv zeta in Hp. destruct Hp as [E4 S4].
  set (w4 := after (when (negb (strlen secWebSocketProtocol =? 0)) _) w3) in *.
  assert (Hc4 : statusCalled w4) by (unfold statusCalled; rewrite S4; exact Hc3).
  destruct (negotiateCompression_emits compression secWebSocketExtensions w4
              Hc4 Hext) as [E5 S5].
  set (w5 := after (negotiateCompression compression secWebSocketExtensions) w4)
    in *.
  split; [|congruence].
  exact (emits_trans _ _ _ _ _ E0
           (emits_trans _ _ _ _ _ E1
              (emits_trans _ _ _ _ _ E2
                 (emits_trans _ _ _ _ _ E3
                    (emits_trans _ _ _ _ _ E4 E5))))).
Qed.

End UpgradeBytes.

(** X11.  The bytes of [upgrade].  On a response that is not in chunked
    mode, [upgrade] hands the socket: the 101 status line (nothing, if a
    status line was written before), Upgrade, Connection,
    Sec-WebSocket-Accept with the accept token, Sec-WebSocket-Protocol with
    the offered protocols up to the first comma (if any were offered),
    Sec-WebSocket-Extensions with the counter-offer (if compression is
    enabled, extensions were offered and the counter-offer is not empty),
    then the writemark and the blank line, without Content-Length.  With no
    body byte counted before, it arms the timeout once and marks the
    response done. *)
Theorem upgrade_format {F : HttpResponseDataFlags} {O : Options}
        {C : CompressOptions} {N : ExtensionsNegotiator}
        {H : WebSocketHandshake}
        (secWebSocketKey secWebSocketProtocol secWebSocketExtensions : string)
        (compression : Z) (w : World) :
  independent F ->
  flagSet (state w) HTTP_WRITE_CALLED = false ->
  strlen (generate secWebSocketKey) <= INT_MAX ->
  strlen secWebSocketProtocol <= INT_MAX ->
  strlen (counterOffer compression secWebSocketExtensions) <= INT_MAX ->
  let w' := after (upgrade secWebSocketKey secWebSocketProtocol
                           secWebSocketExtensions compression) w in
  wire (trace w')
  = (wire (trace w)
     ++ statusBytes "101 Switching Protocols" w
     ++ headerLine "Upgrade" "websocket"
     ++ headerLine "Connection" "Upgrade"
     ++ headerLine "Sec-WebSocket-Accept" (generate secWebSocketKey)
     ++ protocolLine secWebSocketProtocol
     ++ extensionsLine compression secWebSocketExtensions
     ++ endHead false 0 w)%string
  /\ timeouts (trace w')
     = (timeouts (trace w)
        + (if (as_size_t (offset w) =? 0)%Z then 1 else 0))%nat
  /\ (as_size_t (offset w) = 0 -> done w').
Proof.
  intros HF Hw Hkey Hproto Hext. cbv zeta.
  pose proof (independent_facts HF) as [[Hnz _] [[Hsw [Hse _]] _]].
  destruct (upgrade_head_run secWebSocketKey secWebSocketProtocol
              secWebSocketExtensions compression w HF Hkey Hproto Hext)
    as [w5 [Erun [[W [T [Ooff [_ [_ Nm]]]]] Hstate]]].
  rewrite Erun. clear Erun.
  assert (Hc5 : statusCalled w5).
  { unfold statusCalled. rewrite Hstate. apply statusSet_called, Hnz. }
  assert (Hw5 : flagSet (state w5) HTTP_WRITE_CALLED = false).
  { rewrite Hstate, statusSet_other by exact Hsw. exact Hw. }
  pose proof (internalEnd_empty_run false false w5 HF Hc5 Hw5) as Hend.
  cbv zeta in Hend. destruct Hend as [W6 [T6 [_ D6]]].
  assert (Hhead : endHead false 0 w5 = endHead false 0 w).
  { unfold endHead, markLine. rewrite Hstate, statusSet_other, Nm by exact Hse.
    reflexivity. }
  rewrite Ooff in T6, D6. rewrite Hhead in W6.
  split; [|split].
  - rewrite W6, W, !append_assoc. reflexivity.
  - rewrite T6, T. reflexivity.
  - exact D6.
Qed.

(* ===================================================================== *)
(** * Reading the chunks back *)

Lemma hexValue_digitChar (d : Z) :
  0 <= d < 16 -> hexValue (utils.digitChar d) = Some d.
Proof.
  intros Hd.
  assert (E : d = 0 \/ d = 1 \/ d = 2 \/ d = 3 \/ d = 4 \/ d = 5 \/ d = 6
              \/ d = 7 \/ d = 8 \/ d = 9 \/ d = 10 \/ d = 11 \/ d = 12
              \/ d = 13 \/ d = 14 \/ d = 15) by lia.
  repeat (destruct E as [E|E]; [subst d; reflexivity|]).
  subst d. reflexivity.
Qed.

Lemma parseHex_append (s1 s2 : string) :
  forall acc,
    parseHex acc (s1 ++ s2)
    = match parseHex acc s1 with
      | Some a => parseHex a s2
      | None => None
      end.
Proof.
  induction s1 as [|c s1 IH]; intros acc; cbn [append parseHex];
    [reflexivity|].
  destruct (hexValue c); [apply IH | reflexivity].
Qed.

(** Reading the digits of [n] gives [n] back. *)
Lemma parseHex_digits (width : nat) :
  forall n, 0 <= n < 16 ^ Z.of_nat width ->
            parseHex 0 (utils.digits 16 width n) = Some n.
Proof.
  induction width as [|width IH]; intros n Hn.
  - cbn in Hn. assert (n = 0) by lia. subst n. reflexivity.
  - cbn [utils.digits]. destruct (n <? 16) eqn:Hlt.
    + apply Z.ltb_lt in Hlt. cbn [parseHex].
      rewrite hexValue_digitChar by lia. f_equal; lia.
    + apply Z.ltb_ge in Hlt.
      rewrite Nat2Z.inj_succ, Z.pow_succ_r in Hn by lia.
      rewrite parseHex_append, IH.
      * cbn [parseHex]. rewrite hexValue_digitChar
          by (apply Z.mod_pos_bound; lia).
        pose proof (Z.div_mod n 16). f_equal; lia.
      * split; [apply Z.div_pos; lia|].
        apply Z.div_lt_upper_bound; lia.
Qed.

Lemma readHex_u32toaHex (n : Z) :
  0 <= n < 2 ^ 32 -> readHex (utils.u32toaHex n) = Some n.
Proof.
  intros Hn. unfold readHex.
  pose proof (digits_nonempty 16 7 n) as Hne.
  pose proof (parseHex_digits 8 n) as Hp.
  unfold utils.u32toaHex in *.
  destruct (utils.digits 16 8 n) as [|c s]; [congruence|].
  apply Hp. change (16 ^ Z.of_nat 8) with (2 ^ 32). exact Hn.
Qed.

Lemma noCR_append (s1 s2 : string) :
  noCR (s1 ++ s2) = noCR s1 && noCR s2.
Proof.
  unfold noCR. induction s1 as [|c s1 IH]; cbn; [reflexivity|].
  rewrite IH. apply andb_assoc.
Qed.

Lemma digitChar_noCR (d : Z) :
  0 <= d < 16 -> Ascii.eqb (utils.digitChar d) "013" = false.
Proof.
  intros Hd. apply Ascii.eqb_neq. apply digitChar_not_CR. exact Hd.
Qed.

Lemma digits_noCR (width : nat) :
  forall n, 0 <= n -> noCR (utils.digits 16 width n) = true.
Proof.
  induction width as [|width IH]; intros n Hn; [reflexivity|].
  cbn [utils.digits]. destruct (n <? 16) eqn:Hlt.
  - apply Z.ltb_lt in Hlt. unfold noCR. cbn.
    rewrite digitChar_noCR by lia. reflexivity.
  - rewrite noCR_append, IH by (apply Z.div_pos; lia).
    unfold noCR. cbn. rewrite digitChar_noCR
      by (apply Z.mod_pos_bound; lia).
    reflexivity.
Qed.

(** A line without a carriage return ends at the line end that follows
    it. *)
Lemma splitLine_append (line rest : string) :
  noCR line = true ->
  splitLine (line ++ CRLF ++ rest) = Some (line, rest).
Proof.
  induction line as [|c line IH]; intros Hn; [reflexivity|].
  unfold noCR in Hn. cbn [list_ascii_of_string forallb] in Hn.
  apply andb_true_iff in Hn. destruct Hn as [Hc Hline].
  apply negb_true_iff in Hc.
  cbn [append splitLine].
  destruct (line ++ CRLF ++ rest)%string as [|c' s''] eqn:E.
  - destruct line; discriminate.
  - rewrite Hc. cbn [andb]. rewrite (IH Hline). reflexivity.
Qed.

Lemma chunkedBody_length (chunks : list string) :
  (List.length chunks < String.length (chunkedBody chunks))%nat.
Proof.
  induction chunks as [|d chunks IH]; [cbn; lia|].
  cbn [chunkedBody List.length]. rewrite !length_append.
  change (String.length CRLF) with 2%nat. lia.
Qed.

(** The reader gives the chunks back. *)
Lemma decodeChunks_chunkedBody (chunks : list string) :
  Forall (fun d => 0 < strlen d < 2 ^ 32) chunks ->
  forall fuel, (List.length chunks < fuel)%nat ->
               decodeChunks fuel (chunkedBody chunks) = Some chunks.
Proof.
  induction 1 as [|d chunks Hd _ IH]; intros fuel Hfuel;
    (destruct fuel as [|fuel]; [cbn in Hfuel; lia|]).
  - reflexivity.
  - cbn [chunkedBody decodeChunks].
    rewrite splitLine_append by (apply digits_noCR; lia).
    rewrite readHex_u32toaHex by lia.
    assert (Hnz : (strlen d =? 0) = false) by (apply Z.eqb_neq; lia).
    rewrite Hnz.
    assert (Hlen : (strlen (d ++ CRLF ++ chunkedBody chunks) <? strlen d)
                   = false).
    { apply Z.ltb_ge. rewrite strlen_append.
      pose proof (strlen_nonneg (CRLF ++ chunkedBody chunks)). lia. }
    rewrite Hlen. unfold strlen at 1 2. rewrite Nat2Z.id.
    rewrite skipn_string_append, substring_append_left.
    change (stripLineEnd (CRLF ++ chunkedBody chunks))
      with (Some (chunkedBody chunks)).
    cbv beta iota.
    rewrite IH by (cbn [List.length] in Hfuel; lia). reflexivity.
Qed.

Lemma decodeChunked_chunkedBody (chunks : list string) :
  Forall (fun d => 0 < strlen d < 2 ^ 32) chunks ->
  decodeChunked (chunkedBody chunks) = Some chunks.
Proof.
  intros Hc. unfold decodeChunked.
  apply decodeChunks_chunkedBody; [exact Hc|].
  pose proof (chunkedBody_length chunks). lia.
Qed.

(** The chunks as [write] frames them, closed by the terminating chunk, are
    a line end followed by the chunked coding of the payloads. *)
Lemma chunkStream_terminated (ds : list string) :
  (chunkStream ds ++ terminatingChunk)%string
  = (CRLF ++ chunkedBody (payloads ds))%string.
Proof.
  induction ds as [|d ds IH]; [reflexivity|].
  cbn [chunkStream payloads filter]. fold (payloads ds).
  destruct (nonEmpty d).
  - cbn [chunkedBody]. unfold chunkBytes.
    rewrite !append_assoc, IH. reflexivity.
  - cbn [append]. exact IH.
Qed.

Lemma chunkStream_app (ds1 ds2 : list string) :
  chunkStream (ds1 ++ ds2) = (chunkStream ds1 ++ chunkStream ds2)%string.
Proof.
  induction ds1 as [|d ds1 IH]; [reflexivity|].
  cbn [app chunkStream]. rewrite IH, append_assoc. reflexivity.
Qed.

(* ===================================================================== *)
(** * A chunked response, read back *)

Section ChunkedRoundTrip.

Context {F : HttpResponseDataFlags}.

(** [write] on a response in chunked mode: one chunk if there is data,
    nothing otherwise, and the flags as they were. *)
Lemma write_chunked_run (data : string) (w : World) :
  independent F ->
  strlen data <= INT_MAX ->
  statusCalled w ->
  flagSet (state w) HTTP_WRITE_CALLED = true ->
  wire (trace (after (write data) w))
  = (wire (trace w) ++ (if nonEmpty data then chunkBytes data else ""))%string
  /\ state (after (write data) w) = state w.
Proof.
  intros HF Hfit Hc Hw.
  pose proof (write_run data w HF Hfit) as Hrun. cbv zeta in Hrun.
  destruct Hrun as [W [S _]].
  unfold defaultStatus, chunkedHead in W. unfold statusCalled in Hc.
  rewrite Hc, Hw in W. rewrite Hw, (statusSet_idem _ Hc) in S.
  split.
  - rewrite W. destruct (nonEmpty data); reflexivity.
  - rewrite S. destruct (nonEmpty data); reflexivity.
Qed.

Lemma writes_chunked_run (ds : list string) :
  independent F ->
  Forall (fun d => strlen d <= INT_MAX) ds ->
  forall w,
    statusCalled w ->
    flagSet (state w) HTTP_WRITE_CALLED = true ->
    wire (trace (after (calls (map CallWrite ds)) w))
    = (wire (trace w) ++ chunkStream ds)%string
    /\ state (after (calls (map CallWrite ds)) w) = state w.
Proof.
  intros HF Hfit. induction Hfit as [|d ds Hd _ IH]; intros w Hc Hw.
  - cbn [map calls chunkStream]. rewrite append_empty_r.
    split; reflexivity.
  - cbn [map calls call chunkStream]. rewrite after_bind.
    assert (E : after (write d ;; ret tt) w = after (write d) w)
      by (rewrite after_bind; reflexivity).
    rewrite E. clear E.
    destruct (write_chunked_run d w HF Hd Hc Hw) as [W S].
    set (w1 := after (write d) w) in *.
    destruct (IH w1) as [W' S'].
    + unfold statusCalled. rewrite S. exact Hc.
    + rewrite S. exact Hw.
    + split; [|rewrite S', S; reflexivity].
      rewrite W', W, append_assoc. reflexivity.
Qed.

Lemma endChunked_wire (data : string) (w : World) :
  strlen data <= INT_MAX ->
  wire (trace (after (endChunked data) w))
  = (wire (trace w) ++ (if nonEmpty data then chunkBytes data else "")
     ++ terminatingChunk)%string.
Proof.
  intros Hfit. unfold nonEmpty, chunkBytes. run_world.
  destruct (strlen data =? 0); cbn [negb snd trace];
    rewrite ?wire_app; cbn [wire bytesOf];
    change (handed (CRLF ++ "0" ++ CRLF ++ CRLF) 7) with terminatingChunk.
  - rewrite !append_empty_r. reflexivity.
  - rewrite (handed_whole data Hfit).
    rewrite (handed_strlen (utils.u32toaHex (as_unsigned (strlen data)))).
    rewrite as_unsigned_small
      by (pose proof (strlen_nonneg data); unfold INT_MAX in Hfit; lia).
    rewrite !append_assoc. reflexivity.
Qed.

(** [end] on a response in chunked mode: the last chunk if there is data,
    then the terminating chunk. *)
Lemma end_chunked_run (data : string) (w : World) :
  strlen data <= INT_MAX ->
  statusCalled w ->
  flagSet (state w) HTTP_WRITE_CALLED = true ->
  wire (trace (after (end_ data) w))
  = (wire (trace w) ++ (if nonEmpty data then chunkBytes data else "")
     ++ terminatingChunk)%string.
Proof.
  intros Hfit Hc Hw. rewrite after_end. unfold after at 1.
  rewrite (internalEnd_chunked data (strlen data) false true w Hw).
  change (snd (endChunked data (after (writeStatus HTTP_200_OK) w)))
    with (after (endChunked data) (after (writeStatus HTTP_200_OK) w)).
  rewrite (endChunked_wire data _ Hfit).
  destruct (writeStatus_run HTTP_200_OK w) as [[W0 _] _];
    [vm_compute; discriminate|].
  rewrite W0. unfold statusBytes. unfold statusCalled in Hc. rewrite Hc.
  rewrite append_empty_r. reflexivity.
Qed.

Lemma payloads_sized (ds : list string) :
  Forall (fun d => strlen d <= INT_MAX) ds ->
  Forall (fun d => 0 < strlen d < 2 ^ 32) (payloads ds).
Proof.
  induction 1 as [|d ds Hd _ IH]; [constructor|].
  cbn [payloads filter]. fold (payloads ds).
  unfold nonEmpty at 1. destruct (strlen d =? 0) eqn:E; cbn [negb];
    [exact IH|].
  constructor; [|exact IH].
  apply Z.eqb_neq in E. pose proof (strlen_nonneg d).
  unfold INT_MAX in Hd. lia.
Qed.

End ChunkedRoundTrip.

(** X12.  A chunked response reads back.  After a [write] with data, further
    [write]s and one [end] hand the socket: the head (default status line if
    none was written, writemark and Transfer-Encoding: chunked if the
    response was not yet in chunked mode), the empty line that closes the
    head, and a body that a reader of the chunked transfer coding decodes to
    exactly the data of the calls, in order, the empty ones left out. *)
Theorem chunked_response_reads_back {F : HttpResponseDataFlags}
        (first : string) (more : list string) (last : string) (w : World) :
  independent F ->
  first <> "" ->
  Forall (fun d => strlen d <= INT_MAX) (first :: more ++ [last]) ->
  let w' := after (calls (CallWrite first :: map CallWrite more
                          ++ [CallEnd last])) w in
  exists body,
    wire (trace w')
    = (wire (trace w) ++ defaultStatus w ++ chunkedHead w ++ CRLF ++ body)%string
    /\ decodeChunked body = Some (payloads (first :: more ++ [last])).
Proof.
  intros HF Hne Hfit. cbv zeta.
  exists (chunkedBody (payloads (first :: more ++ [last]))).
  split; [|apply decodeChunked_chunkedBody, payloads_sized, Hfit].
  rewrite <- chunkStream_terminated.
  pose proof (independent_facts HF) as [[Hnz [Hnzw _]] [[Hsw _] _]].
  inversion Hfit as [|x l Hfirst Hrest]; subst x l.
  apply Forall_app in Hrest. destruct Hrest as [Hmore Hlast].
  inversion Hlast as [|x l Hl _]; subst x l.
  assert (Hlen : nonEmpty first = true).
  { unfold nonEmpty. apply negb_true_iff, Z.eqb_neq.
    intros E. apply Hne, strlen_zero, E. }
  change (calls (CallWrite first :: map CallWrite more ++ [CallEnd last]))
    with (call (CallWrite first) ;;
          calls (map CallWrite more ++ [CallEnd last])).
  rewrite after_bind, after_calls_app.
  assert (E : after (call (CallWrite first)) w = after (write first) w)
    by (cbn [call]; rewrite after_bind; reflexivity).
  rewrite E. clear E.
  pose proof (write_run first w HF Hfirst) as Hrun. cbv zeta in Hrun.
  rewrite Hlen in Hrun. destruct Hrun as [W1 [S1 _]].
  set (w1 := after (write first) w) in *.
  assert (Hc1 : statusCalled w1).
  { unfold statusCalled. rewrite S1.
    destruct (flagSet (state w) HTTP_WRITE_CALLED).
    - apply statusSet_called, Hnz.
    - apply flagSet_lor_mono, statusSet_called, Hnz. }
  assert (Hw1 : flagSet (state w1) HTTP_WRITE_CALLED = true).
  { rewrite S1. destruct (flagSet (state w) HTTP_WRITE_CALLED) eqn:Hw.
    - rewrite statusSet_other; assumption.
    - apply flagSet_lor_same, Hnzw. }
  destruct (writes_chunked_run more HF Hmore w1 Hc1 Hw1) as [W2 S2].
  set (w2 := after (calls (map CallWrite more)) w1) in *.
  assert (E : after (calls [CallEnd last]) w2 = after (end_ last) w2)
    by (cbn [calls call]; rewrite after_bind; reflexivity).
  rewrite E. clear E.
  rewrite (end_chunked_run last w2 Hl).
  - rewrite W2, W1.
    cbn [chunkStream]. rewrite Hlen, chunkStream_app. cbn [chunkStream].
    rewrite ?append_assoc, ?append_empty_r. reflexivity.
  - unfold statusCalled. rewrite S2. exact Hc1.
  - rewrite S2. exact Hw1.
Qed.

(* ===================================================================== *)
(** * The handlers *)

Section Handlers.

Context {F : HttpResponseDataFlags}.

#[local] Instance pendingKeeps_PreOrder : RelationClasses.PreOrder pendingKeeps.
Proof.
  split.
  - intros w Hp. repeat split. exact Hp.
  - intros w1 w2 w3 H12 H23 Hp.
    destruct (H23 Hp) as [Hp2 [Ha2 Hw2]].
    destruct (H12 Hp2) as [Hp1 [Ha1 Hw1]].
    split; [exact Hp1 | split; congruence].
Qed.

(** [markDone] leaves no pending response. *)
Lemma markDone_pendingKeeps : rel pendingKeeps markDone.
Proof.
  intros w Hp. exfalso. revert Hp. unfold markDone. run_world.
  cbn [snd state]. rewrite flagSet_clear_same. discriminate.
Qed.

#[local] Hint Resolve markDone_pendingKeeps : rel.

Hypothesis HF : independent F.

Ltac leaf_pending :=
  pose proof (independent_facts HF) as [_ [[_ [_ ?]] [_ [? ?]]]];
  leaf_unfold; unfold pendingKeeps; cbn [state onAborted onWritable];
  rewrite ?flagSet_lor_other by assumption;
  intros; repeat split; assumption.

Lemma call_pendingKeeps (c : Call) :
  registers c = false -> rel pendingKeeps (call c).
Proof. destruct c; intros Hr; try discriminate Hr; rel_walk leaf_pending. Qed.

Lemma call_handlers (c : Call) (w : World) :
  flagSet (state (after (call c) w)) HTTP_RESPONSE_PENDING = true ->
  flagSet (state w) HTTP_RESPONSE_PENDING = true
  /\ onAborted (after (call c) w) = abortedHandler (onAborted w) c
  /\ onWritable (after (call c) w) = writableHandler (onWritable w) c.
Proof.
  destruct (registers c) eqn:Hr.
  - destruct c; try discriminate Hr; intros Hp; repeat split; exact Hp.
  - intros Hp. destruct (call_pendingKeeps c Hr w Hp) as [Hp0 [Ha Hw]].
    destruct c; try discriminate Hr; repeat split; assumption.
Qed.

Lemma calls_handlers (cs : list Call) :
  forall w,
    flagSet (state (after (calls cs) w)) HTTP_RESPONSE_PENDING = true ->
    flagSet (state w) HTTP_RESPONSE_PENDING = true
    /\ onAborted (after (calls cs) w)
       = fold_left abortedHandler cs (onAborted w)
    /\ onWritable (after (calls cs) w)
       = fold_left writableHandler cs (onWritable w).
Proof.
  induction cs as [|c cs IH]; intros w Hp.
  - repeat split. exact Hp.
  - cbn [calls fold_left] in *. rewrite after_bind in *.
    destruct (IH _ Hp) as [Hp1 [Ha Hw]].
    destruct (call_handlers c w Hp1) as [Hp0 [Ha0 Hw0]].
    rewrite Ha, Hw, Ha0, Hw0. repeat split. exact Hp0.
Qed.

End Handlers.

Lemma call_inStream {F : HttpResponseDataFlags} (c : Call) :
  registers c = false -> rel (keeps inStream) (call c).
Proof. destruct c; intros Hr; try discriminate Hr; rel_walk leaf_keeps. Qed.

(** X13.  The handlers outlive everything but completion.  After any calls
    that leave the response pending, the [onAborted] and [onWritable]
    handlers are the ones registered last (or the ones the response had, if
    none was registered): nothing but [markDone], which ends the pending
    state, removes or replaces a handler. *)
Theorem handlers_stay_while_pending {F : HttpResponseDataFlags}
        (cs : list Call) (w : World) :
  independent F ->
  fst (hasResponded (after (calls cs) w)) = false ->
  onAborted (after (calls cs) w) = fold_left abortedHandler cs (onAborted w)
  /\ onWritable (after (calls cs) w)
     = fold_left writableHandler cs (onWritable w).
Proof.
  intros HF Hp.
  assert (Hp' : flagSet (state (after (calls cs) w)) HTTP_RESPONSE_PENDING
                = true).
  { revert Hp. unfold hasResponded. rewrite fst_bind. unfold testState.
    cbn [ret fst]. apply negb_false_iff. }
  exact (proj2 (calls_handlers HF cs w Hp')).
Qed.

(** X14.  No member function removes the [onData] handler: after any calls,
    also those that complete the response, it is the one registered last,
    or the one the response had. *)
Theorem onData_handler_is_never_removed {F : HttpResponseDataFlags}
        (cs : list Call) (w : World) :
  inStream (after (calls cs) w) = fold_left dataHandler cs (inStream w).
Proof.
  revert w. induction cs as [|c cs IH]; intros w; [reflexivity|].
  cbn [calls fold_left]. rewrite after_bind, IH. f_equal.
  destruct (registers c) eqn:Hr.
  - destruct c; try discriminate Hr; reflexivity.
  - rewrite (call_inStream c Hr w).
    destruct c; try discriminate Hr; reflexivity.
Qed.

(* ===================================================================== *)
(** * A whole response in one call *)

Lemma tookAllb_spec (tr : list Event) :
  forallb tookAllb tr = true -> Forall tookAll tr.
Proof.
  intros H. apply Forall_forall. intros e He.
  pose proof (proj1 (forallb_forall _ _) H e He) as Hb.
  destruct e as [site buf len opt [n f]|s]; [|exact I].
  cbn in Hb. apply andb_true_iff in Hb. destruct Hb as [Hn Hf].
  split; [apply Z.eqb_eq, Hn | apply negb_true_iff, Hf].
Qed.

(** What a socket that takes everything was handed is what it took. *)
Lemma wire_tookAll (delta : list Event) :
  forallb (isSite Payload) delta = true ->
  Forall tookAll delta ->
  wire delta = bodySent delta.
Proof.
  induction delta as [|e delta IH]; intros Hp Ht; [reflexivity|].
  cbn [forallb] in Hp. apply andb_true_iff in Hp. destruct Hp as [He Hp].
  inversion Ht as [|x l Hx Hl]; subst x l.
  cbn [wire bodySent]. rewrite (IH Hp Hl). f_equal.
  destruct e as [[] buf len opt [n f]|s]; try discriminate He.
  cbn [tookAll] in Hx. destruct Hx as [Hn _]. subst n. reflexivity.
Qed.

Lemma wire_armed (tail : list Event) :
  forallb isArmed tail = true -> wire tail = "".
Proof.
  induction tail as [|e tail IH]; [reflexivity|].
  cbn [forallb]. intros H. apply andb_true_iff in H. destruct H as [He Ht].
  destruct e; [discriminate He|]. cbn [wire bytesOf append]. exact (IH Ht).
Qed.

(** With a socket that takes everything the loop ends without a failure. *)
Lemma writeRounds_took_all (data : string) (optional : bool) :
  forall rounds written w delta,
    trace (snd (writeRounds rounds data optional written false w))
    = trace w ++ delta ->
    Forall tookAll delta ->
    snd (fst (writeRounds rounds data optional written false w)) = false.
Proof.
  induction rounds as [|rounds IH]; intros written w delta; cbn [writeRounds];
    destruct ((written <? strlen data) && negb false) eqn:Hc;
    try (intros _ _; reflexivity).
  rewrite run_bind. intros E Ht.
  set (chunk := as_int (Z.min (as_size_t (strlen data - written)) INT_MAX)) in *.
  set (w' := after (Super.write Payload (advance data written) chunk optional) w)
    in *.
  set (a := fst (Super.write Payload (advance data written) chunk optional w))
    in *.
  assert (Ew' : trace w'
                = trace w ++ [Sent Payload (advance data written) chunk
                                   optional a]) by reflexivity.
  destruct (writeRounds_logs data optional rounds
              (as_size_t (written + fst a)) (snd a) w') as [d' [Ed' _]].
  unfold after in Ed'. rewrite Ed', Ew', <- app_assoc in E.
  apply app_inv_head in E. subst delta. cbn [app] in Ht.
  inversion Ht as [|e l He Hl]; subst e l. clear Ht.
  destruct a as [n f]. cbn [tookAll fst snd] in *.
  destruct He as [_ Hf]. subst f.
  exact (IH _ w' d' Ed' Hl).
Qed.

Lemma chunk_tookAll_honest (data : string) (optional : bool) (e : Event) :
  chunkOf data optional e -> tookAll e -> honest e.
Proof.
  destruct e as [[] buf len opt [n f]|s]; cbn [chunkOf tookAll honest];
    try tauto.
  intros [_ [k [_ [_ [Hlen _]]]]] [Hn _]. lia.
Qed.

Section WholeResponse.

Context {F : HttpResponseDataFlags}.

(** The loop on a socket that takes everything: all of the data, once. *)
Lemma writeAll_took_all (data : string) (optional : bool) (w : World) :
  strlen data < 2 ^ 64 ->
  Forall tookAll (added (writeAll data optional) w) ->
  fst (writeAll data optional w) = (strlen data, false)
  /\ wire (added (writeAll data optional) w) = data.
Proof.
  intros Hsize Hall.
  destruct (writeAll_logs data optional w) as [d [E P]].
  rewrite (added_app _ _ _ E) in *.
  pose proof (writeAll_exit data optional w) as Hx. cbv zeta in Hx.
  unfold after, writeAll in E, Hx |- *.
  set (rounds := S (List.length (answers w))) in *.
  pose proof (strlen_nonneg data) as Hpos.
  pose proof (writeRounds_chunks data optional Hsize rounds 0 false w d
                (Z.le_refl 0) E) as Hch.
  assert (Hh : Forall honest d).
  { apply Forall_forall. intros e He.
    apply (chunk_tookAll_honest data optional).
    - exact (proj1 (Forall_forall _ _) Hch e He).
    - exact (proj1 (Forall_forall _ _) Hall e He). }
  pose proof (writeRounds_honest data optional Hsize rounds 0 false w d E Hh
                (conj (Z.le_refl 0) Hpos)) as Hr.
  cbv zeta in Hr. destruct Hr as [_ Hr].
  pose proof (writeRounds_took_all data optional rounds 0 w d E Hall) as Hf.
  pose proof (writeRounds_sends data optional Hsize rounds 0 false w d E Hh
                (conj (Z.le_refl 0) Hpos)) as Hs.
  destruct (writeRounds rounds data optional 0 false w) as [[written failed] w'].
  cbn [fst snd] in *. subst failed.
  destruct Hx as [Hx|Hx]; [discriminate Hx|].
  assert (written = strlen data) by lia. subst written.
  split; [reflexivity|].
  rewrite (wire_tookAll d P Hall).
  change (Z.to_nat 0) with 0%nat in Hs. rewrite substring_none in Hs.
  cbn [append] in Hs. rewrite Hs.
  unfold strlen. rewrite Nat2Z.id. apply substring_whole.
Qed.

End WholeResponse.

(** X15.  A whole response in one call.  On the fixed-length path, with no
    body byte counted yet, [internalEnd(data, data.length(), ...)] (what
    [end(data)] and [tryEnd(data, data.length())] call) on a socket that
    takes everything it is handed: the bytes are the default status line if
    none was written, on the first call the writemark and the Content-Length
    header with the blank line, then the data, each byte once; the call
    returns true, the offset is the length of the data, and the response is
    done. *)
Theorem whole_response_in_one_call {F : HttpResponseDataFlags}
        (data : string) (optional allowContentLength : bool) (w : World) :
  independent F ->
  flagSet (state w) HTTP_WRITE_CALLED = false ->
  offset w = 0 ->
  strlen data < 2 ^ 64 ->
  let m := internalEnd data (strlen data) optional allowContentLength in
  Forall tookAll (added m w) ->
  wire (added m w)
  = (defaultStatus w ++ endHead allowContentLength (strlen data) w
     ++ data)%string
  /\ fst (m w) = true
  /\ offset (after m w) = strlen data
  /\ done (after m w).
Proof.
  intros HF Hw Ho Hsize. cbv zeta. intros Hall.
  pose proof (independent_facts HF) as [[Hnz _] [[_ [Hse _]] _]].
  pose proof (strlen_nonneg data) as Hpos.
  set (total := strlen data) in *.
  set (w0 := after (writeStatus HTTP_200_OK) w).
  set (w1 := after (endHeaders total allowContentLength) w0).
  set (r := writeAll data optional w1).
  assert (Hrun : internalEnd data total optional allowContentLength w
                 = endAccount data total (fst (fst r)) (snd (fst r)) (snd r)).
  { rewrite internalEnd_fixed by assumption.
    unfold total. rewrite declaredTotal_end, endFixed_run. reflexivity. }
  destruct (writeStatus_logs HTTP_200_OK w) as [d0 [E0 P0]].
  destruct (endHeaders_logs total allowContentLength w0) as [d1 [E1 P1]].
  destruct (writeAll_logs data optional w1) as [d2 [E2 P2]].
  fold w0 in E0. fold w1 in E1.
  pose proof (added_app _ _ _ E2) as A2.
  unfold after in E2. fold r in E2.
  destruct (writeStatus_run HTTP_200_OK w)
    as [[W0 [_ [O0 [_ [_ N0]]]]] S0]; [vm_compute; discriminate|].
  fold w0 in W0, O0, N0, S0.
  assert (Hc0 : statusCalled w0).
  { unfold statusCalled. rewrite S0. apply statusSet_called, Hnz. }
  destruct (endHeaders_run total allowContentLength w0 Hc0)
    as [[W1 [_ [O1 _]]] _].
  fold w1 in W1, O1.
  pose proof (writeAll_keeps_fields data optional w1) as K.
  unfold keeps, after in K. fold r in K. injection K as _ K _ _.
  set (tail := if negb ((fst (fst r) =? total) && negb (snd (fst r)))
                  || (as_size_t (offset (snd r) + fst (fst r)) =? total)
               then [Armed HTTP_TIMEOUT_S] else []).
  assert (Hadded : added (internalEnd data total optional allowContentLength) w
                   = d0 ++ d1 ++ d2 ++ tail).
  { unfold added, after. rewrite Hrun, endAccount_world. cbv zeta.
    cbn [snd trace]. rewrite E2, E1, E0, <- !app_assoc.
    rewrite skipn_app, skipn_all, Nat.sub_diag. reflexivity. }
  rewrite Hadded in Hall |- *.
  apply Forall_app in Hall. destruct Hall as [_ Hall].
  apply Forall_app in Hall. destruct Hall as [_ Hall].
  apply Forall_app in Hall. destruct Hall as [Hall _].
  rewrite <- A2 in Hall.
  destruct (writeAll_took_all data optional w1 Hsize Hall) as [Hr Hwire].
  fold r in Hr. rewrite A2 in Hwire.
  assert (Ho1 : offset (snd r) = 0) by (rewrite K, O1, O0; exact Ho).
  assert (Hoff : as_size_t (offset (snd r) + fst (fst r)) = total).
  { rewrite Ho1, Hr. cbn [fst]. apply as_size_t_small. lia. }
  split; [|split; [|split]].
  - rewrite E1, wire_app in W1. apply append_inv_head in W1.
    rewrite E0, wire_app in W0. apply append_inv_head in W0.
    rewrite !wire_app, W0, W1, Hwire.
    assert (Htail : wire tail = "") by (unfold tail; destruct (_ || _); reflexivity).
    rewrite Htail, append_empty_r.
    unfold endHead, markLine. rewrite S0, statusSet_other, N0 by exact Hse.
    reflexivity.
  - rewrite Hrun, endAccount_world. cbv zeta. cbn [fst].
    rewrite Hr. cbn [fst snd negb]. rewrite Z.eqb_refl. reflexivity.
  - unfold after. rewrite Hrun, endAccount_world. cbv zeta. cbn [snd offset].
    exact Hoff.
  - unfold done, after. rewrite Hrun, endAccount_world. cbv zeta.
    cbn [snd onAborted onWritable state]. rewrite Hoff, Z.eqb_refl.
    repeat split. apply flagSet_clear_same.
Qed.

(* ===================================================================== *)
(** * The two overloads of writeHeader *)

Lemma length_digits (base : Z) (width : nat) :
  forall n, (String.length (utils.digits base width n) <= width)%nat.
Proof.
  induction width as [|width IH]; intros n; cbn [utils.digits];
    [cbn; lia|].
  destruct (n <? base); [cbn; lia|].
  rewrite length_append. cbn [String.length].
  specialize (IH (n / base)). lia.
Qed.

Lemma strlen_u64toa (value : Z) : strlen (utils.u64toa value) <= INT_MAX.
Proof.
  unfold strlen, utils.u64toa, INT_MAX.
  pose proof (length_digits 10 20 value). lia.
Qed.

Section HeaderOverloads.

Context {F : HttpResponseDataFlags}.

Lemma writeHeaderU64_run (key : string) (value : Z) (w : World) :
  strlen key <= INT_MAX ->
  emits (headerLine key (utils.u64toa value)) w
        (after (writeHeaderU64 key value) w)
  /\ state (after (writeHeaderU64 key value) w) = state w.
Proof.
  intros Hk. unfold writeHeaderU64, writeUnsigned64. cbv zeta.
  rewrite !after_bind. cbv beta.
  assert (Hret : forall w', after (ret tt) w' = w') by reflexivity.
  rewrite !Hret. clear Hret.
  set (buf := utils.u64toa value).
  set (w1 := after (Super.write HeaderLine key (as_int (strlen key)) false) w).
  set (w2 := after (Super.write HeaderLine ": " 2 false) w1).
  set (w3 := after (Super.write HeaderLine buf (strlen buf) false) w2).
  set (w4 := after (Super.write HeaderLine CRLF 2 false) w3).
  destruct (Super_write_emits HeaderLine key (as_int (strlen key)) false w)
    as [E1 S1].
  destruct (Super_write_emits HeaderLine ": " 2 false w1) as [E2 S2].
  destruct (Super_write_emits HeaderLine buf (strlen buf) false w2)
    as [E3 S3].
  destruct (Super_write_emits HeaderLine CRLF 2 false w3) as [E4 S4].
  fold w1 in E1, S1. fold w2 in E2, S2. fold w3 in E3, S3. fold w4 in E4, S4.
  rewrite (handed_whole key Hk) in E1. rewrite (handed_strlen buf) in E3.
  split.
  - exact (emits_trans _ _ _ _ _ E1
             (emits_trans _ _ _ _ _ E2 (emits_trans _ _ _ _ _ E3 E4))).
  - rewrite S4, S3, S2, S1. reflexivity.
Qed.

End HeaderOverloads.

(** X16.  The two overloads of [writeHeader] agree once the status line is
    written: [writeHeader(key, n)] hands the socket the header line with
    the decimal text of [n], the bytes [writeHeader(key, text)] hands it for
    that text, and both leave the flags as they are. *)
Theorem header_overloads_agree {F : HttpResponseDataFlags} (key : string)
        (value : Z) (w : World) :
  statusCalled w ->
  strlen key <= INT_MAX ->
  let a := after (writeHeaderU64 key value) w in
  let b := after (writeHeader key (utils.u64toa value)) w in
  emits (headerLine key (utils.u64toa value)) w a
  /\ wire (trace a) = wire (trace b)
  /\ state a = state b.
Proof.
  intros Hc Hk. cbv zeta.
  destruct (writeHeaderU64_run key value w Hk) as [Ea Sa].
  destruct (writeHeader_called_run key (utils.u64toa value) w Hc Hk
              (strlen_u64toa value)) as [Eb Sb].
  split; [exact Ea | split].
  - destruct Ea as [Wa _]. destruct Eb as [Wb _]. congruence.
  - congruence.
Qed.

(* ===================================================================== *)
(** * The theorems at work on concrete responses *)

Lemma progress_is_never_undone_witness :
  independent bits1248
  /\ progress (F := bits1248) chunkedOpen
              (after (calls (F := bits1248) [CallEnd ""]) chunkedOpen).
Proof.
  assert (HF : independent bits1248) by reflexivity.
  split; [exact HF|].
  exact (proj1 (progress_is_never_undone (F := bits1248) [CallEnd ""]
                  chunkedOpen HF)).
Defined.

Lemma response_head_format_witness :
  independent bits1248
  /\ flagSet (state opened)
             (HTTP_STATUS_CALLED (HttpResponseDataFlags := bits1248)) = false
  /\ strlen "404 Not Found" <= INT_MAX
  /\ Forall headerFits [("Content-Type", "text/plain")]
  /\ emits ("HTTP/1.1 " ++ "404 Not Found" ++ CRLF
            ++ headerLines [("Content-Type", "text/plain")])%string
           opened
           (after (calls (F := bits1248)
                         (CallWriteStatus "404 Not Found"
                          :: headerCalls (F := bits1248)
                               [("Content-Type", "text/plain")]))
                  opened).
Proof.
  assert (HF : independent bits1248) by reflexivity.
  assert (Hs : flagSet (state opened)
                       (HTTP_STATUS_CALLED (HttpResponseDataFlags := bits1248))
               = false) by reflexivity.
  assert (Hl : strlen "404 Not Found" <= INT_MAX)
    by (vm_compute; discriminate).
  assert (Hh : Forall headerFits [("Content-Type", "text/plain")]).
  { constructor; [split; vm_compute; discriminate | constructor]. }
  split; [exact HF|]. split; [exact Hs|]. split; [exact Hl|].
  split; [exact Hh|].
  exact (response_head_format (F := bits1248) "404 Not Found"
           [("Content-Type", "text/plain")] opened HF Hs Hl Hh).
Defined.

Lemma write_format_witness :
  independent bits1248
  /\ "x" <> ""
  /\ strlen "x" <= INT_MAX
  /\ offset (after (write (F := bits1248) "x") opened) = offset opened.
Proof.
  assert (HF : independent bits1248) by reflexivity.
  assert (Hne : "x" <> "") by discriminate.
  assert (Hl : strlen "x" <= INT_MAX) by (vm_compute; discriminate).
  split; [exact HF|]. split; [exact Hne|]. split; [exact Hl|].
  exact (proj2 (proj2 (proj2 (write_format (F := bits1248) "x" opened
                                HF Hne Hl)))).
Defined.

Lemma write_reports_failure_witness :
  "x" <> ""
  /\ exists a delta,
      trace (after (write (F := bits1248) "x") opened)
      = trace opened ++ delta
        ++ [Sent Payload "x" (as_int (strlen "x")) false a]
        ++ (if snd a then [Armed HTTP_TIMEOUT_S] else [])
      /\ forallb isSent delta = true
      /\ fst (write (F := bits1248) "x" opened) = negb (snd a)
      /\ timeouts (added (write (F := bits1248) "x") opened)
         = if snd a then 1%nat else 0%nat.
Proof.
  assert (Hne : "x" <> "") by discriminate.
  split; [exact Hne|].
  exact (write_reports_failure (F := bits1248) "x" opened Hne).
Defined.

Lemma end_starts_timeout_witness :
  independent bits1248
  /\ strlen "abc" < 2 ^ 64
  /\ (offset opened = 0
      \/ flagSet (state opened)
                 (HTTP_WRITE_CALLED (HttpResponseDataFlags := bits1248)) = true)
  /\ timeouts (added (end_ (F := bits1248) "abc") opened) = 1%nat.
Proof.
  assert (HF : independent bits1248) by reflexivity.
  assert (Hl : strlen "abc" < 2 ^ 64) by (vm_compute; reflexivity).
  assert (Ho : offset opened = 0
               \/ flagSet (state opened)
                          (HTTP_WRITE_CALLED (HttpResponseDataFlags := bits1248))
                  = true) by (left; reflexivity).
  split; [exact HF|]. split; [exact Hl|]. split; [exact Ho|].
  exact (end_starts_timeout (F := bits1248) "abc" opened HF Hl Ho).
Defined.

Lemma end_after_body_bytes_never_completes_witness :
  independent bits1248
  /\ flagSet (state partlySent)
             (HTTP_WRITE_CALLED (HttpResponseDataFlags := bits1248)) = false
  /\ 0 < offset partlySent
  /\ offset partlySent + strlen "bc" < 2 ^ 64
  /\ fst (internalEnd (F := bits1248) "bc" (strlen "bc") false true partlySent)
     = true
  /\ timeouts (added (end_ (F := bits1248) "bc") partlySent) = 0%nat.
Proof.
  assert (HF : independent bits1248) by reflexivity.
  assert (Hw : flagSet (state partlySent)
                       (HTTP_WRITE_CALLED (HttpResponseDataFlags := bits1248))
               = false) by (vm_compute; reflexivity).
  assert (Ho : 0 < offset partlySent) by (vm_compute; reflexivity).
  assert (Hs : offset partlySent + strlen "bc" < 2 ^ 64)
    by (vm_compute; reflexivity).
  assert (Hr : fst (internalEnd (F := bits1248) "bc" (strlen "bc") false true
                                partlySent) = true)
    by (vm_compute; reflexivity).
  split; [exact HF|]. split; [exact Hw|]. split; [exact Ho|].
  split; [exact Hs|]. split; [exact Hr|].
  exact (proj1 (end_after_body_bytes_never_completes (F := bits1248) "bc"
                  partlySent HF Hw Ho Hs Hr)).
Defined.

Lemma tryEnd_reports_witness :
  independent bits1248
  /\ flagSet (state opened)
             (HTTP_WRITE_CALLED (HttpResponseDataFlags := bits1248)) = false
  /\ flagSet (state opened)
             (HTTP_RESPONSE_PENDING (HttpResponseDataFlags := bits1248)) = true
  /\ snd (fst (tryEnd (F := bits1248) "abc" 3 opened))
     = (offset (after (tryEnd (F := bits1248) "abc" 3) opened)
        =? declaredTotal "abc" 3).
Proof.
  assert (HF : independent bits1248) by reflexivity.
  assert (Hw : flagSet (state opened)
                       (HTTP_WRITE_CALLED (HttpResponseDataFlags := bits1248))
               = false) by reflexivity.
  assert (Hp : flagSet (state opened)
                       (HTTP_RESPONSE_PENDING
                          (HttpResponseDataFlags := bits1248))
               = true) by reflexivity.
  split; [exact HF|]. split; [exact Hw|]. split; [exact Hp|].
  exact (proj1 (tryEnd_reports (F := bits1248) "abc" 3 opened HF Hw Hp)).
Defined.

Lemma payload_writes_stay_in_bounds_witness :
  independent bits1248
  /\ flagSet (state opened)
             (HTTP_WRITE_CALLED (HttpResponseDataFlags := bits1248)) = false
  /\ strlen "abc" < 2 ^ 64
  /\ Forall (fun e => isSite Payload e = true -> chunkOf "abc" true e)
            (added (internalEnd (F := bits1248) "abc" 3 true true) opened).
Proof.
  assert (HF : independent bits1248) by reflexivity.
  assert (Hw : flagSet (state opened)
                       (HTTP_WRITE_CALLED (HttpResponseDataFlags := bits1248))
               = false) by reflexivity.
  assert (Hl : strlen "abc" < 2 ^ 64) by (vm_compute; reflexivity).
  split; [exact HF|]. split; [exact Hw|]. split; [exact Hl|].
  exact (payload_writes_stay_in_bounds (F := bits1248) "abc" 3 true true
           opened HF Hw Hl).
Defined.

Lemma stream_sends_body_once_witness :
  independent bits1248
  /\ fresh (F := bits1248) trickling
  /\ strlen "abc" < 2 ^ 64
  /\ Forall honest (trace (after (stream (F := bits1248) 2 "abc") trickling))
  /\ bodySent (trace (after (stream (F := bits1248) 2 "abc") trickling))
     = substring 0
         (Z.to_nat (offset (after (stream (F := bits1248) 2 "abc") trickling)))
         "abc".
Proof.
  assert (HF : independent bits1248) by reflexivity.
  assert (Hl : strlen "abc" < 2 ^ 64) by (vm_compute; reflexivity).
  assert (Hh : Forall honest
                      (trace (after (stream (F := bits1248) 2 "abc")
                                    trickling)))
    by (apply honestb_honest; vm_compute; reflexivity).
  split; [exact HF|]. split; [exact (fresh_start _)|]. split; [exact Hl|].
  split; [exact Hh|].
  exact (proj1 (proj2 (stream_sends_body_once (F := bits1248) 2 "abc"
                         trickling HF (fresh_start _) Hl Hh))).
Defined.

Lemma end_head_format_witness :
  independent bits1248
  /\ flagSet (state opened)
             (HTTP_WRITE_CALLED (HttpResponseDataFlags := bits1248)) = false
  /\ exists head body tail,
      added (internalEnd (F := bits1248) "abc" 3 false true) opened
      = head ++ body ++ tail
      /\ wire head
         = (defaultStatus (F := bits1248) opened
            ++ endHead (F := bits1248) true (declaredTotal "abc" 3)
                       opened)%string
      /\ forallb isHead head = true
      /\ forallb (isSite Payload) body = true
      /\ forallb isArmed tail = true.
Proof.
  assert (HF : independent bits1248) by reflexivity.
  assert (Hw : flagSet (state opened)
                       (HTTP_WRITE_CALLED (HttpResponseDataFlags := bits1248))
               = false) by reflexivity.
  split; [exact HF|]. split; [exact Hw|].
  exact (end_head_format (F := bits1248) "abc" 3 false true opened HF Hw).
Defined.

Lemma upgrade_format_witness :
  independent bits1248
  /\ flagSet (state (start (F := bits1248) []))
             (HTTP_WRITE_CALLED (HttpResponseDataFlags := bits1248)) = false
  /\ strlen (generate (WebSocketHandshake := fixtureHandshake)
                      "dGhlIHNhbXBsZSBub25jZQ==") <= INT_MAX
  /\ strlen "chat, superchat" <= INT_MAX
  /\ strlen (counterOffer (O := sampleOptions) (C := sampleCompressOptions)
                          (N := grantingNegotiator)
                          (DEDICATED_COMPRESSOR_8KB
                             (CompressOptions := sampleCompressOptions))
                          "permessage-deflate; client_max_window_bits")
     <= INT_MAX
  /\ (as_size_t (offset (start (F := bits1248) [])) = 0 ->
      done (F := bits1248)
           (after (upgrade (F := bits1248) (O := sampleOptions)
                           (C := sampleCompressOptions)
                           (N := grantingNegotiator) (H := fixtureHandshake)
                           "dGhlIHNhbXBsZSBub25jZQ==" "chat, superchat"
                           "permessage-deflate; client_max_window_bits"
                           (DEDICATED_COMPRESSOR_8KB
                              (CompressOptions := sampleCompressOptions)))
                  (start (F := bits1248) []))).
Proof.
  assert (HF : independent bits1248) by reflexivity.
  assert (Hw : flagSet (state (start (F := bits1248) []))
                       (HTTP_WRITE_CALLED (HttpResponseDataFlags := bits1248))
               = false) by reflexivity.
  assert (Hk : strlen (generate (WebSocketHandshake := fixtureHandshake)
                                "dGhlIHNhbXBsZSBub25jZQ==") <= INT_MAX)
    by (vm_compute; discriminate).
  assert (Hp : strlen "chat, superchat" <= INT_MAX)
    by (vm_compute; discriminate).
  assert (He : strlen (counterOffer (O := sampleOptions)
                                    (C := sampleCompressOptions)
                                    (N := grantingNegotiator)
                                    (DEDICATED_COMPRESSOR_8KB
                                       (CompressOptions := sampleCompressOptions))
                                    "permessage-deflate; client_max_window_bits")
               <= INT_MAX)
    by (vm_compute; discriminate).
  split; [exact HF|]. split; [exact Hw|]. split; [exact Hk|].
  split; [exact Hp|]. split; [exact He|].
  exact (proj2 (proj2 (upgrade_format (F := bits1248) (O := sampleOptions)
                         (C := sampleCompressOptions)
                         (N := grantingNegotiator) (H := fixtureHandshake)
                         "dGhlIHNhbXBsZSBub25jZQ==" "chat, superchat"
                         "permessage-deflate; client_max_window_bits"
                         (DEDICATED_COMPRESSOR_8KB
                            (CompressOptions := sampleCompressOptions))
                         (start (F := bits1248) []) HF Hw Hk Hp He))).
Defined.

Lemma chunked_response_reads_back_witness :
  independent bits1248
  /\ "x" <> ""
  /\ Forall (fun d => strlen d <= INT_MAX) ("x" :: ["" ; "yz"] ++ ["!"])
  /\ exists body,
      wire (trace (after (calls (F := bits1248)
                                (CallWrite "x" :: map CallWrite ["" ; "yz"]
                                 ++ [CallEnd "!"])) opened))
      = (wire (trace opened) ++ defaultStatus (F := bits1248) opened
         ++ chunkedHead (F := bits1248) opened ++ CRLF ++ body)%string
      /\ decodeChunked body = Some (payloads ("x" :: ["" ; "yz"] ++ ["!"])).
Proof.
  assert (HF : independent bits1248) by reflexivity.
  assert (Hne : "x" <> "") by discriminate.
  assert (Hl : Forall (fun d => strlen d <= INT_MAX)
                      ("x" :: ["" ; "yz"] ++ ["!"]))
    by (repeat constructor; vm_compute; discriminate).
  split; [exact HF|]. split; [exact Hne|]. split; [exact Hl|].
  exact (chunked_response_reads_back (F := bits1248) "x" ["" ; "yz"] "!"
           opened HF Hne Hl).
Defined.

Lemma handlers_stay_while_pending_witness :
  independent bits1248
  /\ fst (hasResponded (F := bits1248)
            (after (calls (F := bits1248)
                          [CallOnAborted 5%nat; CallWriteStatus "200 OK";
                           CallOnWritable 7%nat; CallWriteHeader "A" "b"])
                   opened)) = false
  /\ onAborted (after (calls (F := bits1248)
                             [CallOnAborted 5%nat; CallWriteStatus "200 OK";
                              CallOnWritable 7%nat; CallWriteHeader "A" "b"])
                      opened)
     = fold_left abortedHandler
                 [CallOnAborted 5%nat; CallWriteStatus "200 OK";
                  CallOnWritable 7%nat; CallWriteHeader "A" "b"]
                 (onAborted opened).
Proof.
  assert (HF : independent bits1248) by reflexivity.
  assert (Hp : fst (hasResponded (F := bits1248)
                      (after (calls (F := bits1248)
                                    [CallOnAborted 5%nat;
                                     CallWriteStatus "200 OK";
                                     CallOnWritable 7%nat;
                                     CallWriteHeader "A" "b"])
                             opened)) = false)
    by (vm_compute; reflexivity).
  split; [exact HF|]. split; [exact Hp|].
  exact (proj1 (handlers_stay_while_pending (F := bits1248)
                  [CallOnAborted 5%nat; CallWriteStatus "200 OK";
                   CallOnWritable 7%nat; CallWriteHeader "A" "b"]
                  opened HF Hp)).
Defined.

Lemma whole_response_in_one_call_witness :
  independent bits1248
  /\ flagSet (state opened)
             (HTTP_WRITE_CALLED (HttpResponseDataFlags := bits1248)) = false
  /\ offset opened = 0
  /\ strlen "abc" < 2 ^ 64
  /\ Forall tookAll
            (added (internalEnd (F := bits1248) "abc" (strlen "abc") false true)
                   opened)
  /\ wire (added (internalEnd (F := bits1248) "abc" (strlen "abc") false true)
                 opened)
     = (defaultStatus (F := bits1248) opened
        ++ endHead (F := bits1248) true (strlen "abc") opened
        ++ "abc")%string.
Proof.
  assert (HF : independent bits1248) by reflexivity.
  assert (Hw : flagSet (state opened)
                       (HTTP_WRITE_CALLED (HttpResponseDataFlags := bits1248))
               = false) by reflexivity.
  assert (Ho : offset opened = 0) by reflexivity.
  assert (Hl : strlen "abc" < 2 ^ 64) by (vm_compute; reflexivity).
  assert (Ht : Forall tookAll
                      (added (internalEnd (F := bits1248) "abc" (strlen "abc")
                                          false true) opened))
    by (apply tookAllb_spec; vm_compute; reflexivity).
  split; [exact HF|]. split; [exact Hw|]. split; [exact Ho|].
  split; [exact Hl|]. split; [exact Ht|].
  exact (proj1 (whole_response_in_one_call (F := bits1248) "abc" false true
                  opened HF Hw Ho Hl Ht)).
Defined.

Lemma header_overloads_agree_witness :
  statusCalled (F := bits1248) chunkedOpen
  /\ strlen "Content-Length" <= INT_MAX
  /\ emits (headerLine "Content-Length" (utils.u64toa 5)) chunkedOpen
           (after (writeHeaderU64 "Content-Length" 5)
                  chunkedOpen).
Proof.
  assert (Hc : statusCalled (F := bits1248) chunkedOpen)
    by (vm_compute; reflexivity).
  assert (Hk : strlen "Content-Length" <= INT_MAX)
    by (vm_compute; discriminate).
  split; [exact Hc|]. split; [exact Hk|].
  exact (proj1 (header_overloads_agree (F := bits1248) "Content-Length" 5
                  chunkedOpen Hc Hk)).
Defined.

(* ===================================================================== *)
(** * The window bits upgrade sends *)

(** C8.  [upgrade] with compression enabled, an extensions offer that is not
    empty and a counter-offer [offer] of the negotiator that is not empty,
    on a response that is not in chunked mode.  The bytes [upgrade] hands
    the socket are the 101 status line, Upgrade, Connection,
    Sec-WebSocket-Accept, Sec-WebSocket-Protocol if protocols were offered,
    then the header Sec-WebSocket-Extensions with the value [sent], then the
    end of the header block.  For a dedicated compressor below the 256KB
    tier [sent] is the counter-offer with the server_max_window_bits
    parameter appended: 10 for 8KB, 11 for 16KB, 12 for 32KB, 13 for 64KB,
    14 for 128KB, and 9 for every other dedicated tier (3KB, 4KB).  For the
    256KB tier and for the shared compressor [sent] is the counter-offer as
    it is. *)
Theorem window_bits_by_tier {F : HttpResponseDataFlags} {O : Options}
        {C : CompressOptions} {N : ExtensionsNegotiator}
        {H : WebSocketHandshake}
        (secWebSocketKey secWebSocketProtocol secWebSocketExtensions : string)
        (compression : Z) (w : World) :
  independent F ->
  tiersWellFormed C ->
  flagSet (state w) HTTP_WRITE_CALLED = false ->
  compression <> DISABLED ->
  secWebSocketExtensions <> "" ->
  let offer :=
    fst (generateOffer (readOffer (construct (wantedOptions compression))
                                  secWebSocketExtensions)) in
  let sent := extensionsValue compression offer in
  let suffix n := (offer ++ "; server_max_window_bits=" ++ n)%string in
  offer <> "" ->
  strlen (generate secWebSocketKey) <= INT_MAX ->
  strlen secWebSocketProtocol <= INT_MAX ->
  strlen sent <= INT_MAX ->
  wire (trace (after (upgrade secWebSocketKey secWebSocketProtocol
                              secWebSocketExtensions compression) w))
  = (wire (trace w)
     ++ statusBytes "101 Switching Protocols" w
     ++ headerLine "Upgrade" "websocket"
     ++ headerLine "Connection" "Upgrade"
     ++ headerLine "Sec-WebSocket-Accept" (generate secWebSocketKey)
     ++ protocolLine secWebSocketProtocol
     ++ headerLine "Sec-WebSocket-Extensions" sent
     ++ endHead false 0 w)%string
  /\ ((compression = DEDICATED_COMPRESSOR_8KB -> sent = suffix "10")
      /\ (compression = DEDICATED_COMPRESSOR_16KB -> sent = suffix "11")
      /\ (compression = DEDICATED_COMPRESSOR_32KB -> sent = suffix "12")
      /\ (compression = DEDICATED_COMPRESSOR_64KB -> sent = suffix "13")
      /\ (compression = DEDICATED_COMPRESSOR_128KB -> sent = suffix "14")
      /\ (Z.land compression DEDICATED_COMPRESSOR <> 0 ->
          namedTier compression = false ->
          compression <> DEDICATED_COMPRESSOR_256KB -> sent = suffix "9"))
  /\ (compression = DEDICATED_COMPRESSOR_256KB -> sent = offer)
  /\ (compression = SHARED_COMPRESSOR -> sent = offer).
Proof.
  intros HF Hwf Hw Hen Hext. cbv zeta. intros Hoffer Hkey Hproto Hfit.
  pose proof (independent_facts HF) as [[Hnz _] [[Hsw [Hse _]] _]].
  pose proof (extensionsValue_by_tier compression secWebSocketExtensions w Hwf)
    as Htier.
  cbv zeta in Htier. destruct Htier as [Hbits [H256 [Hshared _]]].
  split; [|split; [exact Hbits | split; [exact H256 | exact Hshared]]].
  destruct (upgrade_head_run secWebSocketKey secWebSocketProtocol
              secWebSocketExtensions compression w HF Hkey Hproto Hfit)
    as [w5 [Erun [[W [_ [_ [_ [_ Nm]]]]] Hstate]]].
  rewrite Erun. clear Erun.
  assert (Hline : extensionsLine compression secWebSocketExtensions
                  = headerLine "Sec-WebSocket-Extensions"
                      (extensionsValue compression
                         (fst (generateOffer
                                 (readOffer
                                    (construct (wantedOptions compression))
                                    secWebSocketExtensions))))).
  { unfold extensionsLine, counterOffer.
    assert (E1 : (compression =? DISABLED) = false) by (apply Z.eqb_neq, Hen).
    assert (E2 : (strlen secWebSocketExtensions =? 0) = false).
    { apply Z.eqb_neq. intros E. apply Hext, strlen_zero, E. }
    assert (E3 : (strlen (fst (generateOffer
                                 (readOffer
                                    (construct (wantedOptions compression))
                                    secWebSocketExtensions))) =? 0) = false).
    { apply Z.eqb_neq. intros E. apply Hoffer, strlen_zero, E. }
    rewrite E1, E2, E3. reflexivity. }
  rewrite Hline in W.
  assert (Hc5 : statusCalled w5).
  { unfold statusCalled. rewrite Hstate. apply statusSet_called, Hnz. }
  assert (Hw5 : flagSet (state w5) HTTP_WRITE_CALLED = false).
  { rewrite Hstate, statusSet_other by exact Hsw. exact Hw. }
  pose proof (internalEnd_empty_run false false w5 HF Hc5 Hw5) as Hend.
  cbv zeta in Hend. destruct Hend as [W6 _].
  assert (Hhead : endHead false 0 w5 = endHead false 0 w).
  { unfold endHead, markLine. rewrite Hstate, statusSet_other, Nm by exact Hse.
    reflexivity. }
  rewrite W6, W, Hhead, !append_assoc. reflexivity.
Qed.

Lemma window_bits_by_tier_witness :
  independent bits1248
  /\ tiersWellFormed sampleCompressOptions
  /\ flagSet (state (start (F := bits1248) []))
             (HTTP_WRITE_CALLED (HttpResponseDataFlags := bits1248)) = false
  /\ DEDICATED_COMPRESSOR_8KB (CompressOptions := sampleCompressOptions)
     <> DISABLED (CompressOptions := sampleCompressOptions)
  /\ "permessage-deflate; client_max_window_bits" <> ""
  /\ fst (generateOffer (ExtensionsNegotiator := grantingNegotiator)
            (readOffer
               (construct
                  (wantedOptions (O := sampleOptions)
                     (C := sampleCompressOptions)
                     (DEDICATED_COMPRESSOR_8KB
                        (CompressOptions := sampleCompressOptions))))
               "permessage-deflate; client_max_window_bits")) <> ""
  /\ wire (trace (after (upgrade (F := bits1248) (O := sampleOptions)
                                 (C := sampleCompressOptions)
                                 (N := grantingNegotiator)
                                 (H := fixtureHandshake)
                                 "dGhlIHNhbXBsZSBub25jZQ==" "chat, superchat"
                                 "permessage-deflate; client_max_window_bits"
                                 (DEDICATED_COMPRESSOR_8KB
                                    (CompressOptions := sampleCompressOptions)))
                        (start (F := bits1248) [])))
     = (wire (trace (start (F := bits1248) []))
        ++ statusBytes (F := bits1248) "101 Switching Protocols"
                       (start (F := bits1248) [])
        ++ headerLine "Upgrade" "websocket"
        ++ headerLine "Connection" "Upgrade"
        ++ headerLine "Sec-WebSocket-Accept"
                      (generate (WebSocketHandshake := fixtureHandshake)
                                "dGhlIHNhbXBsZSBub25jZQ==")
        ++ protocolLine "chat, superchat"
        ++ headerLine "Sec-WebSocket-Extensions"
                      "permessage-deflate; server_max_window_bits=10"
        ++ endHead (F := bits1248) false 0 (start (F := bits1248) []))%string.
Proof.
  assert (HF : independent bits1248) by reflexivity.
  assert (Hwf : tiersWellFormed sampleCompressOptions) by reflexivity.
  assert (Hw : flagSet (state (start (F := bits1248) []))
                       (HTTP_WRITE_CALLED (HttpResponseDataFlags := bits1248))
               = false) by reflexivity.
  assert (Hen : DEDICATED_COMPRESSOR_8KB
                  (CompressOptions := sampleCompressOptions)
                <> DISABLED (CompressOptions := sampleCompressOptions))
    by discriminate.
  assert (Hext : "permessage-deflate; client_max_window_bits" <> "")
    by discriminate.
  assert (Hoffer : fst (generateOffer (ExtensionsNegotiator := grantingNegotiator)
                          (readOffer
                             (construct
                                (wantedOptions (O := sampleOptions)
                                   (C := sampleCompressOptions)
                                   (DEDICATED_COMPRESSOR_8KB
                                      (CompressOptions := sampleCompressOptions))))
                             "permessage-deflate; client_max_window_bits"))
                   <> "") by (vm_compute; discriminate).
  assert (Hkey : strlen (generate (WebSocketHandshake := fixtureHandshake)
                                  "dGhlIHNhbXBsZSBub25jZQ==") <= INT_MAX)
    by (vm_compute; discriminate).
  assert (Hproto : strlen "chat, superchat" <= INT_MAX)
    by (vm_compute; discriminate).
  assert (Hfit : strlen (extensionsValue (C := sampleCompressOptions)
                           (DEDICATED_COMPRESSOR_8KB
                              (CompressOptions := sampleCompressOptions))
                           (fst (generateOffer
                                   (ExtensionsNegotiator := grantingNegotiator)
                                   (readOffer
                                      (construct
                                         (wantedOptions (O := sampleOptions)
                                            (C := sampleCompressOptions)
                                            (DEDICATED_COMPRESSOR_8KB
                                               (CompressOptions :=
                                                  sampleCompressOptions))))
                                      "permessage-deflate; client_max_window_bits"))))
                 <= INT_MAX) by (vm_compute; discriminate).
  pose proof (window_bits_by_tier (F := bits1248) (O := sampleOptions)
                (C := sampleCompressOptions) (N := grantingNegotiator)
                (H := fixtureHandshake)
                "dGhlIHNhbXBsZSBub25jZQ==" "chat, superchat"
                "permessage-deflate; client_max_window_bits"
                (DEDICATED_COMPRESSOR_8KB
                   (CompressOptions := sampleCompressOptions))
                (start (F := bits1248) [])
                HF Hwf Hw Hen Hext Hoffer Hkey Hproto Hfit) as Hthm.
  destruct Hthm as [Hwire [[H10 _] _]].
  rewrite (H10 eq_refl) in Hwire.
  split; [exact HF|]. split; [exact Hwf|]. split; [exact Hw|].
  split; [exact Hen|]. split; [exact Hext|]. split; [exact Hoffer|].
  exact Hwire.
Defined.

(* ===================================================================== *)
(** * A payload whose length the size line cannot hold *)

Lemma strlen_doubled (n : nat) :
  forall s, strlen (doubled n s) = 2 ^ Z.of_nat n * strlen s.
Proof.
  induction n as [|n IH]; intros s; cbn [doubled].
  - change (Z.of_nat 0) with 0. rewrite Z.pow_0_r. lia.
  - rewrite IH, strlen_append, Nat2Z.inj_succ, Z.pow_succ_r
      by apply Nat2Z.is_nonneg.
    ring.
Qed.

Lemma strlen_fourGiB : strlen fourGiB = 2 ^ 32.
Proof. unfold fourGiB. rewrite strlen_doubled. reflexivity. Qed.

Section WrappedLength.

Context {F : HttpResponseDataFlags}.

(** [write] on a response in chunked mode leaves the flags as they are,
    whatever the length of the data. *)
Lemma write_keeps_chunked (data : string) (w : World) :
  statusCalled w ->
  flagSet (state w) HTTP_WRITE_CALLED = true ->
  state (after (write data) w) = state w.
Proof.
  intros Hc Hw. unfold after. rewrite write_parts. cbv zeta.
  assert (Hs : after (writeStatus HTTP_200_OK) w = w).
  { unfold after. rewrite writeStatus_called by exact Hc. reflexivity. }
  rewrite Hs. destruct (strlen data =? 0); [reflexivity|].
  destruct (enterChunked_run w Hc) as [_ S1]. rewrite Hw in S1.
  pose proof (writeChunk_run data (after enterChunked w)) as Hch.
  cbv zeta in Hch. destruct Hch as [_ [_ [S2 _]]].
  unfold after in S2 at 1. rewrite S2. exact S1.
Qed.

(** [write] with 4 GiB of data on a response in chunked mode: the guard on
    the length lets the call through, the [unsigned int] cast makes the size
    line the digit zero and the [int] cast hands the socket none of the
    data. *)
Lemma write_wrapped_length (data : string) (w : World) :
  statusCalled w ->
  flagSet (state w) HTTP_WRITE_CALLED = true ->
  strlen data = 2 ^ 32 ->
  issued (added (write data) w)
  = [(ChunkFraming, CRLF, 2); (ChunkFraming, "0", 1); (ChunkFraming, CRLF, 2);
     (Payload, data, 0)]
  /\ wire (trace (after (write data) w))
     = (wire (trace w) ++ CRLF ++ "0" ++ CRLF)%string.
Proof.
  intros Hc Hw Hs.
  assert (Hlen : (strlen data =? 0) = false) by (rewrite Hs; reflexivity).
  destruct (write_chunked_trace data w Hc Hw Hlen)
    as [a1 [a2 [a3 [a4 [E _]]]]].
  rewrite Hs in E.
  assert (Eu : as_unsigned (2 ^ 32) = 0) by reflexivity.
  assert (Ei : as_int (2 ^ 32) = 0) by reflexivity.
  assert (Eh : utils.u32toaHex 0 = "0") by reflexivity.
  assert (El : strlen "0" = 1) by reflexivity.
  rewrite Eu, Ei, Eh, El in E.
  assert (Htail : forall b : bool,
             issued (if b then [Armed HTTP_TIMEOUT_S] else []) = []
             /\ wire (if b then [Armed HTTP_TIMEOUT_S] else []) = "")
    by (intros []; split; reflexivity).
  destruct (Htail (snd a4)) as [Hi Hwt].
  split.
  - rewrite (added_app _ w _ E), issued_app, Hi, app_nil_r. reflexivity.
  - rewrite E, !wire_app, Hwt. cbn [wire bytesOf].
    unfold handed at 4. change (Z.to_nat 0) with 0%nat.
    rewrite substring_none, !append_empty_r. reflexivity.
Qed.

(** The next [write] then completes the terminating chunk. *)
Lemma write_after_wrapped_length (data more : string) (w : World) :
  independent F ->
  statusCalled w ->
  flagSet (state w) HTTP_WRITE_CALLED = true ->
  strlen data = 2 ^ 32 ->
  more <> "" ->
  strlen more <= INT_MAX ->
  wire (trace (after (write more) (after (write data) w)))
  = (wire (trace w) ++ terminatingChunk
     ++ utils.u32toaHex (strlen more) ++ CRLF ++ more)%string.
Proof.
  intros HF Hc Hw Hs Hne Hfit.
  pose proof (write_keeps_chunked data w Hc Hw) as S1.
  destruct (write_wrapped_length data w Hc Hw Hs) as [_ W1].
  set (w1 := after (write data) w) in *.
  assert (Hc1 : statusCalled w1) by (unfold statusCalled; rewrite S1; exact Hc).
  assert (Hw1 : flagSet (state w1) HTTP_WRITE_CALLED = true)
    by (rewrite S1; exact Hw).
  destruct (write_chunked_run more w1 HF Hfit Hc1 Hw1) as [W2 _].
  assert (Hn : nonEmpty more = true).
  { unfold nonEmpty. apply negb_true_iff, Z.eqb_neq.
    intros E. apply Hne, strlen_zero, E. }
  rewrite W2, W1, Hn. unfold chunkBytes, terminatingChunk.
  rewrite !append_assoc. reflexivity.
Qed.

End WrappedLength.

(** C4.  [write] does send a zero chunk.  On the response in chunked mode
    that [write("x")] leaves, [write] with 4 GiB of data ([2 ^ 32]
    characters) passes the guard on the length, writes the line end, the
    size line "0" and the line end, and hands the socket none of the data:
    a chunk of size zero.  A [write("x")] after it starts with a line end,
    so that the bytes the two calls hand the socket begin with the
    terminating chunk, with no call of [internalEnd]. *)
Theorem write_sends_zero_chunk_at_4GiB :
  strlen fourGiB = 2 ^ 32
  /\ flagSet (state chunkedOpen)
             (HTTP_WRITE_CALLED (HttpResponseDataFlags := bits1248)) = true
  /\ issued (added (write (F := bits1248) fourGiB) chunkedOpen)
     = [(ChunkFraming, CRLF, 2); (ChunkFraming, "0", 1);
        (ChunkFraming, CRLF, 2); (Payload, fourGiB, 0)]
  /\ wire (trace (after (write (F := bits1248) fourGiB) chunkedOpen))
     = (wire (trace chunkedOpen) ++ CRLF ++ "0" ++ CRLF)%string
  /\ wire (trace (after (write (F := bits1248) "x")
                        (after (write (F := bits1248) fourGiB) chunkedOpen)))
     = (wire (trace chunkedOpen) ++ terminatingChunk
        ++ "1" ++ CRLF ++ "x")%string.
Proof.
  assert (HF : independent bits1248) by reflexivity.
  assert (Hc : statusCalled (F := bits1248) chunkedOpen)
    by (vm_compute; reflexivity).
  assert (Hw : flagSet (state chunkedOpen)
                       (HTTP_WRITE_CALLED (HttpResponseDataFlags := bits1248))
               = true) by (vm_compute; reflexivity).
  assert (Hne : "x" <> "") by discriminate.
  assert (Hfit : strlen "x" <= INT_MAX) by (vm_compute; discriminate).
  assert (Hx : utils.u32toaHex (strlen "x") = "1") by reflexivity.
  destruct (write_wrapped_length (F := bits1248) fourGiB chunkedOpen Hc Hw
              strlen_fourGiB) as [I1 W1].
  pose proof (write_after_wrapped_length (F := bits1248) fourGiB "x"
                chunkedOpen HF Hc Hw strlen_fourGiB Hne Hfit) as W2.
  rewrite Hx in W2.
  split; [exact strlen_fourGiB|]. split; [exact Hw|].
  split; [exact I1|]. split; [exact W1 | exact W2].
Qed.
